(** * Ladder_bot: the staircase calculator [LadderCalculator] of Ladder_main.py

    A shallow embedding of the calculation engine of the bot (class
    [LadderCalculator], lines 23-443 of src/Ladder_main.py) and the proofs of
    its properties.

    Modelling conventions.
    - A Python [float] (and an [int] mixed with floats) is an exact rational
      [Q]; a Python [int] that stays an [int] (a step count, a ladder type) is
      a [Z].  Comparisons are the boolean ones of [Q].  The numbers are the
      finite ones: NaN and the infinities have no counterpart here, and a
      statement about every number speaks of the finite numbers within the
      range of the doubles.
    - The quotient by a riser the caller supplies is rounded to the nearest
      double before [round] reads it, as Python's [/] does ([float_div]): that
      rounding can move the quotient onto a half and change the step count.
      The other operations are kept exact.
    - [round(x)] is Python 3's rounding to the nearest integer with ties going
      to the even neighbour; [round(x, 2)] is the same on [x * 100].
    - [a / b] raises [ZeroDivisionError] when [b] is zero: fallible code lives
      in the error monad [res].
    - [try: ... except: ...] is a match on the [res] of the protected block.
    - A dict built with fixed keys is a record; a key that may be missing is an
      [option] field.  A dict mutated in place is threaded as a value.
    - A static message is a [string]; an f-string that interpolates a run-time
      number is a [text]: the list of its literal and numeric parts.
    - Where the binary64 rounding of a float operation itself matters, the
      operation is replayed on the primitive floats in [Binary64]. *)

From Stdlib Require Import ZArith QArith Qround Qminmax Qabs Qpower.
From Stdlib Require Import List String Bool Lia Lqa.
From Stdlib Require Floats.
Import ListNotations.

Local Open Scope Q_scope.

(** ** Python values and control flow *)

Module Py.

(** The exceptions the calculator can meet. *)
Inductive exn : Type :=
| ZeroDivisionError
| ValueError.

(** A computation that returns a value or raises. *)
Inductive res (A : Type) : Type :=
| Ok (a : A)
| Raise (e : exn).

Arguments Ok {A} a.
Arguments Raise {A} e.

Definition ret {A : Type} (a : A) : res A := Ok a.

Definition bind {A B : Type} (c : res A) (k : A -> res B) : res B :=
  match c with
  | Ok a => k a
  | Raise e => Raise e
  end.

(** [x < y] on floats. *)
Definition Qlt_bool (x y : Q) : bool := negb (Qle_bool y x).

(** [x / y]. *)
Definition div (x y : Q) : res Q :=
  if Qeq_bool y 0 then Raise ZeroDivisionError else Ok (x / y).

(** [round(x)]: nearest integer, a tie goes to the even one. *)
Definition round (x : Q) : Z :=
  let f := Qfloor x in
  match Qcompare (x - inject_Z f) (1 # 2) with
  | Lt => f
  | Gt => (f + 1)%Z
  | Eq => if Z.even f then f else (f + 1)%Z
  end.

(** [round(x, 2)]. *)
Definition round2 (x : Q) : Q := inject_Z (round (x * 100)) / 100.

(** The binary exponent of a positive number: the [e] with
    [2 ^ e <= x < 2 ^ (e + 1)]. *)
Definition exponent (x : Q) : Z :=
  let e := (Z.log2 (Qnum x) - Z.log2 (Zpos (Qden x)))%Z in
  if Qle_bool (2 ^ e) x then e else (e - 1)%Z.

(** The spacing of the doubles around [x]: 53 significant bits down to the
    exponent -1022, the fixed spacing [2 ^ -1074] of the subnormal numbers
    below. *)
Definition ulp (x : Q) : Q := 2 ^ (Z.max (exponent (Qabs x)) (-1022) - 52).

(** The double nearest to [x], a tie going to the even significand: what a
    float operation returns for the exact result [x] (short of overflow). *)
Definition nearest_float (x : Q) : Q := inject_Z (round (x / ulp x)) * ulp x.

(** The largest relative error of [nearest_float] in the normal range. *)
Definition unit_roundoff : Q := 2 ^ (-53).

(** [x / y] as the float it is stored in. *)
Definition float_div (x y : Q) : res Q :=
  if Qeq_bool y 0 then Raise ZeroDivisionError else Ok (nearest_float (x / y)).

(** Truth value of a number: [if x:]. *)
Definition truthy (x : Q) : bool := negb (Qeq_bool x 0).

(** [x or 0] on an optional number. *)
Definition or_zero (x : option Q) : Q :=
  match x with
  | Some v => if truthy v then v else 0
  | None => 0
  end.

(** [needle in hay] on strings. *)
Fixpoint contains (needle hay : string) : bool :=
  if String.prefix needle hay then true
  else match hay with
       | EmptyString => false
       | String _ rest => contains needle rest
       end.

(** [range(lo, lo + n)]. *)
Fixpoint range (lo : Z) (n : nat) : list Z :=
  match n with
  | O => []
  | S k => lo :: range (lo + 1) k
  end.

(** A part of an f-string. *)
Inductive part : Type :=
| Lit (s : string)
| Num (q : Q).

(** An f-string with run-time numbers in it. *)
Definition text : Type := list part.

End Py.

Import Py.

Declare Scope py_scope.
Delimit Scope py_scope with py.
Notation "x <- c ;; k" := (bind c (fun x => k))
  (at level 61, c at next level, right associativity) : py_scope.
Local Open Scope py_scope.

(** ** The functions of Python's [math] module the calculator calls

    Rational models, accurate far beyond the two decimals the calculator
    keeps.  [pi] is the binary64 constant of CPython
    ([math.pi.as_integer_ratio()]), which is what [math.radians] and
    [math.degrees] multiply by; the trigonometric functions themselves are
    evaluated on the true circle. *)

Module PyMath.

(** [math.pi], the double nearest to the real number. *)
Definition pi : Q := 884279719003555 # 281474976710656.

(** The real number to forty decimals, for the series below. *)
Definition pi_real : Q :=
  31415926535897932384626433832795028841971 # 10000000000000000000000000000000000000000.

(** [math.radians(x)] *)
Definition radians (x : Q) : Q := x * (pi / 180).

(** [math.degrees(x)] *)
Definition degrees (x : Q) : Q := x * (180 / pi).

(** Thirty decimals of a rational: the working precision of the models. *)
Definition fix30 (x : Q) : Q :=
  inject_Z (Qfloor (x * 1000000000000000000000000000000))
  / 1000000000000000000000000000000.

(** Sum of [n] terms [t, t * r 1, t * r 1 * r 2, ...]. *)
Fixpoint series (r : nat -> Q) (n : nat) (k : nat) (t acc : Q) : Q :=
  match n with
  | O => acc
  | S n' => series r n' (S k) (fix30 (t * r (S k))) (fix30 (acc + t))
  end.

(** [math.cos(x)]: the argument reduced into one turn, then the Taylor
    polynomial of degree 78. *)
Definition cos (x : Q) : Q :=
  let a := Qabs x in
  let turn := 2 * pi_real in
  let y := fix30 (a - inject_Z (Qfloor (a / turn)) * turn) in
  let y2 := fix30 (y * y) in
  series (fun k => - y2 / inject_Z (Z.of_nat ((2 * k - 1) * (2 * k)))) 40 0 1 0.

(** Euler's series for the arc tangent of [0 <= x <= 1]. *)
Definition atan_unit (x : Q) : Q :=
  let d := 1 + x * x in
  let y := fix30 (x * x / d) in
  series (fun k => inject_Z (Z.of_nat (2 * k)) / inject_Z (Z.of_nat (2 * k + 1)) * y)
         100 0 (fix30 (x / d)) 0.

Definition atan_pos (x : Q) : Q :=
  if Qle_bool x 1 then atan_unit x else pi_real / 2 - atan_unit (/ x).

(** [math.atan(x)] *)
Definition atan (x : Q) : Q :=
  if Qle_bool 0 x then atan_pos x else - atan_pos (- x).

Fixpoint newton (x : Q) (n : nat) (g : Q) : Q :=
  match n with
  | O => g
  | S n' => newton x n' (fix30 ((g + x / g) / 2))
  end.

(** [math.sqrt(x)]: [ValueError] below zero, Newton's iteration otherwise,
    started on the power of two next above the root. *)
Definition sqrt (x : Q) : res Q :=
  if Qlt_bool x 0 then Raise ValueError
  else if Qeq_bool x 0 then Ok 0
  else Ok (newton x 60 (2 ^ (exponent x / 2 + 1))).

End PyMath.

(** ** class LadderCalculator *)

Module LadderCalculator.

(** *** [__init__]: the fixed configuration *)

Definition min_angle : Q := 30.
Definition max_angle : Q := 45.
Definition standard_step_width : Q := 30.
Definition standard_step_height : Q := 20.
Definition min_step_width : Q := 25.
Definition min_step_height : Q := 15.
Definition max_step_height : Q := 25.
Definition min_ladder_width : Q := 80.

(** *** [calculate_angle] *)

Definition calculate_angle (height length : Q) (angle : option Q)
  : option Q * string :=
  match angle with
  | Some a => (Some a, "Угол задан вручную"%string)
  | None =>
      if Qeq_bool length 0
      then (None, "Ошибка: длина проема не может быть 0"%string)
      else
        match (q <- div height length ;;
               let angle_rad := PyMath.atan q in
               let angle_deg := PyMath.degrees angle_rad in
               ret (round2 angle_deg)) with
        | Ok v => (Some v, "Угол рассчитан"%string)
        | Raise _ => (None, "Ошибка при расчете угла"%string)
        end
  end.

(** *** [check_angle] *)

Definition check_angle (angle : option Q) : string :=
  match angle with
  | None => "Ошибка: угол не определен"%string
  | Some a =>
      if Qle_bool min_angle a && Qle_bool a max_angle
      then "Угол подходит"%string
      else "Угол не подходит (должен быть от 30° до 45°)"%string
  end.

(** *** [calculate_steps]

    The tuple [(steps, message, actual_height, actual_width)]. *)

Definition steps_result : Type := option Z * string * option Q * option Q.

Definition steps_error (msg : string) : res steps_result :=
  ret (None, msg, None, None).

Definition riser_range_error : string :=
  "Ошибка: высота подступенка должна быть от 15 до 25 см"%string.

Definition tread_min_error : string :=
  "Ошибка: ширина ступени должна быть не менее 25 см"%string.

Definition calculate_steps (height length : Q) (step_height step_width : option Q)
  : res steps_result :=
  match step_height, step_width with
  | None, None =>
      let default_height := standard_step_height in
      let default_height :=
        if negb (Qle_bool min_step_height default_height
                 && Qle_bool default_height max_step_height)
        then Qmax min_step_height (Qmin max_step_height default_height)
        else default_height in
      q <- div height default_height ;;
      let steps := round q in
      actual_height <- div height (inject_Z steps) ;;
      let actual_width := standard_step_width in
      ret (Some steps,
           "Количество ступеней рассчитано (стандартные элементы 30x20 см)"%string,
           Some actual_height, Some actual_width)
  | Some step_height, None =>
      if Qle_bool step_height 0
      then steps_error "Ошибка: высота подступенка должна быть положительной"
      else if Qlt_bool step_height min_step_height
              || Qlt_bool max_step_height step_height
      then steps_error riser_range_error
      else
        steps <- float_div height step_height ;;
        let actual_width := standard_step_width in
        ret (Some (round steps),
             "Количество ступеней рассчитано (высота задана)"%string,
             Some step_height, Some actual_width)
  | None, Some step_width =>
      if Qle_bool step_width 0
      then steps_error "Ошибка: ширина ступени должна быть положительной"
      else if Qlt_bool step_width min_step_width
      then steps_error tread_min_error
      else
        let standard_height := standard_step_height in
        if Qle_bool min_step_height standard_height
           && Qle_bool standard_height max_step_height
        then
          steps <- div height standard_height ;;
          ret (Some (round steps),
               "Количество ступеней рассчитано (ширина задана, высота стандартная)"%string,
               Some standard_height, Some step_width)
        else
          steps <- div height standard_height ;;
          ret (Some (round steps),
               "Количество ступеней рассчитано (ширина задана)"%string,
               Some standard_height, Some step_width)
  | Some step_height, Some step_width =>
      if Qle_bool step_height 0 || Qle_bool step_width 0
      then steps_error "Ошибка: параметры должны быть положительными"
      else if Qlt_bool step_height min_step_height
              || Qlt_bool max_step_height step_height
      then steps_error riser_range_error
      else if Qlt_bool step_width min_step_width
      then steps_error tread_min_error
      else
        steps <- float_div height step_height ;;
        ret (Some (round steps),
             "Количество ступеней рассчитано (ширина и высота заданы)"%string,
             Some step_height, Some step_width)
  end.

(** *** [calculate_length] *)

Definition calculate_length (height length : Q) (angle : option Q)
  : option Q * string :=
  match angle with
  | Some a =>
      match (length_ladder <- div length (PyMath.cos (PyMath.radians a)) ;;
             ret (round2 length_ladder)) with
      | Ok v => (Some v, "Длина лестницы рассчитана по углу"%string)
      | Raise _ => (None, "Ошибка: неверный угол"%string)
      end
  | None =>
      match (length_ladder <- PyMath.sqrt (height * height + length * length) ;;
             ret (round2 length_ladder)) with
      | Ok v => (Some v, "Длина лестницы рассчитана по теореме Пифагора"%string)
      | Raise _ => (None, "Ошибка: неверные параметры"%string)
      end
  end.

(** *** [calculate_parts]

    The keys of the dict, in order: "ступени", "подступенки", "косоуры",
    "балясины", "поручни", "площадки", "поворотные ступени". *)

Record parts : Type := mk_parts {
  treads : Z;
  risers : Z;
  stringers : Z;
  balusters : Z;
  handrails : Z;
  landings : Z;
  winder_treads : Z
}.

Definition in_1_2_3 (t : Z) : bool := ((t =? 1) || (t =? 2) || (t =? 3))%Z.
Definition in_2_3 (t : Z) : bool := ((t =? 2) || (t =? 3))%Z.

Definition calculate_parts (steps : Z) (ladder_type : Z) : parts :=
  let ladder_type := if negb (in_1_2_3 ladder_type) then 1%Z else ladder_type in
  {| treads := steps;
     risers := steps;
     stringers := if (ladder_type =? 1)%Z then 2 else 1;
     balusters := steps + 2;
     handrails := 2;
     landings := if in_2_3 ladder_type then 1 else 0;
     winder_treads := if in_2_3 ladder_type then 2 else 0 |}%Z.

(** *** [validate_inputs] *)

Definition append_if {A : Type} (c : bool) (x : A) (l : list A) : list A :=
  if c then l ++ [x] else l.

Definition validation_errors (height length : Q) (width : option Q) : list string :=
  let errors := [] in
  let errors := append_if (Qle_bool height 0)
                  "Высота должна быть положительной"%string errors in
  let errors := append_if (Qle_bool length 0)
                  "Длина проема должна быть положительной"%string errors in
  let errors := append_if (Qlt_bool 500 height)
                  "Высота слишком большая (максимум 500 см)"%string errors in
  let errors := append_if (Qlt_bool 1000 length)
                  "Длина проема слишком большая (максимум 1000 см)"%string errors in
  let errors := append_if (match width with
                           | Some w => Qlt_bool w min_ladder_width
                           | None => false
                           end)
                  "Ширина проема должна быть не менее 80 см"%string errors in
  errors.

Definition validate_inputs (height length : Q) (width : option Q) : string :=
  let errors := validation_errors height length width in
  match errors with
  | [] => EmptyString
  | _ => String.concat "; " errors
  end.

(** *** [check_installation_feasibility] *)

Record feasibility : Type := mk_feasibility {
  possible : bool;
  issues : list text;
  warnings : list string
}.

(** [f["possible"] = False; f["issues"].append(msg)] *)
Definition fail_with (msg : text) (f : feasibility) : feasibility :=
  {| possible := false; issues := issues f ++ [msg]; warnings := warnings f |}.

(** [f["warnings"].append(msg)] *)
Definition warn_with (msg : string) (f : feasibility) : feasibility :=
  {| possible := possible f; issues := issues f; warnings := warnings f ++ [msg] |}.

Definition issue_no_steps : text :=
  [Lit "Не удалось рассчитать количество ступеней"].
Definition issue_no_step_params : text :=
  [Lit "Не удалось рассчитать параметры ступеней"].
Definition issue_angle_undefined : text :=
  [Lit "Угол наклона не определен"].
Definition issue_angle_range (angle : Q) : text :=
  [Lit "Угол наклона "; Num angle; Lit "° вне допустимого диапазона (";
   Num min_angle; Lit "°-"; Num max_angle; Lit "°)"].
Definition issue_riser_low (step_height : Q) : text :=
  [Lit "Слишком низкие подступенки ("; Num step_height; Lit " см < ";
   Num min_step_height; Lit " см)"].
Definition issue_riser_high (step_height : Q) : text :=
  [Lit "Слишком высокие подступенки ("; Num step_height; Lit " см > ";
   Num max_step_height; Lit " см)"].
Definition issue_tread_narrow (step_width : Q) : text :=
  [Lit "Слишком узкие ступени ("; Num step_width; Lit " см < ";
   Num min_step_width; Lit " см)"].
Definition issue_few_steps : text :=
  [Lit "Слишком мало ступеней (минимум 3)"].
Definition issue_many_steps : text :=
  [Lit "Слишком много ступеней (максимум 25)"].
Definition issue_opening_width (width : Q) : text :=
  [Lit "Ширина проема недостаточна ("; Num width; Lit " см < ";
   Num min_ladder_width; Lit " см)"].
Definition issue_too_long (horizontal_projection length : Q) : text :=
  [Lit "Лестница не поместится по длине: требуется "; Num horizontal_projection;
   Lit " см, доступно "; Num length; Lit " см"].

(** The checks of the method, one state transformer per [if] statement, in
    the order of the source. *)

Definition stage_angle (angle : option Q) (f : feasibility) : feasibility :=
  match angle with
  | None => fail_with issue_angle_undefined f
  | Some angle =>
      if negb (Qle_bool min_angle angle && Qle_bool angle max_angle)
      then fail_with (issue_angle_range angle) f
      else f
  end.

Definition stage_riser (step_height : Q) (f : feasibility) : feasibility :=
  if Qlt_bool step_height min_step_height
  then fail_with (issue_riser_low step_height) f
  else if Qlt_bool max_step_height step_height
  then fail_with (issue_riser_high step_height) f
  else f.

Definition stage_tread (step_width : Q) (f : feasibility) : feasibility :=
  if Qlt_bool step_width min_step_width
  then fail_with (issue_tread_narrow step_width) f
  else f.

Definition stage_min_steps (steps : Z) (f : feasibility) : feasibility :=
  if (steps <? 3)%Z then fail_with issue_few_steps f else f.

Definition stage_max_steps (steps : Z) (f : feasibility) : feasibility :=
  if (25 <? steps)%Z then fail_with issue_many_steps f else f.

Definition stage_opening_width (width : option Q) (f : feasibility) : feasibility :=
  match width with
  | Some width =>
      if Qlt_bool width min_ladder_width
      then fail_with (issue_opening_width width) f
      else f
  | None => f
  end.

Definition stage_projection (horizontal_projection length : Q) (f : feasibility)
  : feasibility :=
  if Qlt_bool length horizontal_projection
  then fail_with (issue_too_long horizontal_projection length) f
  else f.

Definition stage_riser_comfort (step_height : Q) (f : feasibility) : feasibility :=
  if Qlt_bool step_height 17
  then warn_with "Высота подступенка на нижней границе комфортного диапазона" f
  else if Qlt_bool 23 step_height
  then warn_with
         "Высота подступенка на верхней границе комфортного диапазона (стандарт 20 см)" f
  else f.

Definition stage_tread_comfort (step_width : Q) (f : feasibility) : feasibility :=
  if Qlt_bool step_width 28
  then warn_with "Ширина ступени близка к минимальной (стандарт 30 см)" f
  else if Qlt_bool 35 step_width
  then warn_with "Ширина ступени больше стандартной (стандарт 30 см)" f
  else f.

Definition check_installation_feasibility
    (height length : Q) (width : option Q) (angle : option Q) (steps : option Z)
    (step_width step_height : option Q) (horizontal_projection : Q) : feasibility :=
  let f := {| possible := true; issues := []; warnings := [] |} in
  match steps with
  | None => fail_with issue_no_steps f
  | Some steps =>
  if (steps =? 0)%Z then fail_with issue_no_steps f else
  match step_width, step_height with
  | None, _ | _, None => fail_with issue_no_step_params f
  | Some step_width, Some step_height =>
  if Qle_bool step_width 0 || Qle_bool step_height 0
  then fail_with issue_no_step_params f else
  let f := stage_angle angle f in
  let f := stage_riser step_height f in
  let f := stage_tread step_width f in
  let f := stage_min_steps steps f in
  let f := stage_max_steps steps f in
  let f := stage_opening_width width f in
  let f := stage_projection horizontal_projection length f in
  let f := stage_riser_comfort step_height f in
  let f := stage_tread_comfort step_width f in
  f
  end
  end.

(** *** [calculate_ladder_footprint] *)

Record footprint : Type := mk_footprint {
  fp_error : option string;
  fp_message : option string;
  fp_horizontal_projection : option Q;
  fp_width_required : option Z;
  fp_description : option string
}.

Definition footprint_of (projection : Q) (width_required : Z) (description : string)
  : footprint :=
  {| fp_error := None;
     fp_message := Some "Габариты рассчитаны"%string;
     fp_horizontal_projection := Some projection;
     fp_width_required := Some width_required;
     fp_description := Some description |}.

Definition calculate_ladder_footprint (steps : Z) (step_width : Q) (ladder_type : Z)
  : footprint :=
  if (steps <=? 0)%Z || Qle_bool step_width 0
  then {| fp_error := Some "Неверные параметры для расчета габаритов"%string;
          fp_message := None;
          fp_horizontal_projection := None;
          fp_width_required := None;
          fp_description := None |}
  else if (ladder_type =? 1)%Z
  then footprint_of (round2 (inject_Z (steps - 1) * step_width)) 80
                    "Прямая лестница"
  else if (ladder_type =? 2)%Z
  then
    let section_steps := Z.max 1 (steps / 2) in
    footprint_of (round2 (2 * (inject_Z (section_steps - 1) * step_width) + 100)) 120
                 "П-образная лестница"
  else if (ladder_type =? 3)%Z
  then footprint_of (round2 (inject_Z (steps - 1) * step_width + 80)) 100
                    "Г-образная лестница"
  else footprint_of (round2 (inject_Z (steps - 1) * step_width)) 80
                    "Прямая лестница (по умолчанию)".

(** *** [suggest_optimal_parameters] *)

(** One proposed configuration; the keys "note" and "will_fit" exist in the
    standard option only. *)
Record variant : Type := mk_variant {
  v_note : option string;
  v_steps : Z;
  v_height : Q;
  v_width : Q;
  v_projection : Q;
  v_will_fit : option bool
}.

Record suggestions : Type := mk_suggestions {
  message : string;
  standard_option : option variant;
  best_option : option variant;
  minimum_option : option variant
}.

(** [suggestions.get(key)] as a truth value: a stored dict is never empty. *)
Definition present {A : Type} (o : option A) : bool :=
  match o with
  | Some _ => true
  | None => false
  end.

(** The state of the search loop: [max_steps] and [best_params]. *)
Definition search_state : Type := Z * option variant.

(** The body of [for steps in range(3, 26)]. *)
Definition search_body (height available_length : Q) (st : search_state) (steps : Z)
  : res search_state :=
  let '(max_steps, best_params) := st in
  step_height <- div height (inject_Z steps) ;;
  if Qle_bool min_step_height step_height && Qle_bool step_height max_step_height
  then
    let step_width := standard_step_width in
    let horizontal_projection := inject_Z (steps - 1) * step_width in
    if Qle_bool horizontal_projection available_length
    then
      if (max_steps <? steps)%Z
      then ret (steps,
                Some {| v_note := None;
                        v_steps := steps;
                        v_height := round2 step_height;
                        v_width := step_width;
                        v_projection := round2 horizontal_projection;
                        v_will_fit := None |})
      else ret (max_steps, best_params)
    else ret (max_steps, best_params)
  else ret (max_steps, best_params).

(** A [for] loop whose body may raise. *)
Fixpoint for_each {S A : Type} (body : S -> A -> res S) (l : list A) (st : S) : res S :=
  match l with
  | [] => ret st
  | x :: rest => st' <- body st x ;; for_each body rest st'
  end.

Definition suggest_optimal_parameters
    (height available_length : Q) (available_width : option Q) : res suggestions :=
  let message := "Предложения по оптимизации под стандарт 30x20 см"%string in
  (* 1. the standard elements *)
  q <- div height standard_step_height ;;
  let std_steps := round q in
  std_actual_height <- div height (inject_Z std_steps) ;;
  let std_width := standard_step_width in
  let std_projection := inject_Z (std_steps - 1) * std_width in
  let std_fits :=
    Qle_bool std_projection available_length
    && (Qle_bool min_step_height std_actual_height
        && Qle_bool std_actual_height max_step_height) in
  let standard_option :=
    if std_fits
    then Some {| v_note := Some "Рекомендуемый стандартный вариант"%string;
                 v_steps := std_steps;
                 v_height := round2 std_actual_height;
                 v_width := std_width;
                 v_projection := round2 std_projection;
                 v_will_fit := Some true |}
    else None in
  let message :=
    if std_fits
    then "Найдено решение с использованием стандартных элементов 30x20 см"%string
    else message in
  (* 2. the largest number of steps that fits *)
  st <- for_each (search_body height available_length) (range 3 23) (0%Z, None) ;;
  let '(max_steps, best_params) := st in
  let take_best :=
    present best_params
    && (negb (max_steps =? std_steps)%Z || negb (present standard_option)) in
  let best_option := if take_best then best_params else None in
  let message :=
    if take_best && negb (contains "стандарт" message)
    then "Найдены подходящие параметры (ширина ступени фиксирована 30 см)"%string
    else message in
  (* 3. nothing found: the minimal parameters *)
  if negb (present standard_option) && negb (present best_option)
  then
    q25 <- div height max_step_height ;;
    let min_steps := Z.max 3 (round q25) in
    min_height <- div height (inject_Z min_steps) ;;
    let min_width := standard_step_width in
    let min_projection := inject_Z (min_steps - 1) * min_width in
    ret {| message := "Рекомендуемые минимальные параметры (ширина ступени 30 см)"%string;
           standard_option := standard_option;
           best_option := best_option;
           minimum_option :=
             Some {| v_note := None;
                     v_steps := min_steps;
                     v_height := round2 min_height;
                     v_width := min_width;
                     v_projection := round2 min_projection;
                     v_will_fit := None |} |}
  else
    ret {| message := message;
           standard_option := standard_option;
           best_option := best_option;
           minimum_option := None |}.

(** *** [calculate_all] *)

Record inputs : Type := mk_inputs {
  in_height : Q;
  in_length : Q;
  in_width : option Q;
  in_angle : option Q;
  in_step_height : option Q;
  in_step_width : option Q;
  in_ladder_type : Z
}.

Record angle_info : Type := mk_angle_info {
  angle_value : option Q;
  angle_message : string;
  angle_status : string
}.

Record steps_info : Type := mk_steps_info {
  steps_count : Z;
  steps_message : string;
  steps_actual_height : option Q;
  steps_actual_width : option Q
}.

Record length_info : Type := mk_length_info {
  length_value : option Q;
  length_message : string
}.

(** The result dict: every key that a return path may leave out is an option. *)
Record result : Type := mk_result {
  r_error : option string;
  r_inputs : option inputs;
  r_warnings : option (list string);
  r_angle : option angle_info;
  r_steps : option steps_info;
  r_ladder_length : option length_info;
  r_footprint : option footprint;
  r_feasibility : option feasibility;
  r_suggestions : option suggestions;
  r_parts : option parts
}.

(** [{"error": validation_error}] *)
Definition error_only (msg : string) : result :=
  {| r_error := Some msg; r_inputs := None; r_warnings := None; r_angle := None;
     r_steps := None; r_ladder_length := None; r_footprint := None;
     r_feasibility := None; r_suggestions := None; r_parts := None |}.

(** [round(x, 2) if x else None] *)
Definition round2_if (x : option Q) : option Q :=
  match x with
  | Some v => if truthy v then Some (round2 v) else None
  | None => None
  end.

Definition calculate_all
    (height length : Q) (width angle step_height step_width : option Q)
    (ladder_type : Z) : res result :=
  let validation_error := validate_inputs height length width in
  if negb (String.eqb validation_error EmptyString)
  then ret (error_only validation_error)
  else
  let r_inputs' :=
    {| in_height := height; in_length := length; in_width := width;
       in_angle := angle; in_step_height := step_height;
       in_step_width := step_width; in_ladder_type := ladder_type |} in
  let '(calculated_angle, angle_msg) := calculate_angle height length angle in
  let r_angle' :=
    {| angle_value := calculated_angle;
       angle_message := angle_msg;
       angle_status := check_angle calculated_angle |} in
  sr <- calculate_steps height length step_height step_width ;;
  let '(steps, steps_msg, actual_height, actual_width) := sr in
  match steps with
  | None =>
      suggestions <- suggest_optimal_parameters height length width ;;
      ret {| r_error := Some steps_msg;
             r_inputs := Some r_inputs';
             r_warnings := Some [];
             r_angle := Some r_angle';
             r_steps := None; r_ladder_length := None; r_footprint := None;
             r_feasibility := None;
             r_suggestions := Some suggestions;
             r_parts := None |}
  | Some steps =>
      let r_steps' :=
        {| steps_count := steps;
           steps_message := steps_msg;
           steps_actual_height := round2_if actual_height;
           steps_actual_width := round2_if actual_width |} in
      let '(ladder_length, length_msg) :=
        calculate_length height length calculated_angle in
      let r_ladder_length' :=
        {| length_value := ladder_length; length_message := length_msg |} in
      let '(r_footprint', horizontal_projection) :=
        match actual_width with
        | Some w =>
            if negb (steps =? 0)%Z && truthy w
            then
              let footprint := calculate_ladder_footprint steps w ladder_type in
              (Some footprint,
               match fp_horizontal_projection footprint with
               | Some p => p
               | None => 0
               end)
            else (None, 0)
        | None => (None, 0)
        end in
      let feasibility :=
        check_installation_feasibility
          height length width (Some (or_zero calculated_angle)) (Some steps)
          (Some (or_zero actual_width)) (Some (or_zero actual_height))
          horizontal_projection in
      r_suggestions' <-
        (if negb (possible feasibility)
         then s <- suggest_optimal_parameters height length width ;; ret (Some s)
         else ret None) ;;
      let parts := calculate_parts steps ladder_type in
      ret {| r_error := None;
             r_inputs := Some r_inputs';
             r_warnings := Some [];
             r_angle := Some r_angle';
             r_steps := Some r_steps';
             r_ladder_length := Some r_ladder_length';
             r_footprint := r_footprint';
             r_feasibility := Some feasibility;
             r_suggestions := r_suggestions';
             r_parts := Some parts |}
  end.

End LadderCalculator.

Import LadderCalculator.

(** ** [LadderCalculator.format_result]: the text of a result

    The text is kept as the list of the pieces the f-strings put together:
    literal text, numbers as they are handed to the formatting, and the few
    library calls on strings.  A subscript on a missing key raises
    [KeyError]. *)

Module Rendering.

Inductive piece : Type :=
| Str (s : string)      (* literal text, or a string value interpolated *)
| Flt (q : Q)           (* a float interpolated *)
| Int (z : Z)           (* an int interpolated *)
| Opt (o : option Q)    (* an optional float interpolated: the number or None *)
| Txt (t : text)        (* a message built by an f-string earlier *)
| Cap (s : string).     (* [s.capitalize()] *)

Inductive outcome : Type :=
| Rendered (t : list piece)
| KeyError (key : string).

(** [d[key]] followed by the rest of the method. *)
Definition subscript {A : Type} (key : string) (o : option A) (k : A -> outcome)
  : outcome :=
  match o with
  | Some a => k a
  | None => KeyError key
  end.

(** The line feed of the f-strings. *)
Definition nl : piece := Str (String (Ascii.ascii_of_nat 10) EmptyString).

(** ["=" * 30] *)
Definition rule : piece := Str "==============================".

(** The lines of the standard option; they end on the length of the opening,
    read from [result['inputs']]. *)
Definition standard_lines (result : result) (std : variant) : outcome :=
  subscript "note" (v_note std) (fun note =>
  subscript "inputs" (r_inputs result) (fun inputs =>
  Rendered
    [Str "✅ "; Str note; nl;
     Str "  "; Int (v_steps std); Str " ступеней"; nl;
     Str "  Высота: "; Flt (v_height std); Str " см, Ширина: "; Flt (v_width std);
     Str " см"; nl;
     Str "  Займет: "; Flt (v_projection std); Str " см из доступных ";
     Flt (in_length inputs); Str " см"; nl])).

(** The lines of the best or of the minimum option, under their heading. *)
Definition option_lines (heading : string) (v : variant) : list piece :=
  [Str heading; nl;
   Str "  "; Int (v_steps v); Str " ступеней"; nl;
   Str "  Высота: "; Flt (v_height v); Str " см, Ширина: "; Flt (v_width v);
   Str " см"; nl;
   Str "  Займет: "; Flt (v_projection v); Str " см"; nl].

(** [if "best_option" in suggestions: ... elif "minimum_option" in suggestions: ...] *)
Definition alternative_lines (suggestions : suggestions) : list piece :=
  match best_option suggestions with
  | Some best => option_lines "🔧 Альтернативный вариант:" best
  | None =>
      match minimum_option suggestions with
      | Some min_opt => option_lines "🔻 Минимальные параметры:" min_opt
      | None => []
      end
  end.

(** The options of the suggestions, as both branches of the method list
    them. *)
Definition options_lines (result : result) (suggestions : suggestions) : outcome :=
  match standard_option suggestions with
  | Some std =>
      match standard_lines result std with
      | Rendered lines => Rendered (lines ++ alternative_lines suggestions)
      | KeyError key => KeyError key
      end
  | None => Rendered (alternative_lines suggestions)
  end.

(** [parts.items()], in the order of insertion. *)
Definition parts_items (p : parts) : list (string * Z) :=
  [("ступени"%string, treads p);
   ("подступенки"%string, risers p);
   ("косоуры"%string, stringers p);
   ("балясины"%string, balusters p);
   ("поручни"%string, handrails p);
   ("площадки"%string, landings p);
   ("поворотные ступени"%string, winder_treads p)].

(** [for part, count in parts.items(): if count > 0: ...] *)
Definition parts_lines (p : parts) : list piece :=
  flat_map (fun item : string * Z =>
              let (part, count) := item in
              if (0 <? count)%Z
              then [Str "- "; Cap part; Str ": "; Int count; Str " шт."; nl]
              else [])
           (parts_items p).

(** The verdict with the issues and the warnings. *)
Definition feasibility_lines (f : feasibility) : list piece :=
  [Str "✅ ВОЗМОЖНОСТЬ УСТАНОВКИ:"; nl]
  ++ (if possible f
      then [Str "✅ Лестница может быть установлена"; nl]
      else [Str "❌ Лестница не может быть установлена"; nl]
           ++ match issues f with
              | [] => []
              | _ => [Str "Проблемы:"; nl]
                     ++ flat_map (fun issue => [Str "  • "; Txt issue; nl]) (issues f)
              end)
  ++ match warnings f with
     | [] => []
     | _ => [Str "Предупреждения:"; nl]
            ++ flat_map (fun warning => [Str "  • "; Str warning; nl]) (warnings f)
     end.

Definition inputs_lines (inputs : inputs) : list piece :=
  [Str "📈 ВХОДНЫЕ ДАННЫЕ:"; nl;
   Str "Высота подъема: "; Flt (in_height inputs); Str " см"; nl;
   Str "Длина проема: "; Flt (in_length inputs); Str " см"; nl]
  ++ (if truthy (or_zero (in_width inputs))
      then [Str "Ширина проема: "; Opt (in_width inputs); Str " см"; nl]
      else [])
  ++ (if truthy (or_zero (in_angle inputs))
      then [Str "Угол наклона: "; Opt (in_angle inputs); Str "°"; nl]
      else [])
  ++ [nl].

Definition angle_lines (angle_data : angle_info) : list piece :=
  [Str "📐 УГОЛ НАКЛОНА:"; nl;
   Str "Рассчитанный угол: "; Opt (angle_value angle_data); Str "°"; nl;
   Str "Статус: "; Str (angle_status angle_data); nl;
   nl].

Definition steps_lines (steps_data : steps_info) : list piece :=
  [Str "🪜 СТУПЕНИ:"; nl;
   Str "Количество ступеней: "; Int (steps_count steps_data); nl]
  ++ (if truthy (or_zero (steps_actual_height steps_data))
      then [Str "Высота подступенка: "; Opt (steps_actual_height steps_data);
            Str " см"; nl]
      else [])
  ++ (if truthy (or_zero (steps_actual_width steps_data))
      then [Str "Ширина ступени: "; Opt (steps_actual_width steps_data);
            Str " см"; nl]
      else [])
  ++ [Str (steps_message steps_data); nl; nl].

Definition length_lines (length_data : length_info) : list piece :=
  [Str "📏 ДЛИНА ЛЕСТНИЦЫ:"; nl;
   Opt (length_value length_data); Str " см"; nl;
   Str (length_message length_data); nl;
   nl].

Definition format_result (result : result) : outcome :=
  match r_error result with
  | Some error =>
      let text := [Str "❌ Ошибка: "; Str error; nl] in
      match r_suggestions result with
      | Some suggestions =>
          let text := text ++ [nl; Str "💡 РЕКОМЕНДАЦИИ:"; nl] in
          match options_lines result suggestions with
          | Rendered lines => Rendered (text ++ lines)
          | KeyError key => KeyError key
          end
      | None => Rendered text
      end
  | None =>
      let text := [Str "📊 РАСЧЕТ ЛЕСТНИЦЫ"; nl; rule; nl] in
      subscript "inputs" (r_inputs result) (fun inputs =>
      let text := text ++ inputs_lines inputs in
      subscript "angle" (r_angle result) (fun angle_data =>
      let text := text ++ angle_lines angle_data in
      subscript "steps" (r_steps result) (fun steps_data =>
      let text := text ++ steps_lines steps_data in
      subscript "feasibility" (r_feasibility result) (fun feasibility =>
      let text := text ++ feasibility_lines feasibility in
      match
        match r_suggestions result with
        | Some suggestions =>
            match options_lines result suggestions with
            | Rendered lines =>
                Rendered ([nl; Str "💡 РЕКОМЕНДАЦИИ:"; nl;
                           Str (message suggestions); nl] ++ lines)
            | KeyError key => KeyError key
            end
        | None => Rendered []
        end
      with
      | KeyError key => KeyError key
      | Rendered lines =>
          let text := text ++ lines ++ [nl] in
          let text :=
            match r_ladder_length result with
            | Some length_data => text ++ length_lines length_data
            | None => text
            end in
          let text :=
            match r_parts result with
            | Some parts => text ++ [Str "🔨 НЕОБХОДИМЫЕ ДЕТАЛИ:"; nl] ++ parts_lines parts
            | None => text
            end in
          Rendered text
      end))))
  end.

End Rendering.

(** ** Python floats as they are: IEEE 754 binary64 *)

Module Binary64.

Import Floats.

(** Mode 1 of [calculate_steps] on floats: [actual_height = height / steps],
    and the rise the steps add up to, [actual_height * steps]. *)
Definition redistributed_rise (height steps : float) : float :=
  PrimFloat.mul (PrimFloat.div height steps) steps.

(** [x == y] on floats. *)
Definition same (x y : float) : bool := PrimFloat.eqb x y.

(** [float(n)] for a small natural number. *)
Definition of_int (n : Z) : float := PrimFloat.of_uint63 (Uint63.of_Z n).

(** [math.pi] *)
Definition pi : float := 0x1.921fb54442d18p+1%float.

(** [math.radians(x)]: the product by the constant [pi / 180]. *)
Definition radians (x : float) : float :=
  PrimFloat.mul x (PrimFloat.div pi (of_int 180)).

(** The rational a finite float stands for. *)
Definition to_Q (x : float) : option Q :=
  match FloatOps.Prim2SF x with
  | SpecFloat.S754_zero _ => Some 0
  | SpecFloat.S754_finite s m e =>
      Some ((if s then - inject_Z (Z.pos m) else inject_Z (Z.pos m)) * Qpower 2 e)
  | _ => None
  end.

(** [x / y] on floats. *)
Definition div (x y : float) : float := PrimFloat.div x y.

(** The float quotient [x / y] is the double nearest to the exact quotient,
    as [nearest_float] finds it. *)
Definition division_agrees (x y : float) : bool :=
  match to_Q (div x y), to_Q x, to_Q y with
  | Some q, Some a, Some b => Qeq_bool (nearest_float (a / b)) q
  | _, _, _ => false
  end.

(** A height and a riser whose float quotient is exactly 2.5: the doubles
    printed as 40.000000000000028 and 16.000000000000011. *)
Definition height_on_a_half : float := 0x1.4000000000004p+5%float.
Definition riser_on_a_half : float := 0x1.0000000000003p+4%float.
Definition five_halves : float := 0x1.4p+1%float.

(** Pairs of floats to divide: ordinary heights by risers, a quotient on a
    tie, quotients in the subnormal range (ties included), a large and a
    negative dividend. *)
Definition division_samples : list (float * float) :=
  [ (height_on_a_half, riser_on_a_half);
    (0x1.0ep+8, 0x1.24ccccccccccdp+4);
    (0x1.f3fffffffffffp+8, 0x1.e000000000001p+3);
    (0x1p+0, 0x1.8p+1);
    (0x1.4p+2, 0x1.4p+4);
    (0x0.00000000007e8p-1022, 0x1.24ccccccccccdp+4);
    (0x0.012688b70e62bp-1022, 0x1.e99999999999ap+3);
    (0x0.0000000000001p-1022, 0x1.e99999999999ap+3);
    (0x0.0000000000001p-1022, 0x1p+1);
    (0x0.0000000000003p-1022, 0x1p+1);
    (0x1.7e43c8800759cp+996, 0x1.84ccccccccccdp+4);
    (-0x1.f147ae147ae14p+2, 0x1.84ccccccccccdp+4);
    (0x0p+0, 0x1.1p+4) ]%float.

End Binary64.

(** ** Vocabulary of the properties *)

(** A hard check of the feasibility stage is violated by the arguments. *)
Definition hard_violation
    (length : Q) (width angle : option Q) (steps : option Z)
    (step_width step_height : option Q) (horizontal_projection : Q) : Prop :=
  (exists a, angle = Some a /\ (a < 30 \/ 45 < a))
  \/ (exists h, step_height = Some h /\ (h < 15 \/ 25 < h))
  \/ (exists w, step_width = Some w /\ w < 25)
  \/ (exists n, steps = Some n /\ (n < 3 \/ 25 < n)%Z)
  \/ (exists w, width = Some w /\ w < 80)
  \/ length < horizontal_projection.

(** The raw input validation accepts the opening. *)
Definition accepted (height length : Q) (width : option Q) : Prop :=
  0 < height /\ height <= 500 /\ 0 < length /\ length <= 1000
  /\ (forall w, width = Some w -> 80 <= w).

(** The riser a resolution of modes 2 to 4 returns: the supplied one, the
    standard one when only a tread is supplied. *)
Definition kept_riser (step_height : option Q) : Q :=
  match step_height with
  | Some r => r
  | None => standard_step_height
  end.

(** The tread a resolution of modes 2 to 4 returns: the supplied one, the
    standard one when only a riser is supplied. *)
Definition kept_tread (step_width : option Q) : Q :=
  match step_width with
  | Some w => w
  | None => standard_step_width
  end.

(** The quotient [steps = height / riser] of modes 2 to 4, before [round]: by
    a supplied riser it is the float the division returns. *)
Definition riser_quotient (height : Q) (step_height : option Q) : Q :=
  match step_height with
  | Some r => nearest_float (height / r)
  | None => height / standard_step_height
  end.

(** The claim's candidate of the best-option search, in the words of the
    specification: with the tread fixed at 30, a step count whose riser
    [height / stepCount] lies in [15, 25] and whose projection
    [(stepCount - 1) * 30] fits the available length. *)
Definition spec_eligible (height available_length : Q) (n : Z) : bool :=
  Qle_bool 15 (height / inject_Z n) && Qle_bool (height / inject_Z n) 25
  && Qle_bool (inject_Z (n - 1) * 30) available_length.

(** The claim's best candidate: the eligible step count of [3, 25] that no
    other eligible one exceeds. *)
Definition spec_best (height available_length : Q) (n : Z) : Prop :=
  (3 <= n <= 25)%Z
  /\ spec_eligible height available_length n = true
  /\ forall k, (3 <= k <= 25)%Z ->
               spec_eligible height available_length k = true -> (k <= n)%Z.

(** The dict the search loop stores for a step count. *)
Definition best_params_of (height : Q) (steps : Z) : variant :=
  {| v_note := None;
     v_steps := steps;
     v_height := round2 (height / inject_Z steps);
     v_width := standard_step_width;
     v_projection := round2 (inject_Z (steps - 1) * standard_step_width);
     v_will_fit := None |}.

(** The dict of the standard option for a height. *)
Definition standard_params_of (height : Q) : variant :=
  let std_steps := round (height / standard_step_height) in
  {| v_note := Some "Рекомендуемый стандартный вариант"%string;
     v_steps := std_steps;
     v_height := round2 (height / inject_Z std_steps);
     v_width := standard_step_width;
     v_projection := round2 (inject_Z (std_steps - 1) * standard_step_width);
     v_will_fit := Some true |}.

(** The dict of the minimum option for a height. *)
Definition minimum_params_of (height : Q) : variant :=
  let min_steps := Z.max 3 (round (height / max_step_height)) in
  {| v_note := None;
     v_steps := min_steps;
     v_height := round2 (height / inject_Z min_steps);
     v_width := standard_step_width;
     v_projection := round2 (inject_Z (min_steps - 1) * standard_step_width);
     v_will_fit := None |}.

(** The test of the standard option: its projection fits and its riser is in
    range. *)
Definition standard_fits (height available_length : Q) : bool :=
  let std_steps := round (height / standard_step_height) in
  Qle_bool (inject_Z (std_steps - 1) * standard_step_width) available_length
  && (Qle_bool min_step_height (height / inject_Z std_steps)
      && Qle_bool (height / inject_Z std_steps) max_step_height).

(** The entry [result["inputs"]] of an accepted call. *)
Definition inputs_of
    (height length : Q) (width angle step_height step_width : option Q)
    (ladder_type : Z) : inputs :=
  {| in_height := height; in_length := length; in_width := width;
     in_angle := angle; in_step_height := step_height;
     in_step_width := step_width; in_ladder_type := ladder_type |}.

(** The entry [result["angle"]] of an accepted call. *)
Definition angle_info_of (height length : Q) (angle : option Q) : angle_info :=
  {| angle_value := fst (calculate_angle height length angle);
     angle_message := snd (calculate_angle height length angle);
     angle_status := check_angle (fst (calculate_angle height length angle)) |}.

(** The entry [result["ladder_length"]] of a call that resolved its steps. *)
Definition length_info_of (height length : Q) (angle : option Q) : length_info :=
  let calculated_angle := fst (calculate_angle height length angle) in
  {| length_value := fst (calculate_length height length calculated_angle);
     length_message := snd (calculate_length height length calculated_angle) |}.

(** The result returned when the step resolution reports a failure. *)
Definition early_failure
    (height length : Q) (width angle step_height step_width : option Q)
    (ladder_type : Z) (steps_msg : string) (s : suggestions) : result :=
  {| r_error := Some steps_msg;
     r_inputs := Some (inputs_of height length width angle step_height step_width
                         ladder_type);
     r_warnings := Some [];
     r_angle := Some (angle_info_of height length angle);
     r_steps := None;
     r_ladder_length := None;
     r_footprint := None;
     r_feasibility := None;
     r_suggestions := Some s;
     r_parts := None |}.

(** The result returned when the steps were resolved. *)
Definition full_result
    (height length : Q) (width angle step_height step_width : option Q)
    (ladder_type : Z) (n : Z) (steps_msg : string) (ah aw : option Q)
    (fp : option footprint) (f : feasibility) (sg : option suggestions) : result :=
  {| r_error := None;
     r_inputs := Some (inputs_of height length width angle step_height step_width
                         ladder_type);
     r_warnings := Some [];
     r_angle := Some (angle_info_of height length angle);
     r_steps := Some {| steps_count := n;
                        steps_message := steps_msg;
                        steps_actual_height := round2_if ah;
                        steps_actual_width := round2_if aw |};
     r_ladder_length := Some (length_info_of height length angle);
     r_footprint := fp;
     r_feasibility := Some f;
     r_suggestions := sg;
     r_parts := Some (calculate_parts n ladder_type) |}.

(** An issue of the report with the reason the source gives for it. *)
Definition justified
    (length : Q) (width angle : option Q) (steps : option Z)
    (step_width step_height : option Q) (horizontal_projection : Q)
    (x : text) : Prop :=
  (x = issue_no_steps /\ (steps = None \/ steps = Some 0%Z))
  \/ (x = issue_no_step_params
      /\ (step_width = None \/ step_height = None
          \/ (exists w, step_width = Some w /\ w <= 0)
          \/ (exists r, step_height = Some r /\ r <= 0)))
  \/ (x = issue_angle_undefined /\ angle = None)
  \/ (exists a, x = issue_angle_range a /\ angle = Some a /\ (a < 30 \/ 45 < a))
  \/ (exists r, x = issue_riser_low r /\ step_height = Some r /\ r < 15)
  \/ (exists r, x = issue_riser_high r /\ step_height = Some r /\ 25 < r)
  \/ (exists w, x = issue_tread_narrow w /\ step_width = Some w /\ w < 25)
  \/ (x = issue_few_steps /\ exists n, steps = Some n /\ (n < 3)%Z)
  \/ (x = issue_many_steps /\ exists n, steps = Some n /\ (25 < n)%Z)
  \/ (exists w, x = issue_opening_width w /\ width = Some w /\ w < 80)
  \/ (x = issue_too_long horizontal_projection length
      /\ length < horizontal_projection).

(** The entry [result["footprint"]] for a resolved step count and tread: set
    only when both are truthy. *)
Definition footprint_entry (n : Z) (aw : option Q) (t : Z) : option footprint :=
  match aw with
  | Some w =>
      if negb (n =? 0)%Z && truthy w
      then Some (calculate_ladder_footprint n w t)
      else None
  | None => None
  end.

(** The projection handed to the feasibility stage:
    [footprint.get("horizontal_projection", 0)], or 0 without a footprint. *)
Definition projection_entry (fp : option footprint) : Q :=
  match fp with
  | Some footprint =>
      match fp_horizontal_projection footprint with
      | Some p => p
      | None => 0
      end
  | None => 0
  end.

(** The report of an accepted call that resolved [n] steps. *)
Definition report_of
    (height length : Q) (width angle : option Q) (t : Z)
    (n : Z) (ah aw : option Q) : feasibility :=
  check_installation_feasibility height length width
    (Some (or_zero (fst (calculate_angle height length angle)))) (Some n)
    (Some (or_zero aw)) (Some (or_zero ah))
    (projection_entry (footprint_entry n aw t)).

(** The report keeps [possible] and [issues] in step. *)
Definition coherent (f : feasibility) : Prop :=
  possible f = true <-> issues f = [].

(** ** Python's rounding *)

Section Rounding.

Lemma inject_Z_succ (n : Z) : inject_Z (n + 1) == inject_Z n + 1.
Proof. rewrite inject_Z_plus. reflexivity. Qed.

Lemma even_plus_one (n : Z) : Z.even (n + 1) = negb (Z.even n).
Proof. rewrite Z.add_1_r, Z.even_succ, <- Z.negb_even. reflexivity. Qed.

(** [round] moves its argument by at most one half. *)
Lemma round_bounds (x : Q) :
  inject_Z (round x) - (1 # 2) <= x /\ x <= inject_Z (round x) + (1 # 2).
Proof.
  unfold round.
  pose proof (Qfloor_le x) as Hlo.
  pose proof (Qlt_floor x) as Hhi.
  rewrite inject_Z_succ in Hhi.
  destruct (Qcompare_spec (x - inject_Z (Qfloor x)) (1 # 2)) as [He | Hl | Hg].
  - destruct (Z.even (Qfloor x)); rewrite ?inject_Z_succ; lra.
  - lra.
  - rewrite inject_Z_succ. lra.
Qed.

(** A tie is resolved to the even neighbour. *)
Lemma round_tie (x : Q) :
  x == inject_Z (round x) + (1 # 2) \/ x == inject_Z (round x) - (1 # 2) ->
  Z.even (round x) = true.
Proof.
  unfold round.
  pose proof (Qfloor_le x) as Hlo.
  pose proof (Qlt_floor x) as Hhi.
  rewrite inject_Z_succ in Hhi.
  destruct (Qcompare_spec (x - inject_Z (Qfloor x)) (1 # 2)) as [He | Hl | Hg].
  - destruct (Z.even (Qfloor x)) eqn:Ev; intros _.
    + exact Ev.
    + rewrite even_plus_one, Ev. reflexivity.
  - intros [H | H]; lra.
  - rewrite inject_Z_succ. intros [H | H]; lra.
Qed.

Lemma inject_Z_le_succ (n m : Z) : (n < m)%Z -> inject_Z n + 1 <= inject_Z m.
Proof.
  intros H. rewrite <- inject_Z_succ. rewrite <- Zle_Qle. lia.
Qed.

(** The integer strictly within one half of [x] is its rounding. *)
Lemma round_unique (x : Q) (n : Z) :
  inject_Z n - (1 # 2) < x -> x < inject_Z n + (1 # 2) -> round x = n.
Proof.
  intros Hlo Hhi.
  destruct (round_bounds x) as [Blo Bhi].
  destruct (Z.lt_trichotomy (round x) n) as [Hlt | [Heq | Hgt]].
  - apply inject_Z_le_succ in Hlt. lra.
  - exact Heq.
  - apply inject_Z_le_succ in Hgt. lra.
Qed.

(** [round] is monotone. *)
Lemma round_monotone (x y : Q) : x <= y -> (round x <= round y)%Z.
Proof.
  intros Hxy.
  destruct (Z.le_gt_cases (round x) (round y)) as [Hle | Hgt]; [exact Hle | exfalso].
  destruct (round_bounds x) as [Xlo Xhi].
  destruct (round_bounds y) as [Ylo Yhi].
  pose proof (inject_Z_le_succ _ _ Hgt) as Hq.
  assert (Tx : Z.even (round x) = true) by (apply round_tie; right; lra).
  assert (Ty : Z.even (round y) = true) by (apply round_tie; left; lra).
  assert (Hstep : (round x <= round y + 1)%Z).
  { rewrite Zle_Qle, inject_Z_succ. lra. }
  assert (Heq : round x = (round y + 1)%Z) by lia.
  rewrite Heq, even_plus_one, Ty in Tx. discriminate.
Qed.

(** [round(x, 2)] is monotone. *)
Lemma round2_monotone (x y : Q) : x <= y -> round2 x <= round2 y.
Proof.
  intros Hxy. unfold round2.
  assert (H : (round (x * 100) <= round (y * 100))%Z)
    by (apply round_monotone; lra).
  rewrite Zle_Qle in H. unfold Qdiv.
  apply Qmult_le_compat_r; [exact H | discriminate].
Qed.

(** A positive argument above one half rounds to a positive integer. *)
Lemma round_pos (x : Q) : (1 # 2) < x -> (1 <= round x)%Z.
Proof.
  intros Hx.
  destruct (round_bounds x) as [_ Bhi].
  destruct (Z.le_gt_cases 1 (round x)) as [H | H]; [exact H | exfalso].
  assert (Hz : (round x + 1 <= 1)%Z) by lia.
  rewrite Zle_Qle, inject_Z_succ in Hz. change (inject_Z 1) with 1 in Hz. lra.
Qed.

(** An argument in [0, 1/2] rounds to zero. *)
Lemma round_zero (x : Q) : 0 <= x -> x <= (1 # 2) -> round x = 0%Z.
Proof.
  intros H0 Hh.
  destruct (Qle_lt_or_eq _ _ Hh) as [Hlt | Heq].
  - apply round_unique; change (inject_Z 0) with 0; lra.
  - destruct (round_bounds x) as [Blo Bhi].
    assert (Hr : (0 <= round x <= 1)%Z).
    { split.
      - destruct (Z.le_gt_cases 0 (round x)) as [H | H]; [exact H | exfalso].
        apply inject_Z_le_succ in H. change (inject_Z 0) with 0 in H. lra.
      - destruct (Z.le_gt_cases (round x) 1) as [H | H]; [exact H | exfalso].
        apply inject_Z_le_succ in H. change (inject_Z 1) with 1 in H. lra. }
    assert (Hc : round x = 0%Z \/ round x = 1%Z) by lia.
    destruct Hc as [Hc | Hc]; [exact Hc | exfalso].
    assert (Ev : Z.even (round x) = true).
    { apply round_tie. right. rewrite Hc. change (inject_Z 1) with 1. lra. }
    rewrite Hc in Ev. discriminate.
Qed.

End Rounding.

(** ** Boolean comparisons *)

Lemma Qlt_bool_iff (x y : Q) : Qlt_bool x y = true <-> x < y.
Proof.
  unfold Qlt_bool. rewrite negb_true_iff.
  split; intros H.
  - apply Qnot_le_lt. intros Hle. apply Qle_bool_iff in Hle. congruence.
  - destruct (Qle_bool y x) eqn:E; [| reflexivity].
    apply Qle_bool_iff in E. lra.
Qed.

Lemma Qlt_bool_false_iff (x y : Q) : Qlt_bool x y = false <-> y <= x.
Proof.
  unfold Qlt_bool. rewrite negb_false_iff. apply Qle_bool_iff.
Qed.

Lemma Qle_bool_false_iff (x y : Q) : Qle_bool x y = false <-> y < x.
Proof.
  rewrite <- Qlt_bool_iff. unfold Qlt_bool.
  destruct (Qle_bool x y); simpl; split; congruence.
Qed.

(** Turn every boolean comparison among the hypotheses into its proposition. *)
Ltac reflect_cmp :=
  repeat match goal with
    | H : Qle_bool _ _ = true |- _ => apply Qle_bool_iff in H
    | H : Qle_bool _ _ = false |- _ => apply Qle_bool_false_iff in H
    | H : Qlt_bool _ _ = true |- _ => apply Qlt_bool_iff in H
    | H : Qlt_bool _ _ = false |- _ => apply Qlt_bool_false_iff in H
    | H : Qeq_bool _ _ = true |- _ => apply Qeq_bool_iff in H
    | H : Qeq_bool _ _ = false |- _ => apply Qeq_bool_neq in H
    | H : (_ =? _)%Z = true |- _ => apply Z.eqb_eq in H
    | H : (_ =? _)%Z = false |- _ => apply Z.eqb_neq in H
    | H : (_ <? _)%Z = true |- _ => apply Z.ltb_lt in H
    | H : (_ <? _)%Z = false |- _ => apply Z.ltb_ge in H
    | H : (_ <=? _)%Z = true |- _ => apply Z.leb_le in H
    | H : (_ <=? _)%Z = false |- _ => apply Z.leb_gt in H
    | H : _ && _ = true |- _ => apply andb_true_iff in H; destruct H
    | H : _ || _ = false |- _ => apply orb_false_iff in H; destruct H
    end.

(** ** Rounding to the nearest double *)

Lemma round_comp (x y : Q) : x == y -> round x = round y.
Proof.
  intros H. unfold round. rewrite (Qfloor_comp _ _ H), H. reflexivity.
Qed.

Lemma round_inject_Z (n : Z) : round (inject_Z n) = n.
Proof. apply round_unique; lra. Qed.

Section Binary64Rounding.

Lemma pow2_pos (e : Z) : 0 < 2 ^ e.
Proof. apply Qpower_0_lt. reflexivity. Qed.

Lemma pow2_inject (k : Z) : (0 <= k)%Z -> 2 ^ k == inject_Z (2 ^ k).
Proof. intros Hk. rewrite Zpower_Qpower by exact Hk. reflexivity. Qed.

Lemma pow2_plus (a b : Z) : 2 ^ (a + b) == 2 ^ a * 2 ^ b.
Proof. apply Qpower_plus. discriminate. Qed.

Lemma pow2_le (a b : Z) : (a <= b)%Z -> 2 ^ a <= 2 ^ b.
Proof. intros H. apply Qpower_le_compat_l; [exact H | discriminate]. Qed.

Lemma pow2_lt (a b : Z) : (a < b)%Z -> 2 ^ a < 2 ^ b.
Proof. intros H. apply Qpower_lt_compat_l; [exact H | reflexivity]. Qed.

Lemma pow2_lt_inv (a b : Z) : 2 ^ a < 2 ^ b -> (a < b)%Z.
Proof. intros H. apply (Qpower_lt_compat_l_inv 2); [exact H | reflexivity]. Qed.

(** A quotient of integers against a quotient of powers of two. *)
Lemma below_pow2 (x : Q) (a b : Z) :
  (0 <= a)%Z -> (0 <= b)%Z ->
  (Qnum x * 2 ^ b < 2 ^ a * Zpos (Qden x))%Z -> x < 2 ^ (a - b).
Proof.
  intros Ha Hb H.
  assert (Hp : 0 < 2 ^ b) by apply pow2_pos.
  assert (E : 2 ^ a == 2 ^ (a - b) * 2 ^ b).
  { rewrite <- pow2_plus. replace (a - b + b)%Z with a by lia. reflexivity. }
  assert (Hx : x * 2 ^ b < 2 ^ a).
  { rewrite (pow2_inject a Ha), (pow2_inject b Hb).
    unfold Qlt, Qmult, inject_Z. cbn [Qnum Qden].
    rewrite Pos.mul_1_r, Z.mul_1_r. exact H. }
  rewrite E in Hx. apply Qmult_lt_r in Hx; assumption.
Qed.

Lemma above_pow2 (x : Q) (a b : Z) :
  (0 <= a)%Z -> (0 <= b)%Z ->
  (2 ^ a * Zpos (Qden x) <= Qnum x * 2 ^ b)%Z -> 2 ^ (a - b) <= x.
Proof.
  intros Ha Hb H.
  assert (Hp : 0 < 2 ^ b) by apply pow2_pos.
  assert (E : 2 ^ a == 2 ^ (a - b) * 2 ^ b).
  { rewrite <- pow2_plus. replace (a - b + b)%Z with a by lia. reflexivity. }
  assert (Hx : 2 ^ a <= x * 2 ^ b).
  { rewrite (pow2_inject a Ha), (pow2_inject b Hb).
    unfold Qle, Qmult, inject_Z. cbn [Qnum Qden].
    rewrite Pos.mul_1_r, Z.mul_1_r. exact H. }
  rewrite E in Hx. apply Qmult_le_r in Hx; assumption.
Qed.

Lemma exponent_spec (x : Q) :
  0 < x -> 2 ^ exponent x <= x /\ x < 2 ^ (exponent x + 1).
Proof.
  intros Hx. unfold exponent. cbv zeta.
  assert (Hn : (0 < Qnum x)%Z).
  { unfold Qlt in Hx. cbn in Hx. lia. }
  pose proof (Z.log2_spec _ Hn) as [Nlo Nhi].
  pose proof (Z.log2_spec (Zpos (Qden x)) (Pos2Z.is_pos _)) as [Dlo Dhi].
  pose proof (Z.log2_nonneg (Qnum x)) as Ha.
  pose proof (Z.log2_nonneg (Zpos (Qden x))) as Hb.
  set (a := Z.log2 (Qnum x)) in *. set (b := Z.log2 (Zpos (Qden x))) in *.
  assert (Pa : (0 < 2 ^ a)%Z) by (apply Z.pow_pos_nonneg; lia).
  assert (Pb : (0 < 2 ^ b)%Z) by (apply Z.pow_pos_nonneg; lia).
  assert (Hhi : x < 2 ^ (a - b + 1)).
  { replace (a - b + 1)%Z with (Z.succ a - b)%Z by lia.
    apply below_pow2; try lia. nia. }
  assert (Hlo : 2 ^ (a - b - 1) <= x).
  { replace (a - b - 1)%Z with (a - Z.succ b)%Z by lia.
    apply above_pow2; try lia. nia. }
  destruct (Qle_bool (2 ^ (a - b)) x) eqn:E.
  - apply Qle_bool_iff in E. split; assumption.
  - apply Qle_bool_false_iff in E. split; [exact Hlo |].
    replace (a - b - 1 + 1)%Z with (a - b)%Z by lia. exact E.
Qed.

Lemma exponent_upper (x : Q) (k : Z) : 0 < x -> x < 2 ^ (k + 1) -> (exponent x <= k)%Z.
Proof.
  intros Hx Hk. destruct (exponent_spec x Hx) as [Hlo _].
  assert (H : 2 ^ exponent x < 2 ^ (k + 1)) by lra.
  apply pow2_lt_inv in H. lia.
Qed.

Lemma exponent_lower (x : Q) (k : Z) : 2 ^ k <= x -> (k <= exponent x)%Z.
Proof.
  intros Hk. pose proof (pow2_pos k) as Hp.
  destruct (exponent_spec x) as [_ Hhi]; [lra |].
  assert (H : 2 ^ k < 2 ^ (exponent x + 1)) by lra.
  apply pow2_lt_inv in H. lia.
Qed.

Lemma exponent_unique (x : Q) (k : Z) :
  2 ^ k <= x -> x < 2 ^ (k + 1) -> exponent x = k.
Proof.
  intros Hlo Hhi. pose proof (pow2_pos k) as Hp.
  assert (Hx : 0 < x) by lra.
  pose proof (exponent_upper x k Hx Hhi). pose proof (exponent_lower x k Hlo). lia.
Qed.

Lemma ulp_pos (x : Q) : 0 < ulp x.
Proof. apply pow2_pos. Qed.

Lemma nearest_float_le_grid (x : Q) (n : Z) :
  x <= inject_Z n * ulp x -> nearest_float x <= inject_Z n * ulp x.
Proof.
  intros H. pose proof (ulp_pos x) as Hu. unfold nearest_float.
  apply Qmult_le_compat_r; [| lra].
  rewrite <- Zle_Qle. rewrite <- (round_inject_Z n).
  apply round_monotone. apply Qle_shift_div_r; assumption.
Qed.

Lemma nearest_float_ge_grid (x : Q) (n : Z) :
  inject_Z n * ulp x <= x -> inject_Z n * ulp x <= nearest_float x.
Proof.
  intros H. pose proof (ulp_pos x) as Hu. unfold nearest_float.
  apply Qmult_le_compat_r; [| lra].
  rewrite <- Zle_Qle. rewrite <- (round_inject_Z n) at 1.
  apply round_monotone. apply Qle_shift_div_l; assumption.
Qed.

(** A power of two is a whole multiple of every smaller one. *)
Lemma pow2_multiple (k j : Z) : (j <= k)%Z -> 2 ^ k == inject_Z (2 ^ (k - j)) * 2 ^ j.
Proof.
  intros H. rewrite <- pow2_inject by lia. rewrite <- pow2_plus.
  replace (k - j + j)%Z with k by lia. reflexivity.
Qed.

Lemma Qabs_of_pos (x : Q) : 0 < x -> Qabs x == x.
Proof. intros H. apply Qabs_pos. lra. Qed.

Lemma exponent_comp (x y : Q) : 0 < x -> x == y -> exponent x = exponent y.
Proof.
  intros Hx E.
  assert (Hy : 0 < y) by (rewrite <- E; exact Hx).
  destruct (exponent_spec x Hx) as [Xlo Xhi].
  destruct (exponent_spec y Hy) as [Ylo Yhi].
  assert (H1 : 2 ^ exponent x < 2 ^ (exponent y + 1)) by lra.
  assert (H2 : 2 ^ exponent y < 2 ^ (exponent x + 1)) by lra.
  apply pow2_lt_inv in H1, H2. lia.
Qed.

Lemma ulp_of_pos (x : Q) :
  0 < x -> ulp x = 2 ^ (Z.max (exponent x) (-1022) - 52).
Proof.
  intros H. unfold ulp.
  rewrite (exponent_comp (Qabs x) x); [reflexivity | | apply Qabs_of_pos; exact H].
  rewrite Qabs_of_pos; exact H.
Qed.

Lemma nearest_float_le_pow2 (x : Q) (k : Z) :
  0 < x -> x <= 2 ^ k -> (-1074 <= k)%Z -> nearest_float x <= 2 ^ k.
Proof.
  intros Hx Hk Hmin.
  assert (He : (exponent x <= k)%Z).
  { apply exponent_upper; [exact Hx |].
    pose proof (pow2_lt k (k + 1) ltac:(lia)). lra. }
  pose proof (ulp_of_pos x Hx) as Eu.
  set (j := (Z.max (exponent x) (-1022) - 52)%Z) in *.
  assert (Hj : (j <= k)%Z) by lia.
  rewrite (pow2_multiple k j Hj), <- Eu.
  apply nearest_float_le_grid.
  rewrite Eu, <- (pow2_multiple k j Hj). exact Hk.
Qed.

Lemma nearest_float_ge_pow2 (x : Q) (k : Z) :
  2 ^ k <= x -> (-1074 <= k)%Z -> 2 ^ k <= nearest_float x.
Proof.
  intros Hk Hmin. pose proof (pow2_pos k) as Hp.
  assert (Hx : 0 < x) by lra.
  assert (He : (k <= exponent x)%Z) by (apply exponent_lower; exact Hk).
  destruct (exponent_spec x Hx) as [Hlo _].
  pose proof (ulp_of_pos x Hx) as Eu.
  set (e := exponent x) in *.
  set (j := (Z.max e (-1022) - 52)%Z) in *.
  assert (Hj : (j <= e)%Z) by lia.
  apply Qle_trans with (2 ^ e); [apply pow2_le; exact He |].
  rewrite (pow2_multiple e j Hj), <- Eu.
  apply nearest_float_ge_grid.
  rewrite Eu, <- (pow2_multiple e j Hj). exact Hlo.
Qed.

Lemma nearest_float_zero (x : Q) : x == 0 -> nearest_float x == 0.
Proof.
  intros E. unfold nearest_float.
  assert (Eq : x / ulp x == inject_Z 0).
  { change (inject_Z 0) with 0. unfold Qdiv. nra. }
  rewrite (round_comp _ _ Eq), round_inject_Z. change (inject_Z 0) with 0. ring.
Qed.

Lemma nearest_float_nonneg (x : Q) : 0 <= x -> 0 <= nearest_float x.
Proof.
  intros Hx. pose proof (ulp_pos x) as Hu.
  assert (H : inject_Z 0 * ulp x <= nearest_float x).
  { apply nearest_float_ge_grid. change (inject_Z 0) with 0. lra. }
  change (inject_Z 0) with 0 in H. lra.
Qed.

(** Rounding to the nearest double keeps the order. *)
Lemma nearest_float_monotone (x y : Q) :
  0 <= x -> x <= y -> nearest_float x <= nearest_float y.
Proof.
  intros H0 Hxy.
  destruct (Qle_lt_or_eq _ _ H0) as [Hx | Hx].
  2:{ rewrite (nearest_float_zero x) by (symmetry; exact Hx).
      apply nearest_float_nonneg. lra. }
  assert (Hy : 0 < y) by lra.
  destruct (exponent_spec x Hx) as [Xlo Xhi].
  destruct (exponent_spec y Hy) as [Ylo Yhi].
  assert (Hexp : (exponent x <= exponent y)%Z).
  { apply exponent_upper; [exact Hx | lra]. }
  destruct (Z.eq_dec (Z.max (exponent x) (-1022)) (Z.max (exponent y) (-1022)))
    as [Es | Ns].
  - assert (Eu : ulp x = ulp y).
    { rewrite (ulp_of_pos x Hx), (ulp_of_pos y Hy), Es. reflexivity. }
    unfold nearest_float. rewrite Eu.
    pose proof (ulp_pos y) as Hu.
    apply Qmult_le_compat_r; [| lra].
    rewrite <- Zle_Qle. apply round_monotone.
    unfold Qdiv. apply Qmult_le_compat_r; [exact Hxy |].
    apply Qlt_le_weak, Qinv_lt_0_compat. exact Hu.
  - set (k := (Z.max (exponent x) (-1022) + 1)%Z).
    apply Qle_trans with (2 ^ k).
    + apply nearest_float_le_pow2; [exact Hx | | lia].
      apply Qle_trans with (2 ^ (exponent x + 1)); [lra | apply pow2_le; lia].
    + apply nearest_float_ge_pow2; [| lia].
      apply Qle_trans with (2 ^ exponent y); [apply pow2_le; lia | exact Ylo].
Qed.

(** The rounding error is at most half a unit in the last place. *)
Lemma nearest_float_error (x : Q) :
  - (ulp x / 2) <= nearest_float x - x /\ nearest_float x - x <= ulp x / 2.
Proof.
  pose proof (ulp_pos x) as Hu. unfold nearest_float.
  destruct (round_bounds (x / ulp x)) as [Blo Bhi].
  assert (E : x / ulp x * ulp x == x).
  { rewrite Qmult_comm. apply Qmult_div_r. lra. }
  set (u := ulp x) in *. set (q := x / u) in *.
  set (n := inject_Z (round q)) in *.
  assert (H2 : u / 2 == u * (1 # 2)) by reflexivity.
  split; nra.
Qed.

(** In the normal range the unit in the last place is at most [2 ^ -52] of
    the number. *)
Lemma ulp_relative (x : Q) :
  2 ^ (-1022) <= x -> ulp x <= x * 2 ^ (-52).
Proof.
  intros Hn. pose proof (pow2_pos (-1022)) as Hp.
  assert (Hx : 0 < x) by lra.
  assert (He : (-1022 <= exponent x)%Z) by (apply exponent_lower; exact Hn).
  destruct (exponent_spec x Hx) as [Hlo _].
  rewrite (ulp_of_pos x Hx).
  replace (Z.max (exponent x) (-1022) - 52)%Z with (exponent x + -52)%Z by lia.
  rewrite pow2_plus.
  apply Qmult_le_compat_r; [exact Hlo |].
  apply Qlt_le_weak, pow2_pos.
Qed.

End Binary64Rounding.

(** ** The footprint *)

Lemma flight_monotone (s1 s2 : Z) (w : Q) :
  0 < w -> (s1 <= s2)%Z -> inject_Z (s1 - 1) * w <= inject_Z (s2 - 1) * w.
Proof.
  intros Hw Hs.
  apply Qmult_le_compat_r; [| lra].
  rewrite <- Zle_Qle. lia.
Qed.

Lemma section_steps_monotone (s1 s2 : Z) :
  (s1 <= s2)%Z -> (Z.max 1 (s1 / 2) <= Z.max 1 (s2 / 2))%Z.
Proof.
  intros Hs. apply Z.max_le_compat_l. apply Z.div_le_mono; lia.
Qed.

(** C8: for a fixed positive tread width and any ladder type (1 straight,
    2 U-shaped, 3 L-shaped, anything else the default), the footprint of a
    positive number of steps has a horizontal projection, and the projection
    does not decrease when the number of steps grows. *)
Theorem footprint_projection_monotone (step_width : Q) (ladder_type s1 s2 : Z) :
  0 < step_width -> (0 < s1 <= s2)%Z ->
  exists p1 p2,
    fp_horizontal_projection (calculate_ladder_footprint s1 step_width ladder_type) = Some p1
    /\ fp_horizontal_projection (calculate_ladder_footprint s2 step_width ladder_type) = Some p2
    /\ p1 <= p2.
Proof.
  intros Hw [Hpos Hle].
  unfold calculate_ladder_footprint.
  assert (Ew : Qle_bool step_width 0 = false) by (apply Qle_bool_false_iff; exact Hw).
  assert (E1 : (s1 <=? 0)%Z = false) by (apply Z.leb_gt; lia).
  assert (E2 : (s2 <=? 0)%Z = false) by (apply Z.leb_gt; lia).
  rewrite Ew, E1, E2. cbn [orb].
  pose proof (flight_monotone s1 s2 step_width Hw Hle) as Hf.
  pose proof (section_steps_monotone s1 s2 Hle) as Hsec.
  pose proof (flight_monotone _ _ step_width Hw Hsec) as Hu.
  destruct (ladder_type =? 1)%Z; [| destruct (ladder_type =? 2)%Z;
                                    [| destruct (ladder_type =? 3)%Z]];
    cbn [footprint_of fp_horizontal_projection];
    eexists; eexists; (split; [reflexivity | split; [reflexivity |]]);
    apply round2_monotone; lra.
Qed.

Lemma footprint_projection_monotone_witness :
  exists p1 p2,
    fp_horizontal_projection (calculate_ladder_footprint 13 30 2) = Some p1
    /\ fp_horizontal_projection (calculate_ladder_footprint 14 30 2) = Some p2
    /\ p1 <= p2.
Proof.
  apply (footprint_projection_monotone 30 2 13 14); [reflexivity | lia].
Defined.

(** ** The feasibility report *)

Section Feasibility.

Variables (i : text) (m : string) (f : feasibility).

Lemma coherent_fail : coherent (fail_with i f).
Proof.
  unfold coherent, fail_with; cbn. split; [discriminate |].
  intros H. destruct (issues f); discriminate.
Qed.

Lemma coherent_warn : coherent f -> coherent (warn_with m f).
Proof. unfold coherent, warn_with; cbn. tauto. Qed.

Lemma possible_fail : possible (fail_with i f) = false.
Proof. reflexivity. Qed.

Lemma possible_warn : possible (warn_with m f) = possible f.
Proof. reflexivity. Qed.

End Feasibility.

Create HintDb feasibility.
#[local] Hint Resolve coherent_fail coherent_warn : feasibility.

Lemma coherent_initial : coherent {| possible := true; issues := []; warnings := [] |}.
Proof. unfold coherent; cbn. tauto. Qed.

(** Each stage keeps the report coherent. *)
Lemma coherent_stages (f : feasibility) :
  coherent f ->
  (forall a, coherent (stage_angle a f))
  /\ (forall h, coherent (stage_riser h f))
  /\ (forall w, coherent (stage_tread w f))
  /\ (forall n, coherent (stage_min_steps n f))
  /\ (forall n, coherent (stage_max_steps n f))
  /\ (forall w, coherent (stage_opening_width w f))
  /\ (forall p l, coherent (stage_projection p l f))
  /\ (forall h, coherent (stage_riser_comfort h f))
  /\ (forall w, coherent (stage_tread_comfort w f)).
Proof.
  intros Hf.
  unfold stage_angle, stage_riser, stage_tread, stage_min_steps, stage_max_steps,
    stage_opening_width, stage_projection, stage_riser_comfort, stage_tread_comfort.
  repeat match goal with |- _ /\ _ => split end; intros;
    repeat match goal with
      | |- context [match ?x with _ => _ end] => destruct x
      end; auto with feasibility.
Qed.

(** What each hard check does to [possible]. *)
Lemma possible_stage_angle (a : option Q) (f : feasibility) :
  possible (stage_angle a f)
  = match a with
    | Some v => Qle_bool 30 v && Qle_bool v 45 && possible f
    | None => false
    end.
Proof.
  unfold stage_angle, min_angle, max_angle. destruct a as [v |]; [| reflexivity].
  destruct (Qle_bool 30 v && Qle_bool v 45); reflexivity.
Qed.

Lemma possible_stage_riser (h : Q) (f : feasibility) :
  possible (stage_riser h f) = Qle_bool 15 h && Qle_bool h 25 && possible f.
Proof.
  unfold stage_riser, Qlt_bool, min_step_height, max_step_height.
  destruct (Qle_bool 15 h), (Qle_bool h 25); reflexivity.
Qed.

Lemma possible_stage_tread (w : Q) (f : feasibility) :
  possible (stage_tread w f) = Qle_bool 25 w && possible f.
Proof.
  unfold stage_tread, Qlt_bool, min_step_width. destruct (Qle_bool 25 w); reflexivity.
Qed.

Lemma possible_stage_min_steps (n : Z) (f : feasibility) :
  possible (stage_min_steps n f) = (3 <=? n)%Z && possible f.
Proof.
  unfold stage_min_steps. rewrite Z.leb_antisym. destruct (n <? 3)%Z; reflexivity.
Qed.

Lemma possible_stage_max_steps (n : Z) (f : feasibility) :
  possible (stage_max_steps n f) = (n <=? 25)%Z && possible f.
Proof.
  unfold stage_max_steps. rewrite Z.leb_antisym. destruct (25 <? n)%Z; reflexivity.
Qed.

Lemma possible_stage_opening_width (width : option Q) (f : feasibility) :
  possible (stage_opening_width width f)
  = match width with
    | Some w => Qle_bool 80 w && possible f
    | None => possible f
    end.
Proof.
  unfold stage_opening_width, Qlt_bool, min_ladder_width.
  destruct width as [w |]; [| reflexivity]. destruct (Qle_bool 80 w); reflexivity.
Qed.

Lemma possible_stage_projection (p l : Q) (f : feasibility) :
  possible (stage_projection p l f) = Qle_bool p l && possible f.
Proof.
  unfold stage_projection, Qlt_bool. destruct (Qle_bool p l); reflexivity.
Qed.

Lemma possible_stage_riser_comfort (h : Q) (f : feasibility) :
  possible (stage_riser_comfort h f) = possible f.
Proof.
  unfold stage_riser_comfort.
  destruct (Qlt_bool h 17); [| destruct (Qlt_bool 23 h)]; reflexivity.
Qed.

Lemma possible_stage_tread_comfort (w : Q) (f : feasibility) :
  possible (stage_tread_comfort w f) = possible f.
Proof.
  unfold stage_tread_comfort.
  destruct (Qlt_bool w 28); [| destruct (Qlt_bool 35 w)]; reflexivity.
Qed.

(** The report of the method is coherent: [possible] holds exactly when no
    issue was recorded. *)
Lemma feasibility_coherent
    (height length : Q) (width angle : option Q) (steps : option Z)
    (step_width step_height : option Q) (projection : Q) :
  coherent (check_installation_feasibility height length width angle steps
              step_width step_height projection).
Proof.
  unfold check_installation_feasibility.
  destruct steps as [n |]; [| apply coherent_fail].
  destruct (n =? 0)%Z; [apply coherent_fail |].
  destruct step_width as [w |], step_height as [h |]; try apply coherent_fail.
  destruct (Qle_bool w 0 || Qle_bool h 0); [apply coherent_fail |].
  cbv zeta.
  repeat match goal with
    | |- coherent (_ _ _ _) => apply coherent_stages
    | |- coherent (_ _ _) => apply coherent_stages
    end.
  apply coherent_initial.
Qed.

(** [possible] in closed form: every value is there and every hard check
    passes. *)
Lemma feasibility_possible_inv
    (height length : Q) (width angle : option Q) (steps : option Z)
    (step_width step_height : option Q) (projection : Q) :
  possible (check_installation_feasibility height length width angle steps
              step_width step_height projection) = true ->
  (exists n, steps = Some n /\ n <> 0%Z /\ (3 <= n <= 25)%Z)
  /\ (exists w, step_width = Some w /\ 25 <= w)
  /\ (exists h, step_height = Some h /\ 15 <= h <= 25)
  /\ (exists a, angle = Some a /\ 30 <= a <= 45)
  /\ (forall w, width = Some w -> 80 <= w)
  /\ projection <= length.
Proof.
  unfold check_installation_feasibility.
  destruct steps as [n |]; [| discriminate].
  destruct (n =? 0)%Z eqn:En; [discriminate |].
  destruct step_width as [w |], step_height as [h |]; try discriminate.
  destruct (Qle_bool w 0 || Qle_bool h 0); [discriminate |].
  cbv zeta.
  rewrite possible_stage_tread_comfort, possible_stage_riser_comfort,
    possible_stage_projection, possible_stage_opening_width,
    possible_stage_max_steps, possible_stage_min_steps, possible_stage_tread,
    possible_stage_riser, possible_stage_angle.
  intros H.
  apply andb_true_iff in H; destruct H as [Hp H].
  assert (Hwd : forall v, width = Some v -> 80 <= v).
  { intros v ->. apply andb_true_iff in H; destruct H as [Hv _].
    apply Qle_bool_iff; exact Hv. }
  assert (H' : (n <=? 25)%Z && ((3 <=? n)%Z && (Qle_bool 25 w
              && (Qle_bool 15 h && Qle_bool h 25
                  && match angle with
                     | Some v => Qle_bool 30 v && Qle_bool v 45 && true
                     | None => false
                     end))) = true).
  { destruct width; [apply andb_true_iff in H; tauto | exact H]. }
  clear H.
  destruct angle as [a |]; [| rewrite !andb_false_r in H'; discriminate].
  reflect_cmp.
  repeat split; eauto; try lia.
Qed.

(** C2: whenever the report lists an issue, and whenever a hard check is
    violated by the arguments (angle outside [30, 45], riser outside [15, 25],
    tread below 25, step count outside [3, 25], opening width present and below
    80, projection longer than the opening), [possible] is false. *)
Theorem feasibility_possible_sound
    (height length : Q) (width angle : option Q) (steps : option Z)
    (step_width step_height : option Q) (projection : Q) :
  issues (check_installation_feasibility height length width angle steps
            step_width step_height projection) <> []
  \/ hard_violation length width angle steps step_width step_height projection ->
  possible (check_installation_feasibility height length width angle steps
              step_width step_height projection) = false.
Proof.
  intros H.
  destruct (possible _) eqn:P; [exfalso | reflexivity].
  destruct H as [Hi | Hv].
  - apply Hi. apply feasibility_coherent. exact P.
  - apply feasibility_possible_inv in P.
    destruct P as ((n & -> & _ & Hn) & (w & -> & Hw) & (h & -> & Hh)
                   & (a & -> & Ha) & Hwd & Hp).
    destruct Hv as [(x & [= <-] & Hx) | [(x & [= <-] & Hx) | [(x & [= <-] & Hx)
                   | [(x & [= <-] & Hx) | [(x & Ex & Hx) | Hx]]]]];
      try lra; try lia.
    specialize (Hwd x Ex). lra.
Qed.

Lemma feasibility_possible_sound_witness :
  possible (check_installation_feasibility 300 150 None (Some 63.43) (Some 15%Z)
              (Some 30) (Some 20) 420) = false.
Proof.
  apply feasibility_possible_sound.
  right. unfold hard_violation. left. exists 63.43. split; [reflexivity |].
  right. reflexivity.
Defined.

(** ** Input validation *)

Lemma validate_inputs_accepted (height length : Q) (width : option Q) :
  validate_inputs height length width = EmptyString <-> accepted height length width.
Proof.
  unfold validate_inputs, validation_errors, append_if, accepted, min_ladder_width.
  destruct (Qle_bool height 0) eqn:E1, (Qle_bool length 0) eqn:E2,
    (Qlt_bool 500 height) eqn:E3, (Qlt_bool 1000 length) eqn:E4;
    destruct width as [w |]; try destruct (Qlt_bool w 80) eqn:E5;
    cbn; reflect_cmp;
    (split; [try discriminate; intros _ | intros (H1 & H2 & H3 & H4 & H5)]);
    try specialize (H5 _ eq_refl); try reflexivity; try lra.
  - repeat split; try lra. intros v [= <-]. exact E5.
  - repeat split; try lra. discriminate.
Qed.

(** The test [if validation_error:] of [calculate_all]. *)
Lemma validation_gate (height length : Q) (width : option Q) :
  negb (String.eqb (validate_inputs height length width) EmptyString) = false
  <-> accepted height length width.
Proof.
  rewrite negb_false_iff, String.eqb_eq. apply validate_inputs_accepted.
Qed.

(** ** Division *)

Lemma inject_Z_eq_bool (n : Z) : Qeq_bool (inject_Z n) 0 = (n =? 0)%Z.
Proof.
  destruct (Z.eqb_spec n 0) as [-> | Hn]; [reflexivity |].
  destruct (Qeq_bool (inject_Z n) 0) eqn:E; [| reflexivity].
  apply Qeq_bool_eq in E. unfold Qeq in E. cbn in E. lia.
Qed.

Lemma div_inject_Z (x : Q) (n : Z) :
  div x (inject_Z n)
  = if (n =? 0)%Z then Raise ZeroDivisionError else Ok (x / inject_Z n).
Proof. unfold div. rewrite inject_Z_eq_bool. reflexivity. Qed.

Lemma div_nonzero (x : Q) (n : Z) : n <> 0%Z -> div x (inject_Z n) = Ok (x / inject_Z n).
Proof.
  intros Hn. rewrite div_inject_Z.
  destruct (Z.eqb_spec n 0); [contradiction | reflexivity].
Qed.

Lemma div_zero (x : Q) (n : Z) : n = 0%Z -> div x (inject_Z n) = Raise ZeroDivisionError.
Proof. intros ->. reflexivity. Qed.

(** ** The search loop of the suggestions *)

Lemma search_body_step (height available_length : Q) (m : Z) (b : option variant) (n : Z) :
  (n <> 0)%Z -> (m < n)%Z ->
  search_body height available_length (m, b) n
  = Ok (if spec_eligible height available_length n
        then (n, Some (best_params_of height n))
        else (m, b)).
Proof.
  intros Hn Hm. unfold search_body, spec_eligible.
  rewrite (div_nonzero _ _ Hn). cbn [bind].
  change min_step_height with 15. change max_step_height with 25.
  change standard_step_width with 30.
  destruct (Qle_bool 15 (height / inject_Z n) && Qle_bool (height / inject_Z n) 25);
    [| reflexivity].
  cbn [andb].
  destruct (Qle_bool (inject_Z (n - 1) * 30) available_length); [| reflexivity].
  destruct (Z.ltb_spec m n); [reflexivity | lia].
Qed.

(** The loop over [range(lo, lo + k)] started below [lo]: it never raises, and
    it ends either unchanged, no step count of the range being eligible, or on
    the largest eligible step count of the range. *)
Lemma search_loop (height available_length : Q) (k : nat) :
  forall (lo m : Z) (b : option variant),
    (0 < lo)%Z -> (m < lo)%Z ->
    exists m' b',
      for_each (search_body height available_length) (range lo k) (m, b) = Ok (m', b')
      /\ ((m' = m /\ b' = b
           /\ forall n, (lo <= n < lo + Z.of_nat k)%Z ->
                        spec_eligible height available_length n = false)
          \/ ((lo <= m' < lo + Z.of_nat k)%Z
              /\ spec_eligible height available_length m' = true
              /\ b' = Some (best_params_of height m')
              /\ forall n, (lo <= n < lo + Z.of_nat k)%Z ->
                           spec_eligible height available_length n = true ->
                           (n <= m')%Z)).
Proof.
  induction k as [| k IH]; intros lo m b Hlo Hm.
  - exists m, b. split; [reflexivity |]. left. repeat split. intros n Hn. lia.
  - cbn [range for_each].
    rewrite search_body_step by lia. cbn [bind].
    destruct (spec_eligible height available_length lo) eqn:Elo.
    + destruct (IH (lo + 1)%Z lo (Some (best_params_of height lo)))
        as (m' & b' & Hrun & Hres); try lia.
      exists m', b'. split; [exact Hrun |]. right.
      destruct Hres as [(-> & -> & Hnone) | (Hin & Hel & Hb & Hmax)].
      * repeat split; try lia; try assumption.
        intros n Hn En.
        destruct (Z.eq_dec n lo) as [-> | Hne]; [lia |].
        rewrite Hnone in En by lia. discriminate.
      * repeat split; try lia; try assumption.
        intros n Hn En.
        destruct (Z.eq_dec n lo) as [-> | Hne]; [lia |].
        apply Hmax; [lia | exact En].
    + destruct (IH (lo + 1)%Z m b) as (m' & b' & Hrun & Hres); try lia.
      exists m', b'. split; [exact Hrun |].
      destruct Hres as [(-> & -> & Hnone) | (Hin & Hel & Hb & Hmax)].
      * left. repeat split.
        intros n Hn.
        destruct (Z.eq_dec n lo) as [-> | Hne]; [exact Elo |].
        apply Hnone. lia.
      * right. repeat split; try lia; try assumption.
        intros n Hn En.
        destruct (Z.eq_dec n lo) as [-> | Hne]; [congruence |].
        apply Hmax; [lia | exact En].
Qed.

(** The loop of the method, [for steps in range(3, 26)] from [(0, None)]. *)
Lemma search_result (height available_length : Q) :
  exists m b,
    for_each (search_body height available_length) (range 3 23) (0%Z, None) = Ok (m, b)
    /\ ((b = None
         /\ forall n, (3 <= n <= 25)%Z -> spec_eligible height available_length n = false)
        \/ (b = Some (best_params_of height m)
            /\ spec_best height available_length m)).
Proof.
  destruct (search_loop height available_length 23 3 0 None) as (m & b & Hrun & Hres);
    try lia.
  exists m, b. split; [exact Hrun |].
  destruct Hres as [(_ & -> & Hnone) | (Hin & Hel & Hb & Hmax)].
  - left. split; [reflexivity |]. intros n Hn. apply Hnone. lia.
  - right. split; [exact Hb |]. unfold spec_best. repeat split; try lia; try assumption.
    intros n Hn En. apply Hmax; [lia | exact En].
Qed.

(** ** The suggestions *)

(** The method raises exactly when the standard riser gives no step at all. *)
Lemma suggest_raises (height available_length : Q) (available_width : option Q) :
  round (height / 20) = 0%Z ->
  suggest_optimal_parameters height available_length available_width
  = Raise ZeroDivisionError.
Proof.
  intros H0. unfold suggest_optimal_parameters.
  change (div height standard_step_height) with (Ok (height / 20)).
  cbn [bind]. rewrite (div_zero _ _ H0). reflexivity.
Qed.

(** Otherwise it returns the three tiers, each decided as in the source. *)
Lemma suggest_returns
    (height available_length : Q) (available_width : option Q)
    (m : Z) (b : option variant) :
  round (height / 20) <> 0%Z ->
  for_each (search_body height available_length) (range 3 23) (0%Z, None) = Ok (m, b) ->
  exists s,
    suggest_optimal_parameters height available_length available_width = Ok s
    /\ standard_option s
       = (if standard_fits height available_length
          then Some (standard_params_of height) else None)
    /\ best_option s
       = (if present b && (negb (m =? round (height / 20))%Z
                           || negb (standard_fits height available_length))
          then b else None)
    /\ minimum_option s
       = (if negb (present (standard_option s)) && negb (present (best_option s))
          then Some (minimum_params_of height) else None).
Proof.
  intros H0 Hrun.
  unfold suggest_optimal_parameters.
  change (div height standard_step_height) with (Ok (height / 20)).
  cbn [bind]. rewrite (div_nonzero _ _ H0). cbn [bind].
  rewrite Hrun. cbn [bind].
  change (div height max_step_height) with (Ok (height / 25)).
  cbn [bind]. rewrite div_nonzero by lia. cbn [bind ret].
  unfold standard_fits, standard_params_of, minimum_params_of.
  change standard_step_height with 20. change max_step_height with 25.
  destruct (Qle_bool (inject_Z (round (height / 20) - 1) * standard_step_width)
                     available_length
            && (Qle_bool min_step_height (height / inject_Z (round (height / 20)))
                && Qle_bool (height / inject_Z (round (height / 20))) 25));
    destruct b as [v |]; destruct (m =? round (height / 20))%Z;
    cbn [present negb andb orb];
    (eexists; split; [reflexivity |]);
    cbn [standard_option best_option minimum_option present negb andb orb];
    repeat split; reflexivity.
Qed.

Lemma spec_best_unique (height available_length : Q) (n n' : Z) :
  spec_best height available_length n -> spec_best height available_length n' -> n = n'.
Proof.
  intros (Hr & He & Hmax) (Hr' & He' & Hmax').
  pose proof (Hmax n' Hr' He'). pose proof (Hmax' n Hr He). lia.
Qed.

(** The outcome of the method, with the loop's result read through the
    specification's candidates. *)
Lemma suggest_outcome (height available_length : Q) (available_width : option Q) :
  round (height / 20) <> 0%Z ->
  exists s m b,
    suggest_optimal_parameters height available_length available_width = Ok s
    /\ ((b = None
         /\ forall n, (3 <= n <= 25)%Z -> spec_eligible height available_length n = false)
        \/ (b = Some (best_params_of height m)
            /\ spec_best height available_length m))
    /\ standard_option s
       = (if standard_fits height available_length
          then Some (standard_params_of height) else None)
    /\ best_option s
       = (if present b && (negb (m =? round (height / 20))%Z
                           || negb (standard_fits height available_length))
          then b else None)
    /\ minimum_option s
       = (if negb (present (standard_option s)) && negb (present (best_option s))
          then Some (minimum_params_of height) else None).
Proof.
  intros H0.
  destruct (search_result height available_length) as (m & b & Hrun & Hres).
  destruct (suggest_returns height available_length available_width m b H0 Hrun)
    as (s & Hs & Hrest).
  exists s, m, b. split; [exact Hs |]. split; [exact Hres | exact Hrest].
Qed.

(** C6: when the method returns (it raises only if [round(height / 20)] is
    zero), the best option it includes has the largest step count among the
    candidates of [3, 25] whose riser [height / stepCount] is in [15, 25] and
    whose projection [(stepCount - 1) * 30] fits the available length; and it is
    included exactly when such a candidate exists and either no standard option
    was included or the standard option has another step count. *)
Theorem best_option_is_largest_candidate
    (height available_length : Q) (available_width : option Q) :
  match suggest_optimal_parameters height available_length available_width with
  | Ok s =>
      (forall v, best_option s = Some v ->
                 spec_best height available_length (v_steps v)
                 /\ v = best_params_of height (v_steps v))
      /\ ((exists v, best_option s = Some v)
          <-> exists n, spec_best height available_length n
                        /\ (standard_option s = None
                            \/ exists so, standard_option s = Some so
                                          /\ v_steps so <> n))
  | Raise _ => round (height / 20) = 0%Z
  end.
Proof.
  destruct (Z.eq_dec (round (height / 20)) 0) as [H0 | H0].
  { rewrite suggest_raises by exact H0. exact H0. }
  destruct (suggest_outcome height available_length available_width H0)
    as (s & m & b & -> & Hres & Hstd & Hbest & _).
  rewrite Hbest, Hstd. clear Hbest Hstd.
  destruct Hres as [(-> & Hnone) | (-> & Hm)].
  - cbn [present andb]. split; [discriminate |].
    split; [intros (v & Hv); discriminate |].
    intros (n & (Hr & He & _) & _). rewrite Hnone in He by exact Hr. discriminate.
  - cbn [present andb]. split.
    + intros v Hv.
      destruct (negb (m =? round (height / 20))%Z
                || negb (standard_fits height available_length)); [| discriminate].
      injection Hv as <-. cbn [best_params_of v_steps]. split; [exact Hm | reflexivity].
    + destruct (standard_fits height available_length).
      * rewrite orb_false_r. destruct (Z.eqb_spec m (round (height / 20))) as [E | E];
          cbn [negb]; split.
        -- intros (v & Hv). discriminate.
        -- intros (n & Hn & [Hs | (so & [= <-] & Hso)]); [discriminate |].
           exfalso. apply Hso.
           change (v_steps (standard_params_of height)) with (round (height / 20)).
           rewrite <- E. exact (spec_best_unique _ _ _ _ Hm Hn).
        -- intros _. exists m. split; [exact Hm |]. right.
           eexists. split; [reflexivity |].
           change (v_steps (standard_params_of height)) with (round (height / 20)).
           congruence.
        -- intros _. eexists. reflexivity.
      * rewrite orb_true_r. split.
        -- intros _. exists m. split; [exact Hm | left; reflexivity].
        -- intros _. eexists. reflexivity.
Qed.

(** Where the method returns (a height above 10, for a positive height), the
    set never holds a best option and a minimum option together; the minimum
    option is there exactly when neither a standard option nor a best option is
    (equivalently: no standard option and no candidate for the best option),
    and it has [max(3, round(height / 25))] steps of width 30. *)
Lemma minimum_option_only_as_last_resort
    (height available_length : Q) (available_width : option Q) :
  match suggest_optimal_parameters height available_length available_width with
  | Ok s =>
      (best_option s = None \/ minimum_option s = None)
      /\ ((exists v, minimum_option s = Some v)
          <-> standard_option s = None /\ best_option s = None)
      /\ ((exists v, minimum_option s = Some v)
          <-> standard_option s = None
              /\ forall n, (3 <= n <= 25)%Z ->
                           spec_eligible height available_length n = false)
      /\ (forall v, minimum_option s = Some v ->
                    v_steps v = Z.max 3 (round (height / 25)) /\ v_width v = 30)
  | Raise _ => round (height / 20) = 0%Z
  end.
Proof.
  destruct (Z.eq_dec (round (height / 20)) 0) as [H0 | H0].
  { rewrite suggest_raises by exact H0. exact H0. }
  destruct (suggest_outcome height available_length available_width H0)
    as (s & m & b & -> & Hres & Hstd & Hbest & Hmin).
  rewrite Hmin, Hbest, Hstd. clear Hmin Hbest Hstd.
  destruct (standard_fits height available_length);
    destruct Hres as [(-> & Hnone) | (-> & Hm)];
    cbn [present andb orb negb];
    try destruct (negb (m =? round (height / 20))%Z);
    cbn [present andb orb negb];
    (split; [tauto |]);
    (split; [split; [intros (v & Hv); try discriminate; tauto
                    | intros (Hs & Hb); try discriminate; eexists; reflexivity] |]);
    (split; [split; [intros (v & Hv); try discriminate; tauto
                    | intros (Hs & Hb); try discriminate; try (eexists; reflexivity)] |]);
    try (intros v [= <-]; split; reflexivity);
    try discriminate.
  all: destruct Hm as (Hr & He & _); rewrite Hb in He by exact Hr; discriminate.
Qed.

(** ** Step resolution *)

Lemma div_positive (x y : Q) : 0 < y -> div x y = Ok (x / y).
Proof.
  intros Hy. unfold div.
  destruct (Qeq_bool y 0) eqn:E; [| reflexivity].
  apply Qeq_bool_eq in E. lra.
Qed.

Lemma twentieth (x : Q) : x / 20 == x * (1 # 20).
Proof. reflexivity. Qed.

(** With the standard riser, no step at all is resolved up to a height of 10. *)
Lemma round_twentieth_zero (height : Q) :
  0 < height -> (round (height / 20) = 0%Z <-> height <= 10).
Proof.
  intros Hh. pose proof (twentieth height) as Ht. split.
  - intros H0.
    destruct (Qlt_le_dec 10 height) as [Hgt | Hle]; [exfalso | exact Hle].
    assert (Hp : (1 <= round (height / 20))%Z) by (apply round_pos; lra).
    lia.
  - intros Hle. apply round_zero; lra.
Qed.

(** From three halves upwards [round] gives at least two. *)
Lemma round_two (x : Q) : (3 # 2) <= x -> (2 <= round x)%Z.
Proof.
  intros Hx.
  destruct (round_bounds x) as [Blo Bhi].
  destruct (Z.le_gt_cases 2 (round x)) as [H | H]; [exact H | exfalso].
  destruct (Z.le_gt_cases (round x) 0) as [H0 | H1].
  - assert (Hq : inject_Z (round x) <= 0) by (rewrite Zle_Qle in H0; exact H0).
    lra.
  - assert (E : round x = 1%Z) by lia.
    assert (Ev : Z.even (round x) = true).
    { apply round_tie. left. rewrite E in *. change (inject_Z 1) with 1 in *. lra. }
    rewrite E in Ev. discriminate.
Qed.

(** Mode 1: neither riser nor tread given. *)
Lemma calculate_steps_standard (height length : Q) :
  calculate_steps height length None None
  = if (round (height / 20) =? 0)%Z
    then Raise ZeroDivisionError
    else Ok (Some (round (height / 20)),
             "Количество ступеней рассчитано (стандартные элементы 30x20 см)"%string,
             Some (height / inject_Z (round (height / 20))),
             Some 30).
Proof.
  unfold calculate_steps. cbv zeta.
  lazymatch goal with
  | |- context [div height ?d] => change (div height d) with (Ok (height / 20))
  end.
  cbn [bind]. rewrite div_inject_Z.
  destruct (round (height / 20) =? 0)%Z; reflexivity.
Qed.

Lemma float_div_positive (x y : Q) : 0 < y -> float_div x y = Ok (nearest_float (x / y)).
Proof.
  intros Hy. unfold float_div.
  destruct (Qeq_bool y 0) eqn:E; [| reflexivity].
  apply Qeq_bool_eq in E. lra.
Qed.

(** Modes 2 to 4: a riser or a tread given.  The resolution reports a failure
    as data, or returns the rounded quotient by the kept riser with the kept
    riser, in [15, 25], and the kept tread, at least 25. *)
Lemma calculate_steps_given (height length : Q) (step_height step_width : option Q) :
  step_height <> None \/ step_width <> None ->
  (exists msg, calculate_steps height length step_height step_width
               = Ok (None, msg, None, None))
  \/ (exists msg r w,
        calculate_steps height length step_height step_width
        = Ok (Some (round (riser_quotient height step_height)), msg, Some r, Some w)
        /\ 15 <= r <= 25 /\ 25 <= w
        /\ r = kept_riser step_height /\ w = kept_tread step_width).
Proof.
  intros Hgiven. unfold calculate_steps, steps_error, ret.
  unfold riser_quotient, kept_riser, kept_tread.
  change min_step_height with 15. change max_step_height with 25.
  change min_step_width with 25. change standard_step_width with 30.
  change standard_step_height with 20.
  destruct step_height as [sh |], step_width as [sw |].
  - destruct (Qle_bool sh 0 || Qle_bool sw 0) eqn:E0; [left; eexists; reflexivity |].
    destruct (Qlt_bool sh 15 || Qlt_bool 25 sh) eqn:E1; [left; eexists; reflexivity |].
    destruct (Qlt_bool sw 25) eqn:E2; [left; eexists; reflexivity |].
    reflect_cmp. rewrite float_div_positive by lra. cbn [bind].
    right. do 3 eexists. split; [reflexivity |].
    repeat split; try reflexivity; lra.
  - destruct (Qle_bool sh 0) eqn:E0; [left; eexists; reflexivity |].
    destruct (Qlt_bool sh 15 || Qlt_bool 25 sh) eqn:E1; [left; eexists; reflexivity |].
    reflect_cmp. rewrite float_div_positive by lra. cbn [bind].
    right. do 3 eexists. split; [reflexivity |].
    repeat split; try reflexivity; lra.
  - destruct (Qle_bool sw 0) eqn:E0; [left; eexists; reflexivity |].
    destruct (Qlt_bool sw 25) eqn:E2; [left; eexists; reflexivity |].
    reflect_cmp.
    change (Qle_bool 15 20 && Qle_bool 20 25) with true. cbv iota.
    change (div height 20) with (Ok (height / 20)). cbn [bind].
    right. do 3 eexists. split; [reflexivity |].
    repeat split; try reflexivity; lra.
  - destruct Hgiven as [H | H]; contradiction.
Qed.

Lemma unit_roundoff_pos : 0 < unit_roundoff.
Proof. apply pow2_pos. Qed.

Lemma unit_roundoff_double : 2 ^ (-52) == 2 * unit_roundoff.
Proof. reflexivity. Qed.

Lemma half_is_pow2 : 2 ^ (-1) == 1 # 2.
Proof. reflexivity. Qed.

(** The double next above one half. *)
Lemma above_half_on_grid :
  (1 # 2) + unit_roundoff == inject_Z (2 ^ 52 + 1) * 2 ^ (-53).
Proof. reflexivity. Qed.

Lemma one_is_pow2 : 2 ^ 0 == 1.
Proof. reflexivity. Qed.

(** The float quotient of a positive height by a positive riser rounds to a
    natural number; it is zero up to half the riser and positive as soon as
    the height exceeds half the riser by the rounding of the division. *)
Lemma float_quotient_count (height r : Q) :
  0 < height -> 0 < r ->
  (0 <= round (nearest_float (height / r)))%Z
  /\ (2 * height <= r -> round (nearest_float (height / r)) = 0%Z)
  /\ (r / 2 + r * unit_roundoff <= height ->
      (1 <= round (nearest_float (height / r)))%Z).
Proof.
  intros Hh Hr. pose proof unit_roundoff_pos as Hu.
  assert (Hq : 0 < height / r) by (apply Qlt_shift_div_l; lra).
  assert (Hf : 0 <= nearest_float (height / r)) by (apply nearest_float_nonneg; lra).
  split; [| split].
  - change 0%Z with (round 0). apply round_monotone. exact Hf.
  - intros Hle. apply round_zero; [exact Hf |].
    rewrite <- half_is_pow2. apply nearest_float_le_pow2; [exact Hq | | lia].
    rewrite half_is_pow2. apply Qle_shift_div_r; lra.
  - intros Hle. apply round_pos.
    assert (Hhalf : r / 2 == r * (1 # 2)) by reflexivity.
    assert (Ht : (1 # 2) + unit_roundoff <= height / r).
    { apply Qle_shift_div_l; [exact Hr | lra]. }
    destruct (Qlt_le_dec (height / r) 1) as [Hlt | Hge].
    + assert (Ee : exponent (height / r) = (-1)%Z).
      { apply exponent_unique.
        - rewrite half_is_pow2. lra.
        - change (-1 + 1)%Z with 0%Z. rewrite one_is_pow2. exact Hlt. }
      assert (Eu : ulp (height / r) = 2 ^ (-53)).
      { rewrite (ulp_of_pos _ Hq), Ee. reflexivity. }
      assert (Hg : inject_Z (2 ^ 52 + 1) * ulp (height / r) <= nearest_float (height / r)).
      { apply nearest_float_ge_grid. rewrite Eu, <- above_half_on_grid. exact Ht. }
      rewrite Eu, <- above_half_on_grid in Hg. lra.
    + assert (H1 : 2 ^ 0 <= nearest_float (height / r)).
      { apply nearest_float_ge_pow2; [| lia]. rewrite one_is_pow2. exact Hge. }
      rewrite one_is_pow2 in H1. lra.
Qed.

(** The step count of modes 2 to 4 for a positive height: a natural number
    that is zero up to half the kept riser and positive as soon as the height
    exceeds half the kept riser by the rounding of the division. *)
Lemma round_quotient (height : Q) (step_height : option Q) :
  0 < height -> 15 <= kept_riser step_height ->
  (0 <= round (riser_quotient height step_height))%Z
  /\ (2 * height <= kept_riser step_height ->
      round (riser_quotient height step_height) = 0%Z)
  /\ (kept_riser step_height / 2 + kept_riser step_height * unit_roundoff <= height ->
      (1 <= round (riser_quotient height step_height))%Z).
Proof.
  intros Hh Hr. destruct step_height as [r |]; cbn [kept_riser riser_quotient] in *.
  - apply float_quotient_count; lra.
  - change standard_step_height with 20 in *. pose proof (twentieth height) as Ht.
    pose proof unit_roundoff_pos as Hu.
    split; [| split].
    + change 0%Z with (round 0). apply round_monotone. lra.
    + intros Hle. apply round_zero; lra.
    + intros Hle. apply round_pos.
      assert (Hhalf : (20 : Q) / 2 == 10) by reflexivity.
      rewrite Hhalf in Hle. lra.
Qed.




(** The float quotient can land on a half that the exact quotient misses: the
    height 40.000000000000028 by the riser 16.000000000000011 is 2.5 as a
    float, so two steps are resolved where the exact quotient rounds to three.
    The division of the primitive floats returns the same quotient. *)
Example quotient_rounded_onto_a_half :
  forall h r : Q,
    Binary64.to_Q Binary64.height_on_a_half = Some h ->
    Binary64.to_Q Binary64.riser_on_a_half = Some r ->
    calculate_steps h 100 (Some r) None
    = Ok (Some 2%Z, "Количество ступеней рассчитано (высота задана)"%string,
          Some r, Some 30)
    /\ round (h / r) = 3%Z
    /\ nearest_float (h / r) == 5 # 2
    /\ Binary64.to_Q (Binary64.div Binary64.height_on_a_half Binary64.riser_on_a_half)
       = Binary64.to_Q Binary64.five_halves.
Proof.
  intros h r [= <-] [= <-]. repeat split; vm_compute; reflexivity.
Qed.

(** [nearest_float] against the division of the primitive floats, on normal
    and subnormal quotients, ties included. *)
Example nearest_float_agrees_with_binary64 :
  forallb (fun '(x, y) => Binary64.division_agrees x y) Binary64.division_samples = true.
Proof. vm_compute. reflexivity. Qed.

(** On floats the product of mode 1 is the height up to rounding only: the
    height 211 resolves to [round(10.55) = 11] steps, and [211 / 11 * 11] is
    not [211] in binary64, while 270 over its 14 steps comes back exactly. *)
Example redistribution_rounds_in_binary64 :
  round (211 / 20) = 11%Z
  /\ Binary64.same (Binary64.redistributed_rise (Binary64.of_int 211) (Binary64.of_int 11))
                   (Binary64.of_int 211) = false
  /\ Binary64.same (Binary64.redistributed_rise (Binary64.of_int 270) (Binary64.of_int 14))
                   (Binary64.of_int 270) = true.
Proof. repeat split; vm_compute; reflexivity. Qed.

(** The re-derived riser of mode 1 against the bounds, by the number of steps. *)
Lemma redistributed_riser_in_range (height : Q) :
  30 <= height ->
  15 <= height / inject_Z (round (height / 20))
  /\ height / inject_Z (round (height / 20)) <= 25.
Proof.
  intros Hh. pose proof (twentieth height) as Ht.
  destruct (round_bounds (height / 20)) as [Blo Bhi].
  assert (H2 : (2 <= round (height / 20))%Z) by (apply round_two; lra).
  rewrite Zle_Qle in H2. change (inject_Z 2) with 2 in H2.
  split.
  - apply Qle_shift_div_l; lra.
  - apply Qle_shift_div_r; lra.
Qed.

Lemma single_step (height : Q) :
  10 < height -> height < 30 -> round (height / 20) = 1%Z.
Proof.
  intros Hlo Hhi. pose proof (twentieth height) as Ht.
  apply round_unique; change (inject_Z 1) with 1; lra.
Qed.

(** C5 (amended): a resolution that does not fail returns a tread of at least
    25 in every mode and a riser within [15, 25] in modes 2 to 4; in mode 1 the
    tread is 30 and the re-derived riser [height / stepCount] lies within
    [15, 25] exactly when the height is in [15, 25] or at least 30. *)
Theorem steps_spec_by_mode
    (height length : Q) (width step_height step_width : option Q)
    (n : Z) (msg : string) (ah aw : option Q) :
  accepted height length width ->
  calculate_steps height length step_height step_width = Ok (Some n, msg, ah, aw) ->
  exists r w,
    ah = Some r /\ aw = Some w /\ 25 <= w
    /\ match step_height, step_width with
       | None, None =>
           w = 30
           /\ (15 <= r /\ r <= 25 <-> (15 <= height /\ height <= 25) \/ 30 <= height)
       | _, _ => 15 <= r /\ r <= 25
       end.
Proof.
  intros (Hh & _) Hrun.
  assert (Hgiven : step_height <> None \/ step_width <> None ->
                   exists r w, ah = Some r /\ aw = Some w /\ 25 <= w
                               /\ (15 <= r /\ r <= 25)).
  { intros Hg.
    destruct (calculate_steps_given height length _ _ Hg)
      as [(m & Hm) | (m & r & w & Hm & Hr & Hw & _)];
      rewrite Hm in Hrun; [discriminate |].
    injection Hrun as _ _ <- <-.
    exists r, w. repeat split; try reflexivity; try lra. }
  destruct step_height as [sh |], step_width as [sw |];
    try (apply Hgiven; (left + right); discriminate).
  clear Hgiven. rewrite calculate_steps_standard in Hrun.
  destruct (Z.eqb_spec (round (height / 20)) 0) as [E | E]; [discriminate |].
  injection Hrun as _ _ <- <-.
  exists (height / inject_Z (round (height / 20))), 30.
  split; [reflexivity |]. split; [reflexivity |]. split; [discriminate |].
  split; [reflexivity |].
  assert (H10 : 10 < height).
  { destruct (Qlt_le_dec 10 height) as [Hgt | Hle]; [exact Hgt | exfalso].
    apply E. apply round_twentieth_zero; assumption. }
  destruct (Qlt_le_dec height 30) as [Hlt | Hge].
  - rewrite (single_step height H10 Hlt).
    assert (E1 : height / inject_Z 1 == height) by (unfold Qdiv; cbn; ring).
    rewrite E1. split; [intros [Ha Hb]; left; split; assumption |].
    intros [[Ha Hb] | Hc]; [split; assumption | lra].
  - split; [intros _; right; exact Hge |].
    intros _. apply redistributed_riser_in_range. exact Hge.
Qed.

Lemma steps_spec_by_mode_witness :
  exists r w,
    Some (270 / inject_Z 14) = Some r /\ Some (30 : Q) = Some w /\ 25 <= w
    /\ w = 30
    /\ (15 <= r /\ r <= 25 <-> (15 <= 270 /\ 270 <= 25) \/ 30 <= 270).
Proof.
  apply (steps_spec_by_mode 270 400 (Some 100) None None 14
           "Количество ступеней рассчитано (стандартные элементы 30x20 см)"
           (Some (270 / inject_Z 14)) (Some 30)).
  - unfold accepted. repeat split; try reflexivity; try discriminate.
    intros w [= <-]. discriminate.
  - reflexivity.
Defined.

(** C5, as stated, fails in mode 1: an accepted height of 29 resolves to a
    single step whose riser is 29. *)
Lemma steps_spec_broken_in_mode_1 :
  accepted 29 100 None
  /\ exists msg r,
       calculate_steps 29 100 None None = Ok (Some 1%Z, msg, Some r, Some 30)
       /\ 25 < r.
Proof.
  split.
  - unfold accepted. repeat split; try reflexivity; discriminate.
  - do 2 eexists. split; reflexivity.
Qed.

(** ** The orchestrator *)


Lemma calculate_all_steps_raise
    (height length : Q) (width angle step_height step_width : option Q) (t : Z)
    (e : exn) :
  accepted height length width ->
  calculate_steps height length step_height step_width = Raise e ->
  calculate_all height length width angle step_height step_width t = Raise e.
Proof.
  intros Hacc Hrun. unfold calculate_all.
  apply validation_gate in Hacc. rewrite Hacc.
  destruct (calculate_angle height length angle) as [ca am].
  rewrite Hrun. reflexivity.
Qed.

Lemma calculate_all_unresolved
    (height length : Q) (width angle step_height step_width : option Q) (t : Z)
    (msg : string) (ah aw : option Q) :
  accepted height length width ->
  calculate_steps height length step_height step_width = Ok (None, msg, ah, aw) ->
  calculate_all height length width angle step_height step_width t
  = (s <- suggest_optimal_parameters height length width ;;
     ret (early_failure height length width angle step_height step_width t msg s)).
Proof.
  intros Hacc Hrun. unfold calculate_all.
  apply validation_gate in Hacc. rewrite Hacc.
  unfold early_failure, angle_info_of.
  destruct (calculate_angle height length angle) as [ca am].
  rewrite Hrun. reflexivity.
Qed.

Lemma calculate_all_resolved
    (height length : Q) (width angle step_height step_width : option Q) (t : Z)
    (n : Z) (msg : string) (ah aw : option Q) :
  accepted height length width ->
  calculate_steps height length step_height step_width = Ok (Some n, msg, ah, aw) ->
  exists fp proj,
    let f :=
      check_installation_feasibility height length width
        (Some (or_zero (fst (calculate_angle height length angle)))) (Some n)
        (Some (or_zero aw)) (Some (or_zero ah)) proj in
    calculate_all height length width angle step_height step_width t
    = (sg <- (if negb (possible f)
              then s <- suggest_optimal_parameters height length width ;; ret (Some s)
              else ret None) ;;
       ret (full_result height length width angle step_height step_width t
              n msg ah aw fp f sg)).
Proof.
  intros Hacc Hrun. unfold calculate_all.
  apply validation_gate in Hacc. rewrite Hacc.
  unfold full_result, angle_info_of, length_info_of.
  destruct (calculate_angle height length angle) as [ca am].
  rewrite Hrun. cbn [bind fst snd].
  destruct (calculate_length height length ca) as [ll lm].
  cbn [fst snd].
  lazymatch goal with
  | |- context [match ?e with (_, _) => _ end] => destruct e as [fp proj]
  end.
  exists fp, proj. reflexivity.
Qed.

(** When the steps are resolved but fewer than three, the opening is never
    feasible. *)
Lemma few_steps_not_possible
    (height length : Q) (width angle : option Q) (n : Z)
    (step_width step_height : option Q) (projection : Q) :
  (n < 3)%Z ->
  possible (check_installation_feasibility height length width angle (Some n)
              step_width step_height projection) = false.
Proof.
  intros Hn.
  destruct (possible _) eqn:P; [exfalso | reflexivity].
  apply feasibility_possible_inv in P.
  destruct P as ((m & [= <-] & _ & Hm) & _). lia.
Qed.

(** Up to a height of 10 no riser of at least 15 gives three steps. *)
Lemma low_opening_few_steps (height : Q) (step_height : option Q) :
  0 < height -> height <= 10 -> 15 <= kept_riser step_height ->
  (round (riser_quotient height step_height) < 3)%Z.
Proof.
  intros Hh H10 Hr.
  assert (H1 : (round (riser_quotient height step_height) <= 1)%Z); [| lia].
  rewrite <- (round_inject_Z 1). apply round_monotone. change (inject_Z 1) with 1.
  destruct step_height as [r |]; cbn [kept_riser riser_quotient] in *.
  - assert (Hq : 0 < height / r) by (apply Qlt_shift_div_l; lra).
    rewrite <- one_is_pow2. apply nearest_float_le_pow2; [exact Hq | | lia].
    rewrite one_is_pow2. apply Qle_shift_div_r; lra.
  - change standard_step_height with 20. pose proof (twentieth height). lra.
Qed.

(** C1 (the failing side): every accepted opening of height at most 10 makes
    [calculate_all] raise [ZeroDivisionError], whatever the other arguments:
    the division by the rounded step count, in the step resolution (mode 1) or
    in the suggestions (modes 2 to 4), is not protected. *)
Theorem calculate_all_raises_on_low_opening
    (height length : Q) (width angle step_height step_width : option Q) (t : Z) :
  accepted height length width -> height <= 10 ->
  calculate_all height length width angle step_height step_width t
  = Raise ZeroDivisionError.
Proof.
  intros Hacc H10.
  assert (Hh : 0 < height) by apply Hacc.
  assert (H0 : round (height / 20) = 0%Z) by (apply round_twentieth_zero; assumption).
  destruct step_height as [sh |] eqn:Esh, step_width as [sw |] eqn:Esw;
    try (rewrite <- Esh, <- Esw;
         assert (Hg : step_height <> None \/ step_width <> None)
           by (subst; (left + right); discriminate);
         destruct (calculate_steps_given height length _ _ Hg)
           as [(m & Hm) | (m & r & w & Hm & Hr & Hw & Er & Ew)];
         [ rewrite (calculate_all_unresolved _ _ _ _ _ _ _ _ _ _ Hacc Hm),
             (suggest_raises _ _ _ H0); reflexivity
         | destruct (calculate_all_resolved _ _ _ angle _ _ t _ _ _ _ Hacc Hm)
             as (fp & proj & Hall);
           cbv zeta in Hall; rewrite Hall;
           rewrite few_steps_not_possible
             by (apply low_opening_few_steps;
                 [assumption | assumption | rewrite <- Er; lra]);
           cbn [negb]; rewrite (suggest_raises _ _ _ H0); reflexivity ]).
  apply calculate_all_steps_raise; [exact Hacc |].
  rewrite calculate_steps_standard, H0. reflexivity.
Qed.

Lemma calculate_all_raises_on_low_opening_witness :
  calculate_all 5 100 None None None None 1 = Raise ZeroDivisionError.
Proof.
  apply calculate_all_raises_on_low_opening.
  - unfold accepted. repeat split; try reflexivity; discriminate.
  - discriminate.
Defined.

(** C7 (the failing side): for a positive height of at most 10 the search of
    the suggestions can find nothing -- the standard count [round(height / 20)]
    is zero and no step count of [3, 25] has its riser [height / stepCount] in
    [15, 25] -- and yet no minimum option is emitted: the method raises
    [ZeroDivisionError] at [height / std_steps], before any tier is decided. *)
Theorem minimum_option_missing_on_low_height
    (height available_length : Q) (available_width : option Q) :
  0 < height -> height <= 10 ->
  suggest_optimal_parameters height available_length available_width
  = Raise ZeroDivisionError
  /\ round (height / 20) = 0%Z
  /\ forall n, (3 <= n <= 25)%Z -> spec_eligible height available_length n = false.
Proof.
  intros Hh H10.
  assert (H0 : round (height / 20) = 0%Z) by (apply round_twentieth_zero; assumption).
  split; [apply suggest_raises; exact H0 |]. split; [exact H0 |].
  intros n Hn. unfold spec_eligible.
  assert (Hn3 : 3 <= inject_Z n).
  { change 3 with (inject_Z 3). rewrite <- Zle_Qle. lia. }
  assert (Hq : height / inject_Z n < 15).
  { apply Qlt_shift_div_r; nra. }
  assert (E : Qle_bool 15 (height / inject_Z n) = false).
  { apply Qle_bool_false_iff. exact Hq. }
  rewrite E. reflexivity.
Qed.

Lemma minimum_option_missing_on_low_height_witness :
  suggest_optimal_parameters 5 100 None = Raise ZeroDivisionError
  /\ round (5 / 20) = 0%Z
  /\ forall n, (3 <= n <= 25)%Z -> spec_eligible 5 100 n = false.
Proof.
  apply minimum_option_missing_on_low_height; [reflexivity | discriminate].
Defined.

(** Above a height of 10 the orchestrator returns a result. *)
Lemma calculate_all_returns
    (height length : Q) (width angle step_height step_width : option Q) (t : Z) :
  accepted height length width -> 10 < height ->
  exists r, calculate_all height length width angle step_height step_width t = Ok r.
Proof.
  intros Hacc H10.
  assert (Hh : 0 < height) by apply Hacc.
  assert (H0 : round (height / 20) <> 0%Z).
  { intros E. apply round_twentieth_zero in E; [lra | exact Hh]. }
  destruct (suggest_outcome height length width H0) as (s & _ & _ & Hs & _).
  assert (Hsteps : (exists msg ah aw, calculate_steps height length step_height step_width
                                    = Ok (None, msg, ah, aw))
                   \/ (exists n msg ah aw, calculate_steps height length step_height step_width
                                           = Ok (Some n, msg, ah, aw))).
  { destruct step_height as [sh |] eqn:Esh, step_width as [sw |] eqn:Esw;
      try (rewrite <- Esh, <- Esw;
           assert (Hg : step_height <> None \/ step_width <> None)
             by (subst; (left + right); discriminate);
           destruct (calculate_steps_given height length _ _ Hg)
             as [(m & Hm) | (m & r & w & Hm & _)];
           [left | right]; rewrite Hm; repeat eexists).
    right. rewrite calculate_steps_standard.
    destruct (Z.eqb_spec (round (height / 20)) 0); [contradiction | repeat eexists]. }
  destruct Hsteps as [(msg & ah & aw & Hm) | (n & msg & ah & aw & Hm)].
  - rewrite (calculate_all_unresolved _ _ _ _ _ _ _ _ _ _ Hacc Hm), Hs.
    eexists. reflexivity.
  - destruct (calculate_all_resolved _ _ _ angle _ _ t _ _ _ _ Hacc Hm)
      as (fp & proj & Hall).
    cbv zeta in Hall. rewrite Hall.
    destruct (negb (possible _)); [rewrite Hs |]; eexists; reflexivity.
Qed.

(** C4 (amended): when the step resolution reports a failure inside
    [calculate_all] and the suggestions can be computed (height above 10), the
    result returned holds the error message and the suggestions together with
    the echo of the inputs, an empty list of warnings and the angle already
    computed; no later stage has left an entry: there are no steps, ladder
    length, footprint, feasibility or parts. *)
Theorem early_failure_contents
    (height length : Q) (width angle step_height step_width : option Q) (t : Z)
    (msg : string) (ah aw : option Q) :
  accepted height length width -> 10 < height ->
  calculate_steps height length step_height step_width = Ok (None, msg, ah, aw) ->
  exists r s,
    calculate_all height length width angle step_height step_width t = Ok r
    /\ suggest_optimal_parameters height length width = Ok s
    /\ r_error r = Some msg
    /\ r_suggestions r = Some s
    /\ r_inputs r = Some (inputs_of height length width angle step_height step_width t)
    /\ r_warnings r = Some []
    /\ r_angle r = Some (angle_info_of height length angle)
    /\ r_steps r = None
    /\ r_ladder_length r = None
    /\ r_footprint r = None
    /\ r_feasibility r = None
    /\ r_parts r = None.
Proof.
  intros Hacc H10 Hm.
  assert (H0 : round (height / 20) <> 0%Z).
  { intros E. apply round_twentieth_zero in E; [lra | apply Hacc]. }
  destruct (suggest_outcome height length width H0) as (s & _ & _ & Hs & _).
  exists (early_failure height length width angle step_height step_width t msg s), s.
  rewrite (calculate_all_unresolved _ _ _ _ _ _ _ _ _ _ Hacc Hm), Hs.
  repeat split; reflexivity.
Qed.

Lemma early_failure_contents_witness :
  exists r s,
    calculate_all 270 400 None None None (Some 20) 1 = Ok r
    /\ suggest_optimal_parameters 270 400 None = Ok s
    /\ r_error r = Some tread_min_error
    /\ r_suggestions r = Some s
    /\ r_inputs r = Some (inputs_of 270 400 None None None (Some 20) 1)
    /\ r_warnings r = Some []
    /\ r_angle r = Some (angle_info_of 270 400 None)
    /\ r_steps r = None
    /\ r_ladder_length r = None
    /\ r_footprint r = None
    /\ r_feasibility r = None
    /\ r_parts r = None.
Proof.
  apply (early_failure_contents 270 400 None None None (Some 20) 1
           tread_min_error None None).
  - unfold accepted. repeat split; try reflexivity; discriminate.
  - reflexivity.
  - reflexivity.
Defined.

(** C4, as stated, fails: the early-failure result of a tread of 20 carries,
    besides the error and the suggestions, the inputs, the warnings list and
    the computed angle. *)
Lemma early_failure_keeps_angle :
  exists r a,
    calculate_all 270 400 None None None (Some 20) 1 = Ok r
    /\ r_error r = Some tread_min_error
    /\ present (r_suggestions r) = true
    /\ r_angle r = Some a
    /\ angle_message a = "Угол рассчитан"%string
    /\ present (angle_value a) = true
    /\ present (r_inputs r) = true
    /\ r_warnings r = Some [].
Proof.
  do 2 eexists. split; [vm_compute; reflexivity |].
  repeat split; reflexivity.
Qed.

(** ** The opening-width issue *)

Lemma other_issue_skipped (w : Q) (i : text) (f : feasibility) :
  i <> issue_opening_width w ->
  In (issue_opening_width w) (issues (fail_with i f)) ->
  In (issue_opening_width w) (issues f).
Proof.
  intros Hi H. cbn [issues fail_with] in H.
  apply in_app_or in H. destruct H as [H | [H | []]]; [exact H | congruence].
Qed.

(** Every stage but the opening-width check leaves the opening-width issue
    as it found it. *)
Lemma opening_width_issue_skipped (w : Q) (f : feasibility) :
  let kept (g : feasibility) :=
    In (issue_opening_width w) (issues g) -> In (issue_opening_width w) (issues f) in
  (forall a, kept (stage_angle a f))
  /\ (forall h, kept (stage_riser h f))
  /\ (forall x, kept (stage_tread x f))
  /\ (forall n, kept (stage_min_steps n f))
  /\ (forall n, kept (stage_max_steps n f))
  /\ (forall p l, kept (stage_projection p l f))
  /\ (forall h, kept (stage_riser_comfort h f))
  /\ (forall x, kept (stage_tread_comfort x f)).
Proof.
  cbv zeta.
  unfold stage_angle, stage_riser, stage_tread, stage_min_steps, stage_max_steps,
    stage_projection, stage_riser_comfort, stage_tread_comfort.
  repeat match goal with |- _ /\ _ => split end; intros;
    repeat match goal with
      | H : context [match ?x with _ => _ end] |- _ => destruct x
      end;
    try assumption;
    match goal with
    | H : In _ (issues (fail_with _ _)) |- _ =>
        apply other_issue_skipped in H; [exact H | discriminate]
    end.
Qed.

(** The opening-width check records it for a present width below 80 only. *)
Lemma opening_width_issue_recorded (w : Q) (width : option Q) (f : feasibility) :
  In (issue_opening_width w) (issues (stage_opening_width width f)) ->
  In (issue_opening_width w) (issues f) \/ (width = Some w /\ w < 80).
Proof.
  unfold stage_opening_width.
  destruct width as [v |]; [| intros H; left; exact H].
  destruct (Qlt_bool v min_ladder_width) eqn:E; [| intros H; left; exact H].
  cbn [issues fail_with]. intros H.
  apply in_app_or in H. destruct H as [H | [H | []]]; [left; exact H | right].
  injection H as ->. split; [reflexivity |].
  apply Qlt_bool_iff in E. exact E.
Qed.

(** The report holds the opening-width issue for a present width below 80
    only. *)
Lemma opening_width_issue_origin
    (height length : Q) (width angle : option Q) (steps : option Z)
    (step_width step_height : option Q) (projection : Q) (w : Q) :
  In (issue_opening_width w)
     (issues (check_installation_feasibility height length width angle steps
                step_width step_height projection)) ->
  width = Some w /\ w < 80.
Proof.
  unfold check_installation_feasibility.
  assert (Hone : forall i : text,
             i <> issue_opening_width w ->
             In (issue_opening_width w)
                (issues (fail_with i {| possible := true; issues := []; warnings := [] |})) ->
             width = Some w /\ w < 80).
  { intros i Hi H. apply other_issue_skipped in H; [destruct H | exact Hi]. }
  destruct steps as [n |]; [| apply Hone; discriminate].
  destruct (n =? 0)%Z; [apply Hone; discriminate |].
  destruct step_width as [sw |], step_height as [sh |];
    try (apply Hone; discriminate).
  destruct (Qle_bool sw 0 || Qle_bool sh 0); [apply Hone; discriminate |].
  cbv zeta. intros H.
  apply opening_width_issue_skipped in H.
  apply opening_width_issue_skipped in H.
  apply opening_width_issue_skipped in H.
  apply opening_width_issue_recorded in H.
  destruct H as [H | H]; [exfalso | exact H].
  do 5 apply opening_width_issue_skipped in H.
  destruct H.
Qed.

(** For an accepted opening the opening-width check does nothing. *)
Lemma opening_width_stage_idle
    (height length : Q) (width : option Q) (f : feasibility) :
  accepted height length width -> stage_opening_width width f = f.
Proof.
  intros (_ & _ & _ & _ & Hwd). unfold stage_opening_width, min_ladder_width.
  destruct width as [w |]; [| reflexivity].
  destruct (Qlt_bool w 80) eqn:E; [| reflexivity].
  apply Qlt_bool_iff in E. specialize (Hwd w eq_refl). lra.
Qed.

Lemma feasibility_report_clean
    (height length : Q) (width angle step_height step_width : option Q) (t : Z)
    (r : result) (f : feasibility) (w : Q) :
  calculate_all height length width angle step_height step_width t = Ok r ->
  r_feasibility r = Some f ->
  ~ In (issue_opening_width w) (issues f).
Proof.
  intros Hall Hf Hin.
  destruct (negb (String.eqb (validate_inputs height length width) EmptyString)) eqn:G.
  - unfold calculate_all in Hall. rewrite G in Hall.
    injection Hall as <-. discriminate.
  - apply validation_gate in G.
    destruct (calculate_steps height length step_height step_width)
      as [[[[[n |] msg] ah] aw] | e] eqn:Hm.
    + destruct (calculate_all_resolved _ _ _ angle _ _ t _ _ _ _ G Hm)
        as (fp & proj & Hres).
      cbv zeta in Hres. rewrite Hres in Hall.
      assert (Ef : f = check_installation_feasibility height length width
                         (Some (or_zero (fst (calculate_angle height length angle))))
                         (Some n) (Some (or_zero aw)) (Some (or_zero ah)) proj).
      { destruct (negb (possible _)) in Hall;
          [destruct (suggest_optimal_parameters height length width) in Hall;
           [| discriminate] |];
          injection Hall as <-; unfold full_result in Hf;
          cbn [r_feasibility] in Hf; injection Hf as <-; reflexivity. }
      subst f. apply opening_width_issue_origin in Hin.
      destruct Hin as [Hw Hlt].
      destruct G as (_ & _ & _ & _ & Hwd). specialize (Hwd w Hw). lra.
    + rewrite (calculate_all_unresolved _ _ _ _ _ _ _ _ _ _ G Hm) in Hall.
      destruct (suggest_optimal_parameters height length width) in Hall;
        [| discriminate].
      injection Hall as <-. discriminate.
    + rewrite (calculate_all_steps_raise _ _ _ _ _ _ _ _ G Hm) in Hall. discriminate.
Qed.

(** C10: in every execution of [calculate_all] the opening-width issue is out
    of reach.  Either the validation rejects the input and the result is the
    validation message alone, no feasibility stage having run; or the input is
    accepted and the opening-width check of the feasibility stage leaves every
    report as it is.  In both cases a report found in a result holds no
    opening-width issue. *)
Theorem opening_width_issue_unreachable
    (height length : Q) (width angle step_height step_width : option Q) (t : Z) :
  (calculate_all height length width angle step_height step_width t
   = Ok (error_only (validate_inputs height length width))
   \/ (accepted height length width
       /\ forall f, stage_opening_width width f = f))
  /\ (forall r f w,
        calculate_all height length width angle step_height step_width t = Ok r ->
        r_feasibility r = Some f ->
        ~ In (issue_opening_width w) (issues f)).
Proof.
  split.
  - destruct (negb (String.eqb (validate_inputs height length width) EmptyString)) eqn:G.
    + left. unfold calculate_all. rewrite G. reflexivity.
    + right. apply validation_gate in G. split; [exact G |].
      intros f. exact (opening_width_stage_idle height length width f G).
  - intros r f w. apply feasibility_report_clean.
Qed.

(** The steep opening of the specification's second example: two issues,
    none of them about the width of 100. *)
Example opening_width_issue_absent :
  exists r f,
    calculate_all 300 150 (Some 100) None None None 1 = Ok r
    /\ r_feasibility r = Some f
    /\ List.length (issues f) = 2%nat
    /\ ~ In (issue_opening_width 100) (issues f).
Proof.
  do 2 eexists. split; [vm_compute; reflexivity |].
  split; [reflexivity |]. split; [reflexivity |].
  eapply (feasibility_report_clean 300 150 (Some 100) None None None 1).
  - vm_compute. reflexivity.
  - reflexivity.
Qed.

(** A resolved step count of zero is data for the later stages: with a riser
    of 25 the height 12 resolves to no step, and the result reports it. *)
Example zero_steps_reported :
  exists r st f,
    calculate_all 12 100 None None (Some 25) None 1 = Ok r
    /\ r_steps r = Some st /\ steps_count st = 0%Z
    /\ r_footprint r = None
    /\ r_feasibility r = Some f
    /\ possible f = false /\ issues f = [issue_no_steps].
Proof.
  do 3 eexists. split; [vm_compute; reflexivity |].
  repeat split; reflexivity.
Qed.

(** ** The stringer length *)

(** With an angle, the method reports a failure exactly when the cosine it
    divides by is zero. *)
Lemma calculate_length_by_angle (height length a : Q) :
  calculate_length height length (Some a)
  = if Qeq_bool (PyMath.cos (PyMath.radians a)) 0
    then (None, "Ошибка: неверный угол"%string)
    else (Some (round2 (length / PyMath.cos (PyMath.radians a))),
          "Длина лестницы рассчитана по углу"%string).
Proof.
  unfold calculate_length, div.
  destruct (Qeq_bool (PyMath.cos (PyMath.radians a)) 0); reflexivity.
Qed.

(** [math.cos(math.radians(90))] is not zero: [math.radians(90)] is the double
    nearest to a quarter turn, a little short of it. *)
Lemma cosine_of_right_angle :
  0 < PyMath.cos (PyMath.radians 90)
  /\ PyMath.cos (PyMath.radians 90) < 1 # 10000000000000000.
Proof. split; vm_compute; reflexivity. Qed.

(** The argument of the cosine is the one Python computes: in binary64,
    [math.pi] and [math.radians(90)] are the rationals of the model. *)
Example radians_of_right_angle_in_binary64 :
  exists p q,
    Binary64.to_Q Binary64.pi = Some p /\ p == PyMath.pi
    /\ Binary64.to_Q (Binary64.radians (Binary64.of_int 90)) = Some q
    /\ q == PyMath.radians 90.
Proof.
  do 2 eexists. split; [vm_compute; reflexivity |].
  split; [reflexivity |]. split; [vm_compute; reflexivity | reflexivity].
Qed.

(** C9 (the failing side): at an angle of 90 degrees the method does not
    report a failure; it returns a number, the length divided by the tiny
    cosine, with the message of a successful calculation. *)
Theorem stringer_length_at_right_angle (height length : Q) :
  calculate_length height length (Some 90)
  = (Some (round2 (length / PyMath.cos (PyMath.radians 90))),
     "Длина лестницы рассчитана по углу"%string).
Proof.
  rewrite calculate_length_by_angle.
  destruct (Qeq_bool (PyMath.cos (PyMath.radians 90)) 0) eqn:E; [| reflexivity].
  apply Qeq_bool_eq in E. destruct cosine_of_right_angle as [Hpos _].
  rewrite E in Hpos. discriminate.
Qed.

(** The value at the opening of 270 by 400. *)
Example right_angle_length_of_400 :
  exists v, calculate_length 270 400 (Some 90)
            = (Some v, "Длина лестницы рассчитана по углу"%string)
            /\ 6000000000000000000 < v.
Proof. eexists. split; vm_compute; reflexivity. Qed.

(** ** The examples of the specification *)

(** Height 270, length 400, width 100, straight: 14 steps of 19.29 by 30, a
    projection of 390 and a feasible installation without suggestions. *)
Example example_feasible :
  exists r st fp f,
    calculate_all 270 400 (Some 100) None None None 1 = Ok r
    /\ r_steps r = Some st /\ steps_count st = 14%Z
    /\ steps_actual_height st = Some 19.29
    /\ r_footprint r = Some fp /\ fp_horizontal_projection fp = Some 390.00
    /\ r_feasibility r = Some f /\ possible f = true /\ issues f = []
    /\ r_suggestions r = None.
Proof.
  do 4 eexists. split; [vm_compute; reflexivity |].
  repeat split; reflexivity.
Qed.

(** Height 300, length 150: the angle of 63.43 degrees is out of range, the
    installation is not feasible and suggestions are attached. *)
Example example_steep :
  exists r a f,
    calculate_all 300 150 None None None None 1 = Ok r
    /\ r_angle r = Some a /\ angle_value a = Some 63.43
    /\ r_feasibility r = Some f /\ possible f = false
    /\ In (issue_angle_range 63.43) (issues f)
    /\ present (r_suggestions r) = true.
Proof.
  do 3 eexists. split; [vm_compute; reflexivity |].
  repeat split; try reflexivity. left. reflexivity.
Qed.

(** Height 0: rejected by the validation, with the message alone. *)
Example example_rejected :
  calculate_all 0 150 None None None None 1
  = Ok (error_only "Высота должна быть положительной").
Proof. reflexivity. Qed.

(** * Further properties of the calculator *)

(** ** Validation and the early return *)

(** The validation message is empty exactly when none of the five tests of
    the method holds: not [height <= 0], not [length <= 0], not
    [height > 500], not [length > 1000], and no width below 80.  (The tests
    are read as the method runs them: that a comparison fails is all an empty
    message tells.) *)
Theorem validation_accepts_exactly (height length : Q) (width : option Q) :
  validate_inputs height length width = EmptyString
  <-> ~ height <= 0 /\ ~ length <= 0 /\ ~ 500 < height /\ ~ 1000 < length
      /\ ~ (exists w, width = Some w /\ w < 80).
Proof.
  rewrite validate_inputs_accepted. unfold accepted.
  split.
  - intros (H1 & H2 & H3 & H4 & H5).
    repeat split; try (intros H; lra).
    intros (w & Hw & Hlt). specialize (H5 w Hw). lra.
  - intros (H1 & H2 & H3 & H4 & H5).
    repeat split.
    + apply Qnot_le_lt. exact H1.
    + apply Qnot_lt_le. exact H3.
    + apply Qnot_le_lt. exact H2.
    + apply Qnot_lt_le. exact H4.
    + intros w Hw. apply Qnot_lt_le. intros Hlt. apply H5. exists w. split; assumption.
Qed.



(** ** More on the step resolution *)

(** The resolution reports a failure -- no step count -- exactly when the
    supplied riser is outside [15, 25] or the supplied tread is below 25.  The
    failure is decided before the height is read: it comes without riser and
    tread, and with the same message for every height and length. *)
Theorem steps_failure_exactly (height length : Q) (step_height step_width : option Q) :
  ((exists msg ah aw,
      calculate_steps height length step_height step_width = Ok (None, msg, ah, aw))
   <-> (exists r, step_height = Some r /\ (r < 15 \/ 25 < r))
       \/ (exists w, step_width = Some w /\ w < 25))
  /\ (forall msg ah aw,
        calculate_steps height length step_height step_width = Ok (None, msg, ah, aw) ->
        ah = None /\ aw = None
        /\ forall height' length',
             calculate_steps height' length' step_height step_width
             = Ok (None, msg, None, None)).
Proof.
  destruct step_height as [sh |], step_width as [sw |].
  - unfold calculate_steps, steps_error, ret.
    change min_step_height with 15. change max_step_height with 25.
    change min_step_width with 25.
    destruct (Qle_bool sh 0 || Qle_bool sw 0) eqn:E0;
      [| destruct (Qlt_bool sh 15 || Qlt_bool 25 sh) eqn:E1;
         [| destruct (Qlt_bool sw 25) eqn:E2]].
    + split; [split; [intros _ | intros _; do 3 eexists; reflexivity] |].
      * apply orb_true_iff in E0. destruct E0 as [E | E]; reflect_cmp;
          [left; exists sh | right; exists sw]; (split; [reflexivity | lra]).
      * intros msg ah aw [= <- <- <-]. repeat split.
    + split; [split; [intros _ | intros _; do 3 eexists; reflexivity] |].
      * left. exists sh. split; [reflexivity |].
        apply orb_true_iff in E1. destruct E1 as [E | E]; reflect_cmp; lra.
      * intros msg ah aw [= <- <- <-]. repeat split.
    + split; [split; [intros _ | intros _; do 3 eexists; reflexivity] |].
      * right. exists sw. split; [reflexivity |]. reflect_cmp. lra.
      * intros msg ah aw [= <- <- <-]. repeat split.
    + reflect_cmp. rewrite float_div_positive by lra. cbn [bind].
      split; [split |].
      * intros (msg & ah & aw & Hfail). discriminate Hfail.
      * intros [(r & [= <-] & Hr) | (w & [= <-] & Hw)]; lra.
      * intros msg ah aw Hfail. discriminate Hfail.
  - unfold calculate_steps, steps_error, ret.
    change min_step_height with 15. change max_step_height with 25.
    destruct (Qle_bool sh 0) eqn:E0;
      [| destruct (Qlt_bool sh 15 || Qlt_bool 25 sh) eqn:E1].
    + split; [split; [intros _ | intros _; do 3 eexists; reflexivity] |].
      * left. exists sh. split; [reflexivity |]. reflect_cmp. lra.
      * intros msg ah aw [= <- <- <-]. repeat split.
    + split; [split; [intros _ | intros _; do 3 eexists; reflexivity] |].
      * left. exists sh. split; [reflexivity |].
        apply orb_true_iff in E1. destruct E1 as [E | E]; reflect_cmp; lra.
      * intros msg ah aw [= <- <- <-]. repeat split.
    + reflect_cmp. rewrite float_div_positive by lra. cbn [bind].
      split; [split |].
      * intros (msg & ah & aw & Hfail). discriminate Hfail.
      * intros [(r & [= <-] & Hr) | (w & Hw & _)]; [lra | discriminate].
      * intros msg ah aw Hfail. discriminate Hfail.
  - unfold calculate_steps, steps_error, ret.
    change min_step_width with 25.
    destruct (Qle_bool sw 0) eqn:E0; [| destruct (Qlt_bool sw 25) eqn:E2].
    + split; [split; [intros _ | intros _; do 3 eexists; reflexivity] |].
      * right. exists sw. split; [reflexivity |]. reflect_cmp. lra.
      * intros msg ah aw [= <- <- <-]. repeat split.
    + split; [split; [intros _ | intros _; do 3 eexists; reflexivity] |].
      * right. exists sw. split; [reflexivity |]. reflect_cmp. lra.
      * intros msg ah aw [= <- <- <-]. repeat split.
    + reflect_cmp. split; [split |].
      * intros (msg & ah & aw & Hfail). cbn in Hfail. discriminate Hfail.
      * intros [(r & Hr & _) | (w & [= <-] & Hw)]; [discriminate | lra].
      * intros msg ah aw Hfail. cbn in Hfail. discriminate Hfail.
  - split; [split |].
    + intros (msg & ah & aw & H). rewrite calculate_steps_standard in H.
      destruct (round (height / 20) =? 0)%Z; discriminate H.
    + intros [(r & Hr & _) | (w & Hw & _)]; discriminate.
    + intros msg ah aw H. rewrite calculate_steps_standard in H.
      destruct (round (height / 20) =? 0)%Z; discriminate H.
Qed.

(** The float quotient of a positive height by a positive riser, rounded to
    the step count, misses the exact quotient by one half and the rounding of
    the division at most. *)
Lemma float_quotient_error (q : Q) :
  0 < q ->
  - ((1 # 2) + q * unit_roundoff) <= q - inject_Z (round (nearest_float q))
  /\ q - inject_Z (round (nearest_float q)) <= (1 # 2) + q * unit_roundoff.
Proof.
  intros Hq. pose proof unit_roundoff_pos as Hu.
  destruct (round_bounds (nearest_float q)) as [Blo Bhi].
  destruct (Qlt_le_dec q (2 ^ (-1022))) as [Hsub | Hnorm].
  - assert (Hf : nearest_float q <= 2 ^ (-1022)).
    { apply nearest_float_le_pow2; [exact Hq | lra | lia]. }
    assert (Hh : 2 ^ (-1022) <= 1 # 2).
    { rewrite <- half_is_pow2. apply pow2_le. lia. }
    assert (E : round (nearest_float q) = 0%Z).
    { apply round_zero; [apply nearest_float_nonneg; lra | lra]. }
    rewrite E. change (inject_Z 0) with 0.
    assert (Hp : 0 <= q * unit_roundoff) by nra.
    split; lra.
  - destruct (nearest_float_error q) as [Elo Ehi].
    pose proof (ulp_relative q Hnorm) as Hrel.
    rewrite unit_roundoff_double in Hrel.
    assert (H2 : ulp q / 2 == ulp q * (1 # 2)) by reflexivity.
    set (u := ulp q) in *. set (f := nearest_float q) in *.
    split; nra.
Qed.

(** With a riser or a tread supplied, the riser is kept -- the supplied one,
    20 when only a tread is supplied -- and only the count is rounded, so the
    steps need not add up to the height: the resolved count times the riser
    misses an accepted height by at most half a riser and the rounding of the
    float division. *)
Theorem kept_riser_misses_by_half
    (height length : Q) (width step_height step_width : option Q)
    (n : Z) (msg : string) (ah aw : option Q) :
  accepted height length width ->
  step_height <> None \/ step_width <> None ->
  calculate_steps height length step_height step_width = Ok (Some n, msg, ah, aw) ->
  ah = Some (kept_riser step_height)
  /\ - (kept_riser step_height / 2) - height * unit_roundoff
     <= height - inject_Z n * kept_riser step_height
  /\ height - inject_Z n * kept_riser step_height
     <= kept_riser step_height / 2 + height * unit_roundoff.
Proof.
  intros (Hh & _) Hgiven Hrun.
  destruct (calculate_steps_given height length _ _ Hgiven)
    as [(m & Hm) | (m & r & w & Hm & Hr & _ & Er & _)];
    rewrite Hm in Hrun; [discriminate |].
  injection Hrun as <- _ <- _.
  rewrite <- Er. split; [reflexivity |].
  pose proof unit_roundoff_pos as Hu.
  assert (Hpos : 0 < r) by lra.
  assert (Hhalf : r / 2 == r * (1 # 2)) by reflexivity.
  assert (Hslack : 0 <= height * unit_roundoff) by nra.
  destruct step_height as [sh |]; cbn [kept_riser riser_quotient] in *.
  - subst sh.
    assert (Hq : 0 < height / r) by (apply Qlt_shift_div_l; lra).
    assert (E : height / r * r == height).
    { rewrite Qmult_comm. apply Qmult_div_r. lra. }
    destruct (float_quotient_error (height / r) Hq) as [Dlo Dhi].
    set (q := height / r) in *.
    set (k := inject_Z (round (nearest_float q))) in *.
    split; nra.
  - change standard_step_height with 20 in *.
    destruct (round_bounds (height / 20)) as [Blo Bhi].
    pose proof (twentieth height) as Ht.
    set (k := inject_Z (round (height / 20))) in *.
    assert (E20 : r == 20) by (rewrite Er; reflexivity).
    split; nra.
Qed.

Lemma kept_riser_misses_by_half_witness :
  Some (20 : Q) = Some (kept_riser (Some 20))
  /\ - (kept_riser (Some 20) / 2) - 270 * unit_roundoff
     <= 270 - inject_Z 14 * kept_riser (Some 20)
  /\ 270 - inject_Z 14 * kept_riser (Some 20)
     <= kept_riser (Some 20) / 2 + 270 * unit_roundoff.
Proof.
  apply (kept_riser_misses_by_half 270 400 (Some 100) (Some 20) None 14
           "Количество ступеней рассчитано (высота задана)" (Some 20) (Some 30)).
  - unfold accepted. repeat split; try reflexivity; try discriminate.
    intros w [= <-]. discriminate.
  - left. discriminate.
  - vm_compute. reflexivity.
Defined.

(** ** More on the feasibility report *)

Lemma issues_of_fail (x i : text) (f : feasibility) :
  In x (issues (fail_with i f)) -> In x (issues f) \/ x = i.
Proof.
  cbn [issues fail_with]. intros H. apply in_app_or in H.
  destruct H as [H | [H | []]]; [left; exact H | right; symmetry; exact H].
Qed.

Lemma issues_of_stage_angle (x : text) (angle : option Q) (f : feasibility) :
  In x (issues (stage_angle angle f)) ->
  In x (issues f)
  \/ (x = issue_angle_undefined /\ angle = None)
  \/ (exists a, x = issue_angle_range a /\ angle = Some a /\ (a < 30 \/ 45 < a)).
Proof.
  unfold stage_angle, min_angle, max_angle. destruct angle as [a |].
  - destruct (Qle_bool 30 a && Qle_bool a 45) eqn:E; cbn [negb]; intros H;
      [left; exact H |].
    apply issues_of_fail in H. destruct H as [H | ->]; [left; exact H |].
    right. right. exists a. split; [reflexivity |]. split; [reflexivity |].
    apply andb_false_iff in E. destruct E as [E | E]; reflect_cmp; lra.
  - intros H. apply issues_of_fail in H. destruct H as [H | ->]; [left; exact H |].
    right. left. split; reflexivity.
Qed.

Lemma issues_of_stage_riser (x : text) (r : Q) (f : feasibility) :
  In x (issues (stage_riser r f)) ->
  In x (issues f)
  \/ (x = issue_riser_low r /\ r < 15) \/ (x = issue_riser_high r /\ 25 < r).
Proof.
  unfold stage_riser, min_step_height, max_step_height.
  destruct (Qlt_bool r 15) eqn:E1; [| destruct (Qlt_bool 25 r) eqn:E2]; intros H;
    try (left; exact H);
    apply issues_of_fail in H; (destruct H as [H | ->]; [left; exact H |]);
    reflect_cmp; right; [left | right]; (split; [reflexivity | assumption]).
Qed.

Lemma issues_of_stage_tread (x : text) (w : Q) (f : feasibility) :
  In x (issues (stage_tread w f)) ->
  In x (issues f) \/ (x = issue_tread_narrow w /\ w < 25).
Proof.
  unfold stage_tread, min_step_width.
  destruct (Qlt_bool w 25) eqn:E; intros H; [| left; exact H].
  apply issues_of_fail in H. destruct H as [H | ->]; [left; exact H |].
  reflect_cmp. right. split; [reflexivity | assumption].
Qed.

Lemma issues_of_stage_min_steps (x : text) (n : Z) (f : feasibility) :
  In x (issues (stage_min_steps n f)) ->
  In x (issues f) \/ (x = issue_few_steps /\ (n < 3)%Z).
Proof.
  unfold stage_min_steps.
  destruct (n <? 3)%Z eqn:E; intros H; [| left; exact H].
  apply issues_of_fail in H. destruct H as [H | ->]; [left; exact H |].
  reflect_cmp. right. split; [reflexivity | assumption].
Qed.

Lemma issues_of_stage_max_steps (x : text) (n : Z) (f : feasibility) :
  In x (issues (stage_max_steps n f)) ->
  In x (issues f) \/ (x = issue_many_steps /\ (25 < n)%Z).
Proof.
  unfold stage_max_steps.
  destruct (25 <? n)%Z eqn:E; intros H; [| left; exact H].
  apply issues_of_fail in H. destruct H as [H | ->]; [left; exact H |].
  reflect_cmp. right. split; [reflexivity | assumption].
Qed.

Lemma issues_of_stage_opening_width (x : text) (width : option Q) (f : feasibility) :
  In x (issues (stage_opening_width width f)) ->
  In x (issues f)
  \/ (exists w, x = issue_opening_width w /\ width = Some w /\ w < 80).
Proof.
  unfold stage_opening_width, min_ladder_width.
  destruct width as [w |]; [| intros H; left; exact H].
  destruct (Qlt_bool w 80) eqn:E; intros H; [| left; exact H].
  apply issues_of_fail in H. destruct H as [H | ->]; [left; exact H |].
  reflect_cmp. right. exists w. repeat split; assumption.
Qed.

Lemma issues_of_stage_projection (x : text) (p l : Q) (f : feasibility) :
  In x (issues (stage_projection p l f)) ->
  In x (issues f) \/ (x = issue_too_long p l /\ l < p).
Proof.
  unfold stage_projection.
  destruct (Qlt_bool l p) eqn:E; intros H; [| left; exact H].
  apply issues_of_fail in H. destruct H as [H | ->]; [left; exact H |].
  reflect_cmp. right. split; [reflexivity | assumption].
Qed.

Lemma issues_of_stage_riser_comfort (r : Q) (f : feasibility) :
  issues (stage_riser_comfort r f) = issues f.
Proof.
  unfold stage_riser_comfort.
  destruct (Qlt_bool r 17); [| destruct (Qlt_bool 23 r)]; reflexivity.
Qed.

Lemma issues_of_stage_tread_comfort (w : Q) (f : feasibility) :
  issues (stage_tread_comfort w f) = issues f.
Proof.
  unfold stage_tread_comfort.
  destruct (Qlt_bool w 28); [| destruct (Qlt_bool 35 w)]; reflexivity.
Qed.

Lemma issue_origin
    (height length : Q) (width angle : option Q) (steps : option Z)
    (step_width step_height : option Q) (projection : Q) (x : text) :
  In x (issues (check_installation_feasibility height length width angle steps
                  step_width step_height projection)) ->
  justified length width angle steps step_width step_height projection x.
Proof.
  unfold check_installation_feasibility, justified.
  assert (Hone : forall i : text,
             In x (issues (fail_with i {| possible := true; issues := [];
                                          warnings := [] |})) -> x = i).
  { intros i H. apply issues_of_fail in H. destruct H as [[] | H]. exact H. }
  destruct steps as [n |];
    [| intros H; apply Hone in H; left; split; [exact H | left; reflexivity]].
  destruct (n =? 0)%Z eqn:En.
  { intros H; apply Hone in H. reflect_cmp. subst n.
    left. split; [exact H | right; reflexivity]. }
  destruct step_width as [sw |];
    [| intros H; apply Hone in H; right; left; split;
       [exact H | left; reflexivity]].
  destruct step_height as [sh |];
    [| intros H; apply Hone in H; right; left; split;
       [exact H | right; left; reflexivity]].
  destruct (Qle_bool sw 0 || Qle_bool sh 0) eqn:E0.
  { intros H; apply Hone in H. right; left. split; [exact H |].
    apply orb_true_iff in E0. destruct E0 as [E | E]; reflect_cmp;
      [right; right; left; exists sw | right; right; right; exists sh];
      (split; [reflexivity | assumption]). }
  cbv zeta.
  rewrite issues_of_stage_tread_comfort, issues_of_stage_riser_comfort.
  intros H.
  apply issues_of_stage_projection in H.
  destruct H as [H | H]; [| do 10 right; exact H].
  apply issues_of_stage_opening_width in H.
  destruct H as [H | H]; [| do 9 right; left; exact H].
  apply issues_of_stage_max_steps in H.
  destruct H as [H | [H1 H2]];
    [| do 8 right; left; split; [exact H1 | exists n; split; [reflexivity | exact H2]]].
  apply issues_of_stage_min_steps in H.
  destruct H as [H | [H1 H2]];
    [| do 7 right; left; split; [exact H1 | exists n; split; [reflexivity | exact H2]]].
  apply issues_of_stage_tread in H.
  destruct H as [H | [H1 H2]];
    [| do 6 right; left; exists sw; repeat split; assumption].
  apply issues_of_stage_riser in H.
  destruct H as [H | [[H1 H2] | [H1 H2]]];
    [| do 4 right; left; exists sh; repeat split; assumption
     | do 5 right; left; exists sh; repeat split; assumption].
  apply issues_of_stage_angle in H.
  destruct H as [[] | [H | H]];
    [do 2 right; left; exact H | do 3 right; left; exact H].
Qed.

(** Every issue of a report is there for its reason: each of the eleven
    messages is recorded only when the condition the source tests for it
    holds of the arguments. *)
Theorem every_issue_is_justified
    (height length : Q) (width angle : option Q) (steps : option Z)
    (step_width step_height : option Q) (projection : Q) (x : text) :
  In x (issues (check_installation_feasibility height length width angle steps
                  step_width step_height projection)) ->
  justified length width angle steps step_width step_height projection x.
Proof.
  intros Hin.
  apply (issue_origin height length width angle steps step_width step_height
           projection x).
  exact Hin.
Qed.

Lemma every_issue_is_justified_witness :
  justified 150 None (Some 63.43) (Some 15%Z) (Some 30) (Some 20) 420
    (issue_too_long 420 150).
Proof.
  apply (every_issue_is_justified 300 150 None (Some 63.43) (Some 15%Z)
           (Some 30) (Some 20) 420).
  right. left. reflexivity.
Defined.

Lemma feasibility_possible_intro
    (height length : Q) (width : option Q) (a : Q) (n : Z) (w r projection : Q) :
  (3 <= n <= 25)%Z -> 25 <= w -> 15 <= r -> r <= 25 -> 30 <= a -> a <= 45 ->
  match width with
  | Some v => 80 <= v
  | None => True
  end ->
  projection <= length ->
  possible (check_installation_feasibility height length width (Some a) (Some n)
              (Some w) (Some r) projection) = true.
Proof.
  intros Hn Hw Hr1 Hr2 Ha1 Ha2 Hwd Hp.
  unfold check_installation_feasibility.
  destruct (Z.eqb_spec n 0) as [E | _]; [lia |].
  assert (E0 : Qle_bool w 0 || Qle_bool r 0 = false).
  { apply orb_false_iff. split; apply Qle_bool_false_iff; lra. }
  rewrite E0. cbv zeta.
  rewrite possible_stage_tread_comfort, possible_stage_riser_comfort,
    possible_stage_projection, possible_stage_opening_width,
    possible_stage_max_steps, possible_stage_min_steps, possible_stage_tread,
    possible_stage_riser, possible_stage_angle.
  assert (B1 : Qle_bool projection length = true) by (apply Qle_bool_iff; exact Hp).
  assert (B2 : (n <=? 25)%Z = true) by (apply Z.leb_le; lia).
  assert (B3 : (3 <=? n)%Z = true) by (apply Z.leb_le; lia).
  assert (B4 : Qle_bool 25 w = true) by (apply Qle_bool_iff; exact Hw).
  assert (B5 : Qle_bool 15 r = true) by (apply Qle_bool_iff; exact Hr1).
  assert (B6 : Qle_bool r 25 = true) by (apply Qle_bool_iff; exact Hr2).
  assert (B7 : Qle_bool 30 a = true) by (apply Qle_bool_iff; exact Ha1).
  assert (B8 : Qle_bool a 45 = true) by (apply Qle_bool_iff; exact Ha2).
  rewrite B1, B2, B3, B4, B5, B6, B7, B8.
  destruct width as [wd |]; [| reflexivity].
  apply Qle_bool_iff in Hwd. rewrite Hwd. reflexivity.
Qed.

(** The report is complete: [possible] is true exactly when the step count,
    the tread and the riser are there and every hard check passes (a riser
    and a tread within their bounds are positive, so the two pre-conditions
    hold as well).  The warnings play no part. *)
Theorem possible_exactly
    (height length : Q) (width angle : option Q) (steps : option Z)
    (step_width step_height : option Q) (projection : Q) :
  possible (check_installation_feasibility height length width angle steps
              step_width step_height projection) = true
  <-> (exists n, steps = Some n /\ (3 <= n <= 25)%Z)
      /\ (exists w, step_width = Some w /\ 25 <= w)
      /\ (exists r, step_height = Some r /\ 15 <= r /\ r <= 25)
      /\ (exists a, angle = Some a /\ 30 <= a /\ a <= 45)
      /\ match width with
         | Some w => 80 <= w
         | None => True
         end
      /\ projection <= length.
Proof.
  split.
  - intros P. apply feasibility_possible_inv in P.
    destruct P as ((n & Hn & _ & Hr) & Hw & Hh & Ha & Hwd & Hp).
    repeat split; eauto.
    destruct width as [w |]; [apply Hwd; reflexivity | exact I].
  - intros ((n & -> & Hn) & (w & -> & Hw) & (r & -> & Hr1 & Hr2)
            & (a & -> & Ha1 & Ha2) & Hwd & Hp).
    apply feasibility_possible_intro; assumption.
Qed.

(** ** More on the orchestrator *)

(** What an accepted opening resolves to, in any mode: a natural number of
    steps, a positive riser and a tread of at least 25. *)
Lemma resolved_steps_shape
    (height length : Q) (width step_height step_width : option Q)
    (n : Z) (msg : string) (ah aw : option Q) :
  accepted height length width ->
  calculate_steps height length step_height step_width = Ok (Some n, msg, ah, aw) ->
  (0 <= n)%Z
  /\ (exists r, ah = Some r /\ 0 < r /\ (step_height = None -> step_width = None ->
                                         n = round (height / 20)
                                         /\ r = height / inject_Z n /\ (1 <= n)%Z)
                /\ (step_height <> None \/ step_width <> None ->
                    n = round (riser_quotient height step_height)
                    /\ 15 <= r /\ r <= 25))
  /\ (exists w, aw = Some w /\ 25 <= w).
Proof.
  intros (Hh & _) Hrun.
  destruct step_height as [sh |] eqn:Esh, step_width as [sw |] eqn:Esw;
    try (rewrite <- Esh, <- Esw in Hrun;
         assert (Hg : step_height <> None \/ step_width <> None)
           by (subst; (left + right); discriminate);
         destruct (calculate_steps_given height length _ _ Hg)
           as [(m & Hm) | (m & r & w & Hm & Hr & Hw & Er & _)];
         rewrite Hm in Hrun; [discriminate |];
         injection Hrun as <- _ <- <-;
         split; [apply round_quotient; [exact Hh | rewrite <- Er; lra] |];
         split; [exists r; split; [reflexivity |]; split; [lra |];
                 split; [intros; subst; discriminate
                        | intros _; rewrite <- Esh; repeat split; lra]
                | exists w; split; [reflexivity | exact Hw]]).
  rewrite calculate_steps_standard in Hrun.
  destruct (Z.eqb_spec (round (height / 20)) 0) as [E | E]; [discriminate |].
  injection Hrun as <- _ <- <-.
  assert (Hp : (1 <= round (height / 20))%Z).
  { destruct (Qlt_le_dec 10 height) as [Hgt | Hle].
    - pose proof (twentieth height). apply round_pos. lra.
    - exfalso. apply E. apply round_twentieth_zero; assumption. }
  split; [lia |]. split.
  - eexists. split; [reflexivity |]. split.
    + apply Qlt_shift_div_l; [| lra].
      rewrite Zle_Qle in Hp. change (inject_Z 1) with 1 in Hp. lra.
    + split; [intros _ _; repeat split; assumption |].
      intros [H | H]; contradiction.
  - exists 30. split; [reflexivity | discriminate].
Qed.

Lemma calculate_all_resolved_exact
    (height length : Q) (width angle step_height step_width : option Q) (t : Z)
    (n : Z) (msg : string) (ah aw : option Q) :
  accepted height length width ->
  calculate_steps height length step_height step_width = Ok (Some n, msg, ah, aw) ->
  let fp := footprint_entry n aw t in
  let f :=
    check_installation_feasibility height length width
      (Some (or_zero (fst (calculate_angle height length angle)))) (Some n)
      (Some (or_zero aw)) (Some (or_zero ah)) (projection_entry fp) in
  calculate_all height length width angle step_height step_width t
  = (sg <- (if negb (possible f)
            then s <- suggest_optimal_parameters height length width ;; ret (Some s)
            else ret None) ;;
     ret (full_result height length width angle step_height step_width t
            n msg ah aw fp f sg)).
Proof.
  intros Hacc Hrun. unfold calculate_all.
  apply validation_gate in Hacc. rewrite Hacc.
  unfold full_result, angle_info_of, length_info_of, footprint_entry, projection_entry.
  destruct (calculate_angle height length angle) as [ca am].
  rewrite Hrun. cbn [bind fst snd].
  destruct (calculate_length height length ca) as [ll lm].
  cbn [fst snd].
  destruct aw as [w |]; [| reflexivity].
  destruct (negb (n =? 0)%Z && truthy w); reflexivity.
Qed.

(** Every way [calculate_all] returns: the validation message alone, the
    early failure with the suggestions, or the full result, with the
    suggestions attached exactly when the report says no. *)
Lemma calculate_all_inversion
    (height length : Q) (width angle step_height step_width : option Q) (t : Z)
    (r : result) :
  calculate_all height length width angle step_height step_width t = Ok r ->
  (~ accepted height length width
   /\ r = error_only (validate_inputs height length width))
  \/ (accepted height length width
      /\ exists msg ah aw s,
           calculate_steps height length step_height step_width = Ok (None, msg, ah, aw)
           /\ suggest_optimal_parameters height length width = Ok s
           /\ r = early_failure height length width angle step_height step_width t msg s)
  \/ (accepted height length width
      /\ exists n msg ah aw sg,
           calculate_steps height length step_height step_width
           = Ok (Some n, msg, ah, aw)
           /\ r = full_result height length width angle step_height step_width t
                    n msg ah aw (footprint_entry n aw t)
                    (report_of height length width angle t n ah aw) sg
           /\ ((possible (report_of height length width angle t n ah aw) = true
                /\ sg = None)
               \/ (possible (report_of height length width angle t n ah aw) = false
                   /\ exists s, suggest_optimal_parameters height length width = Ok s
                                /\ sg = Some s))).
Proof.
  intros Hall.
  destruct (negb (String.eqb (validate_inputs height length width) EmptyString)) eqn:G.
  - left. split.
    + intros Hacc. apply validation_gate in Hacc. congruence.
    + unfold calculate_all in Hall. rewrite G in Hall. injection Hall as <-.
      reflexivity.
  - right. apply validation_gate in G.
    destruct (calculate_steps height length step_height step_width)
      as [[[[[n |] msg] ah] aw] | e] eqn:Hm.
    + right. split; [exact G |].
      pose proof (calculate_all_resolved_exact _ _ _ angle _ _ t _ _ _ _ G Hm) as Hres.
      cbv zeta in Hres. fold (report_of height length width angle t n ah aw) in Hres.
      rewrite Hres in Hall.
      destruct (possible (report_of height length width angle t n ah aw)) eqn:P;
        cbn [negb] in Hall.
      * injection Hall as <-. exists n, msg, ah, aw, None.
        split; [reflexivity |]. split; [reflexivity |]. left.
        split; [exact P | reflexivity].
      * destruct (suggest_optimal_parameters height length width) as [s | e] eqn:Hs;
          [| discriminate].
        injection Hall as <-. exists n, msg, ah, aw, (Some s).
        split; [reflexivity |]. split; [reflexivity |]. right.
        split; [exact P |]. exists s. split; reflexivity.
    + left. split; [exact G |].
      rewrite (calculate_all_unresolved _ _ _ _ _ _ _ _ _ _ G Hm) in Hall.
      destruct (suggest_optimal_parameters height length width) as [s | e] eqn:Hs;
        [| discriminate].
      injection Hall as <-. exists msg, ah, aw, s. repeat split; reflexivity.
    + rewrite (calculate_all_steps_raise _ _ _ _ _ _ _ _ G Hm) in Hall. discriminate.
Qed.

(** A result is an error or a full result, never a mixture: with an "error"
    key there are no steps, ladder length, footprint, feasibility or parts;
    without it the steps, the ladder length, the report and the parts are all
    there, the parts count one tread and one riser per step, and the
    suggestions are attached exactly when the report is not [possible]. *)
Theorem result_is_error_or_full
    (height length : Q) (width angle step_height step_width : option Q) (t : Z)
    (r : result) :
  calculate_all height length width angle step_height step_width t = Ok r ->
  (exists msg, r_error r = Some msg /\ r_steps r = None /\ r_ladder_length r = None
               /\ r_footprint r = None /\ r_feasibility r = None /\ r_parts r = None)
  \/ (r_error r = None
      /\ exists st li f p,
           r_steps r = Some st /\ r_ladder_length r = Some li
           /\ r_feasibility r = Some f /\ r_parts r = Some p
           /\ treads p = steps_count st /\ risers p = steps_count st
           /\ present (r_suggestions r) = negb (possible f)).
Proof.
  intros Hall. apply calculate_all_inversion in Hall.
  destruct Hall as [(_ & ->) | [(_ & msg & ah & aw & s & _ & _ & ->)
                                | (_ & n & msg & ah & aw & sg & _ & -> & Hsg)]].
  - left. eexists. repeat split; reflexivity.
  - left. eexists. repeat split; reflexivity.
  - right. split; [reflexivity |].
    do 4 eexists. repeat split; try reflexivity.
    cbn [full_result r_suggestions].
    destruct Hsg as [(P & ->) | (P & s & _ & ->)]; rewrite P; reflexivity.
Qed.

Lemma result_is_error_or_full_witness :
  exists r,
    calculate_all 300 150 None None None None 1 = Ok r
    /\ ((exists msg, r_error r = Some msg /\ r_steps r = None
                     /\ r_ladder_length r = None /\ r_footprint r = None
                     /\ r_feasibility r = None /\ r_parts r = None)
        \/ (r_error r = None
            /\ exists st li f p,
                 r_steps r = Some st /\ r_ladder_length r = Some li
                 /\ r_feasibility r = Some f /\ r_parts r = Some p
                 /\ treads p = steps_count st /\ risers p = steps_count st
                 /\ present (r_suggestions r) = negb (possible f))).
Proof.
  assert (H : exists r, calculate_all 300 150 None None None None 1 = Ok r).
  { eexists. vm_compute. reflexivity. }
  destruct H as (r & Hr).
  exists r. split; [exact Hr |].
  exact (result_is_error_or_full 300 150 None None None None 1 r Hr).
Defined.

Lemma footprint_of_positive (n : Z) (w : Q) (t : Z) :
  (0 < n)%Z -> 0 < w ->
  fp_error (calculate_ladder_footprint n w t) = None
  /\ exists p, fp_horizontal_projection (calculate_ladder_footprint n w t) = Some p.
Proof.
  intros Hn Hw. unfold calculate_ladder_footprint.
  assert (E1 : (n <=? 0)%Z = false) by (apply Z.leb_gt; exact Hn).
  assert (E2 : Qle_bool w 0 = false) by (apply Qle_bool_false_iff; exact Hw).
  rewrite E1, E2. cbn [orb].
  destruct (t =? 1)%Z; [| destruct (t =? 2)%Z; [| destruct (t =? 3)%Z]];
    (split; [reflexivity | eexists; reflexivity]).
Qed.

Lemma truthy_positive (w : Q) : 0 < w -> truthy w = true.
Proof.
  intros Hw. unfold truthy. destruct (Qeq_bool w 0) eqn:E; [| reflexivity].
  apply Qeq_bool_eq in E. lra.
Qed.

(** Through [calculate_all] the footprint never fails: a full result has no
    footprint entry exactly when zero steps were resolved, and otherwise the
    entry carries a projection and no "error" key. *)
Theorem footprint_entry_never_fails
    (height length : Q) (width angle step_height step_width : option Q) (t : Z)
    (r : result) (st : steps_info) :
  calculate_all height length width angle step_height step_width t = Ok r ->
  r_steps r = Some st ->
  match r_footprint r with
  | None => steps_count st = 0%Z
  | Some fp =>
      (0 < steps_count st)%Z /\ fp_error fp = None
      /\ exists p, fp_horizontal_projection fp = Some p
  end.
Proof.
  intros Hall Hst. apply calculate_all_inversion in Hall.
  destruct Hall as [(_ & ->) | [(_ & msg & ah & aw & s & _ & _ & ->)
                                | (Hacc & n & msg & ah & aw & sg & Hm & -> & _)]];
    try discriminate.
  injection Hst as <-. cbn [full_result r_footprint steps_count].
  destruct (resolved_steps_shape _ _ _ _ _ _ _ _ _ Hacc Hm)
    as (Hn & _ & (w & -> & Hw)).
  unfold footprint_entry. rewrite truthy_positive by lra.
  destruct (Z.eqb_spec n 0) as [E | E]; cbn [negb andb]; [exact E |].
  split; [lia |]. apply footprint_of_positive; [lia | lra].
Qed.

Lemma footprint_entry_never_fails_witness :
  exists r st,
    calculate_all 270 400 None None None None 2 = Ok r
    /\ r_steps r = Some st
    /\ match r_footprint r with
       | None => steps_count st = 0%Z
       | Some fp =>
           (0 < steps_count st)%Z /\ fp_error fp = None
           /\ exists p, fp_horizontal_projection fp = Some p
       end.
Proof.
  do 2 eexists. split; [vm_compute; reflexivity |]. split; [reflexivity |].
  eapply (footprint_entry_never_fails 270 400 None None None None 2).
  - vm_compute. reflexivity.
  - reflexivity.
Defined.

(** ** The angle and the ladder length *)

(** For a height and a length within the range of the doubles (up to
    [10 ^ 300] in size: a larger [int] cannot be divided as a float), the
    angle is missing in one case only, no override with a length of zero; the
    handler of the [try] is never entered. *)
Theorem angle_missing_only_for_zero_length (height length : Q) (angle : option Q) :
  Qabs height <= 10 ^ 300 -> Qabs length <= 10 ^ 300 ->
  (fst (calculate_angle height length angle) = None
   <-> angle = None /\ length == 0)
  /\ snd (calculate_angle height length angle) <> "Ошибка при расчете угла"%string.
Proof.
  intros _ _. unfold calculate_angle, div.
  destruct angle as [a |].
  - split; [| discriminate]. split; [discriminate | intros [H _]; discriminate].
  - destruct (Qeq_bool length 0) eqn:E; cbn [bind ret fst snd].
    + split; [| discriminate]. split; [| reflexivity].
      intros _. split; [reflexivity | apply Qeq_bool_eq; exact E].
    + split; [| discriminate]. split; [discriminate |].
      intros [_ H]. apply Qeq_bool_neq in E. contradiction.
Qed.

Lemma angle_missing_only_for_zero_length_witness :
  (fst (calculate_angle 270 0 None) = None <-> @None Q = None /\ 0 == 0)
  /\ snd (calculate_angle 270 0 None) <> "Ошибка при расчете угла"%string.
Proof.
  apply angle_missing_only_for_zero_length; vm_compute; discriminate.
Defined.

Lemma accepted_angle (height length : Q) (width angle : option Q) :
  accepted height length width ->
  exists a, fst (calculate_angle height length angle) = Some a.
Proof.
  intros (_ & _ & Hl & _). unfold calculate_angle, div.
  destruct angle as [a |]; [exists a; reflexivity |].
  destruct (Qeq_bool length 0) eqn:E.
  - apply Qeq_bool_eq in E. lra.
  - cbn [bind ret fst]. eexists. reflexivity.
Qed.



(** Without a supplied riser (modes 1 and 3) an accepted height gives at most
    25 steps, so through [calculate_all] the report never holds the issue of
    too many steps. *)
Theorem too_many_steps_needs_a_riser
    (height length : Q) (width angle step_width : option Q) (t : Z)
    (r : result) (f : feasibility) :
  calculate_all height length width angle None step_width t = Ok r ->
  r_feasibility r = Some f ->
  ~ In issue_many_steps (issues f).
Proof.
  intros Hall Hf Hin. apply calculate_all_inversion in Hall.
  destruct Hall as [(_ & ->) | [(_ & msg & ah & aw & s & _ & _ & ->)
                                | (Hacc & n & msg & ah & aw & sg & Hm & -> & _)]];
    try discriminate.
  injection Hf as <-. unfold report_of in Hin.
  apply issue_origin in Hin. unfold justified in Hin.
  assert (Hn : (n <= 25)%Z).
  { destruct Hacc as (Hh & H500 & _).
    assert (Hq : height / 20 <= 25) by (pose proof (twentieth height); lra).
    assert (En : n = round (height / 20)).
    { destruct step_width as [sw |].
      - destruct (calculate_steps_given height length None (Some sw))
          as [(m & Hm') | (m & r' & w & Hm' & _)]; [right; discriminate | |];
          rewrite Hm' in Hm; [discriminate |].
        injection Hm as <- _ <- _.
        clear - Hm'. unfold calculate_steps, steps_error, ret in Hm'.
        destruct (Qle_bool sw 0); [discriminate |].
        destruct (Qlt_bool sw min_step_width); [discriminate |].
        cbn in Hm'. injection Hm'; intros; subst; reflexivity.
      - rewrite calculate_steps_standard in Hm.
        destruct (round (height / 20) =? 0)%Z; [discriminate |].
        injection Hm as <- _ _ _. reflexivity. }
    subst n. change 25%Z with (round 25). apply round_monotone. exact Hq. }
  repeat match goal with
    | H : _ \/ _ |- _ => destruct H as [H | H]
    end;
    try (destruct Hin as [Hx _]; discriminate Hx);
    try (destruct Hin as (y & Hx & _); discriminate Hx).
  destruct Hin as (_ & m & [= <-] & Hm25). lia.
Qed.

Lemma too_many_steps_needs_a_riser_witness :
  exists r f,
    calculate_all 500 1000 None None None None 1 = Ok r
    /\ r_feasibility r = Some f
    /\ ~ In issue_many_steps (issues f).
Proof.
  do 2 eexists. split; [vm_compute; reflexivity |]. split; [reflexivity |].
  eapply (too_many_steps_needs_a_riser 500 1000 None None None 1).
  - vm_compute. reflexivity.
  - reflexivity.
Defined.

(** ** More on the suggestions *)

(** [round(x, 2)] of a whole number is the number. *)
Lemma round2_whole (q : Q) (k : Z) : q == inject_Z k -> round2 q == q.
Proof.
  intros H. unfold round2.
  assert (E : q * 100 == inject_Z (k * 100)).
  { rewrite inject_Z_mult, H. reflexivity. }
  rewrite (round_comp _ _ E), round_inject_Z, inject_Z_mult, H.
  change (inject_Z 100) with 100. field.
Qed.

Lemma round2_keeps_riser_bounds (x : Q) :
  15 <= x -> x <= 25 -> 15 <= round2 x /\ round2 x <= 25.
Proof.
  intros H1 H2. split.
  - apply Qle_trans with (round2 15); [discriminate | apply round2_monotone; exact H1].
  - apply Qle_trans with (round2 25); [apply round2_monotone; exact H2 | discriminate].
Qed.

Lemma spec_eligible_true (height available_length : Q) (n : Z) :
  spec_eligible height available_length n = true
  <-> 15 <= height / inject_Z n /\ height / inject_Z n <= 25
      /\ inject_Z (n - 1) * 30 <= available_length.
Proof.
  unfold spec_eligible. rewrite !andb_true_iff, !Qle_bool_iff. tauto.
Qed.

Lemma standard_fits_true (height available_length : Q) :
  standard_fits height available_length = true
  <-> 15 <= height / inject_Z (round (height / 20))
      /\ height / inject_Z (round (height / 20)) <= 25
      /\ inject_Z (round (height / 20) - 1) * 30 <= available_length.
Proof.
  unfold standard_fits. cbv zeta.
  change standard_step_height with 20. change standard_step_width with 30.
  change min_step_height with 15. change max_step_height with 25.
  rewrite !andb_true_iff, !Qle_bool_iff. tauto.
Qed.

(** The best option can be built: its stored values are 3 to 25 steps, a
    riser within [15, 25], the tread 30 and a projection within the available
    length, so that the feasibility check accepts them at any angle within
    [30, 45] and any acceptable width. *)
Theorem best_option_is_installable
    (height available_length : Q) (available_width : option Q)
    (s : suggestions) (v : variant) :
  suggest_optimal_parameters height available_length available_width = Ok s ->
  best_option s = Some v ->
  (3 <= v_steps v <= 25)%Z
  /\ 15 <= v_height v /\ v_height v <= 25
  /\ v_width v = 30
  /\ v_projection v <= available_length
  /\ forall (a : Q) (width : option Q),
       30 <= a -> a <= 45 ->
       match width with
       | Some w => 80 <= w
       | None => True
       end ->
       possible (check_installation_feasibility height available_length width
                   (Some a) (Some (v_steps v)) (Some (v_width v))
                   (Some (v_height v)) (v_projection v)) = true.
Proof.
  intros Hs Hv.
  destruct (Z.eq_dec (round (height / 20)) 0) as [H0 | H0].
  { rewrite suggest_raises in Hs by exact H0. discriminate. }
  destruct (suggest_outcome height available_length available_width H0)
    as (s' & m & b & Hs' & Hres & _ & Hbest & _).
  rewrite Hs in Hs'. injection Hs' as <-.
  rewrite Hbest in Hv.
  destruct Hres as [(-> & _) | (-> & (Hr & He & _))]; [discriminate |].
  destruct (present _ && _); [| discriminate].
  injection Hv as <-.
  apply spec_eligible_true in He. destruct He as (E1 & E2 & E3).
  cbn [best_params_of v_steps v_height v_width v_projection].
  change standard_step_width with 30.
  destruct (round2_keeps_riser_bounds _ E1 E2) as [R1 R2].
  assert (Hp : round2 (inject_Z (m - 1) * 30) == inject_Z (m - 1) * 30).
  { apply (round2_whole _ ((m - 1) * 30)). rewrite inject_Z_mult. reflexivity. }
  assert (Hfit : round2 (inject_Z (m - 1) * 30) <= available_length)
    by (rewrite Hp; exact E3).
  repeat split; try assumption; try lia.
  intros a width Ha1 Ha2 Hwd.
  apply feasibility_possible_intro; try assumption; try lra.
Qed.

Lemma best_option_is_installable_witness :
  exists s v,
    suggest_optimal_parameters 300 360 None = Ok s
    /\ best_option s = Some v
    /\ (3 <= v_steps v <= 25)%Z
    /\ 15 <= v_height v /\ v_height v <= 25
    /\ v_width v = 30
    /\ v_projection v <= 360
    /\ forall (a : Q) (width : option Q),
         30 <= a -> a <= 45 ->
         match width with
         | Some w => 80 <= w
         | None => True
         end ->
         possible (check_installation_feasibility 300 360 width
                     (Some a) (Some (v_steps v)) (Some (v_width v))
                     (Some (v_height v)) (v_projection v)) = true.
Proof.
  do 2 eexists. split; [vm_compute; reflexivity |]. split; [reflexivity |].
  eapply (best_option_is_installable 300 360 None).
  - vm_compute. reflexivity.
  - reflexivity.
Defined.

(** Best and minimum option exclude each other, and the minimum option is
    there exactly when the two others are not. *)
Lemma minimum_option_only_as_last_resort_aux
    (height available_length : Q) (available_width : option Q) (s : suggestions) :
  suggest_optimal_parameters height available_length available_width = Ok s ->
  (best_option s = None \/ minimum_option s = None)
  /\ ((exists v, minimum_option s = Some v)
      <-> standard_option s = None /\ best_option s = None).
Proof.
  intros Hs.
  destruct (Z.eq_dec (round (height / 20)) 0) as [H0 | H0].
  { rewrite suggest_raises in Hs by exact H0. discriminate. }
  destruct (suggest_outcome height available_length available_width H0)
    as (s' & m & b & Hs' & _ & _ & _ & Hmin).
  rewrite Hs in Hs'. injection Hs' as <-.
  rewrite Hmin.
  destruct (standard_option s) as [vs |], (best_option s) as [vb |];
    cbn [present negb andb];
    (split; [tauto |]);
    (split; [intros (v & Hv); try discriminate; tauto
            | intros (Ha & Hb); try discriminate; eexists; reflexivity]).
Qed.

Lemma suggest_message
    (height available_length : Q) (available_width : option Q) (s : suggestions) :
  suggest_optimal_parameters height available_length available_width = Ok s ->
  message s
  = (if present (minimum_option s)
     then "Рекомендуемые минимальные параметры (ширина ступени 30 см)"
     else if present (standard_option s)
     then "Найдено решение с использованием стандартных элементов 30x20 см"
     else "Предложения по оптимизации под стандарт 30x20 см")%string.
Proof.
  destruct (Z.eq_dec (round (height / 20)) 0) as [H0 | H0].
  { rewrite suggest_raises by exact H0. discriminate. }
  destruct (search_result height available_length) as (m & b & Hrun & _).
  unfold suggest_optimal_parameters.
  change (div height standard_step_height) with (Ok (height / 20)).
  cbn [bind]. rewrite (div_nonzero _ _ H0). cbn [bind].
  rewrite Hrun. cbn [bind].
  change (div height max_step_height) with (Ok (height / 25)).
  cbn [bind]. rewrite div_nonzero by lia. cbn [bind ret].
  destruct (Qle_bool _ _ && (Qle_bool _ _ && Qle_bool _ _));
    destruct b as [v |]; destruct (m =? round (height / 20))%Z;
    cbn [present negb andb orb];
    intros [= <-]; reflexivity.
Qed.

(** The message of the suggestions names the tier that produced them, and the
    message for a best option found alone is never used: the test that guards
    it looks for "стандарт" in a message that always contains it, so a best
    option without a standard one keeps the opening message. *)
Theorem suggestions_message_by_tier
    (height available_length : Q) (available_width : option Q) (s : suggestions) :
  suggest_optimal_parameters height available_length available_width = Ok s ->
  message s
  <> "Найдены подходящие параметры (ширина ступени фиксирована 30 см)"%string
  /\ (message s = "Рекомендуемые минимальные параметры (ширина ступени 30 см)"%string
      <-> exists v, minimum_option s = Some v)
  /\ (message s = "Найдено решение с использованием стандартных элементов 30x20 см"%string
      <-> exists v, standard_option s = Some v)
  /\ (message s = "Предложения по оптимизации под стандарт 30x20 см"%string
      <-> (exists v, best_option s = Some v) /\ standard_option s = None).
Proof.
  intros Hs.
  pose proof (suggest_message _ _ _ _ Hs) as Hmsg.
  pose proof (minimum_option_only_as_last_resort_aux
                height available_length available_width s Hs) as (Hex & Hmin).
  rewrite Hmsg. clear Hmsg.
  destruct (minimum_option s) as [vm |], (standard_option s) as [vs |],
    (best_option s) as [vb |]; cbn [present].
  all: try (exfalso; destruct Hex as [Hx | Hx]; discriminate).
  all: try (exfalso; destruct (proj1 Hmin (ex_intro _ vm eq_refl)) as [Hx Hy];
            discriminate).
  all: try (exfalso; destruct (proj2 Hmin (conj eq_refl eq_refl)) as (v & Hv);
            discriminate).
  all: split; [discriminate |]; split; [| split]; split; intros H;
    first [ discriminate H
          | destruct H as (v & Hv); discriminate Hv
          | destruct H as [[v Hv] Hn]; first [discriminate Hv | discriminate Hn]
          | reflexivity
          | eexists; reflexivity
          | split; [eexists; reflexivity | reflexivity] ].
Qed.

Lemma suggestions_message_by_tier_witness :
  exists s,
    suggest_optimal_parameters 300 360 None = Ok s
    /\ message s
       <> "Найдены подходящие параметры (ширина ступени фиксирована 30 см)"%string
    /\ (message s = "Рекомендуемые минимальные параметры (ширина ступени 30 см)"%string
        <-> exists v, minimum_option s = Some v)
    /\ (message s = "Найдено решение с использованием стандартных элементов 30x20 см"%string
        <-> exists v, standard_option s = Some v)
    /\ (message s = "Предложения по оптимизации под стандарт 30x20 см"%string
        <-> (exists v, best_option s = Some v) /\ standard_option s = None).
Proof.
  eexists. split; [vm_compute; reflexivity |].
  eapply (suggestions_message_by_tier 300 360 None).
  vm_compute. reflexivity.
Defined.

(** A best option offered beside the standard one is a real alternative: for
    an accepted height it has more steps than the standard option. *)
Theorem best_option_beside_standard_has_more_steps
    (height available_length : Q) (available_width : option Q)
    (s : suggestions) (so vb : variant) :
  0 < height -> height <= 500 ->
  suggest_optimal_parameters height available_length available_width = Ok s ->
  standard_option s = Some so ->
  best_option s = Some vb ->
  (v_steps so < v_steps vb)%Z.
Proof.
  intros Hh H500 Hs Hso Hvb.
  destruct (Z.eq_dec (round (height / 20)) 0) as [H0 | H0].
  { rewrite suggest_raises in Hs by exact H0. discriminate. }
  destruct (suggest_outcome height available_length available_width H0)
    as (s' & m & b & Hs' & Hres & Hstd & Hbest & _).
  rewrite Hs in Hs'. injection Hs' as <-.
  rewrite Hstd in Hso. rewrite Hbest in Hvb.
  destruct (standard_fits height available_length) eqn:Efit; [| discriminate].
  injection Hso as <-.
  change (v_steps (standard_params_of height)) with (round (height / 20)).
  destruct Hres as [(-> & _) | (-> & (Hr & He & Hmax))]; [discriminate |].
  cbn [present negb andb orb] in Hvb. rewrite orb_false_r in Hvb.
  destruct (Z.eqb_spec m (round (height / 20))) as [E | E]; [discriminate |].
  injection Hvb as <-. cbn [best_params_of v_steps].
  assert (H25 : (round (height / 20) <= 25)%Z).
  { change 25%Z with (round 25). apply round_monotone.
    pose proof (twentieth height). lra. }
  destruct (Z.lt_ge_cases (round (height / 20)) 3) as [Hlow | Hge]; [lia |].
  assert (Hle : (round (height / 20) <= m)%Z).
  { apply Hmax; [lia |]. apply spec_eligible_true.
    apply standard_fits_true. exact Efit. }
  lia.
Qed.

Lemma best_option_beside_standard_has_more_steps_witness :
  exists s so vb,
    suggest_optimal_parameters 250 400 None = Ok s
    /\ standard_option s = Some so
    /\ best_option s = Some vb
    /\ (v_steps so < v_steps vb)%Z.
Proof.
  do 3 eexists. split; [vm_compute; reflexivity |].
  split; [reflexivity |]. split; [reflexivity |].
  eapply (best_option_beside_standard_has_more_steps 250 400 None).
  - reflexivity.
  - discriminate.
  - vm_compute. reflexivity.
  - reflexivity.
  - reflexivity.
Defined.

(** The minimum option is a fallback that itself does not pass the checks:
    for an accepted height it has 3 to 20 steps, and either its riser
    [height / steps] is outside [15, 25] or its projection is longer than the
    available length. *)
Theorem minimum_option_does_not_fit
    (height available_length : Q) (available_width : option Q)
    (s : suggestions) (v : variant) :
  0 < height -> height <= 500 ->
  suggest_optimal_parameters height available_length available_width = Ok s ->
  minimum_option s = Some v ->
  (3 <= v_steps v <= 20)%Z
  /\ (height / inject_Z (v_steps v) < 15
      \/ 25 < height / inject_Z (v_steps v)
      \/ available_length < inject_Z (v_steps v - 1) * 30).
Proof.
  intros Hh H500 Hs Hv.
  destruct (Z.eq_dec (round (height / 20)) 0) as [H0 | H0].
  { rewrite suggest_raises in Hs by exact H0. discriminate. }
  destruct (suggest_outcome height available_length available_width H0)
    as (s' & m & b & Hs' & Hres & Hstd & Hbest & Hmin).
  rewrite Hs in Hs'. injection Hs' as <-.
  rewrite Hmin, Hbest, Hstd in Hv. clear Hmin Hbest Hstd.
  assert (Hnone : forall n, (3 <= n <= 25)%Z ->
                            spec_eligible height available_length n = false).
  { destruct (standard_fits height available_length); [discriminate |].
    destruct Hres as [(-> & Hnone) | (-> & _)]; [exact Hnone |].
    cbn [present negb andb orb] in Hv. rewrite orb_true_r in Hv. discriminate. }
  destruct (negb _ && negb _); [| discriminate].
  injection Hv as <-.
  change (v_steps (minimum_params_of height))
    with (Z.max 3 (round (height / 25))).
  assert (H20 : (round (height / 25) <= 20)%Z).
  { change 20%Z with (round 20). apply round_monotone.
    apply Qle_shift_div_r; [reflexivity | lra]. }
  split; [lia |].
  specialize (Hnone (Z.max 3 (round (height / 25)))).
  assert (Hin : (3 <= Z.max 3 (round (height / 25)) <= 25)%Z) by lia.
  specialize (Hnone Hin).
  set (n := Z.max 3 (round (height / 25))) in *.
  destruct (Qlt_le_dec (height / inject_Z n) 15) as [H1 | H1]; [left; exact H1 |].
  destruct (Qlt_le_dec 25 (height / inject_Z n)) as [H2 | H2];
    [right; left; exact H2 |].
  destruct (Qlt_le_dec available_length (inject_Z (n - 1) * 30)) as [H3 | H3];
    [right; right; exact H3 |].
  exfalso.
  assert (Ht : spec_eligible height available_length n = true)
    by (apply spec_eligible_true; repeat split; assumption).
  congruence.
Qed.

Lemma minimum_option_does_not_fit_witness :
  exists s v,
    suggest_optimal_parameters 300 150 None = Ok s
    /\ minimum_option s = Some v
    /\ (3 <= v_steps v <= 20)%Z
    /\ (300 / inject_Z (v_steps v) < 15
        \/ 25 < 300 / inject_Z (v_steps v)
        \/ 150 < inject_Z (v_steps v - 1) * 30).
Proof.
  do 2 eexists. split; [vm_compute; reflexivity |]. split; [reflexivity |].
  eapply (minimum_option_does_not_fit 300 150 None).
  - reflexivity.
  - discriminate.
  - vm_compute. reflexivity.
  - reflexivity.
Defined.

(** With no riser and no tread supplied, a standard option among the attached
    suggestions repeats the resolution it comes with: it has the step count
    and the riser of the result's own steps. *)
Theorem standard_option_repeats_the_result
    (height length : Q) (width angle : option Q) (t : Z)
    (r : result) (st : steps_info) (s : suggestions) (so : variant) :
  calculate_all height length width angle None None t = Ok r ->
  r_steps r = Some st ->
  r_suggestions r = Some s ->
  standard_option s = Some so ->
  v_steps so = steps_count st
  /\ steps_actual_height st = Some (v_height so)
  /\ steps_actual_width st = Some (round2 (v_width so)).
Proof.
  intros Hall Hst Hsg Hso. apply calculate_all_inversion in Hall.
  destruct Hall as [(_ & ->) | [(_ & msg & ah & aw & s0 & _ & _ & ->)
                                | (Hacc & n & msg & ah & aw & sg & Hm & -> & Hposs)]];
    try discriminate.
  injection Hst as <-. cbn [full_result r_suggestions] in Hsg. subst sg.
  destruct Hposs as [(_ & [=]) | (_ & s1 & Hs & [= <-])].
  rewrite calculate_steps_standard in Hm.
  destruct (Z.eqb_spec (round (height / 20)) 0) as [E | E]; [discriminate |].
  injection Hm as <- _ <- <-.
  destruct (suggest_outcome height length width E)
    as (s' & m & b & Hs' & _ & Hstd & _).
  rewrite Hs in Hs'. injection Hs' as <-.
  rewrite Hstd in Hso.
  destruct (standard_fits height length) eqn:Efit; [| discriminate].
  injection Hso as <-.
  apply standard_fits_true in Efit. destruct Efit as (E1 & _).
  cbn [steps_count steps_actual_height steps_actual_width round2_if].
  rewrite truthy_positive by lra.
  repeat split; reflexivity.
Qed.

Lemma standard_option_repeats_the_result_witness :
  exists r st s so,
    calculate_all 270 600 None None None None 1 = Ok r
    /\ r_steps r = Some st
    /\ r_suggestions r = Some s
    /\ standard_option s = Some so
    /\ v_steps so = steps_count st
    /\ steps_actual_height st = Some (v_height so)
    /\ steps_actual_width st = Some (round2 (v_width so)).
Proof.
  do 4 eexists. split; [vm_compute; reflexivity |].
  split; [reflexivity |]. split; [reflexivity |]. split; [reflexivity |].
  eapply (standard_option_repeats_the_result 270 600 None None 1).
  - vm_compute. reflexivity.
  - reflexivity.
  - reflexivity.
  - reflexivity.
Defined.

(** ** More on the footprint and the parts *)

(** The integer within one half of [x], ties resolved to the even side, is
    [round x]. *)
Lemma round_char (x : Q) (n : Z) :
  inject_Z n - (1 # 2) <= x -> x <= inject_Z n + (1 # 2) ->
  (x == inject_Z n + (1 # 2) \/ x == inject_Z n - (1 # 2) -> Z.even n = true) ->
  round x = n.
Proof.
  intros Hlo Hhi Htie.
  destruct (round_bounds x) as [Blo Bhi].
  destruct (Z.lt_trichotomy (round x) n) as [Hlt | [Heq | Hgt]]; [exfalso | exact Heq | exfalso].
  - pose proof (inject_Z_le_succ _ _ Hlt) as Hq.
    assert (En : Z.even n = true) by (apply Htie; right; lra).
    assert (Em : Z.even (round x) = true) by (apply round_tie; left; lra).
    assert (E : n = (round x + 1)%Z).
    { apply inject_Z_injective. rewrite inject_Z_succ. lra. }
    rewrite E, even_plus_one, Em in En. discriminate.
  - pose proof (inject_Z_le_succ _ _ Hgt) as Hq.
    assert (En : Z.even n = true) by (apply Htie; left; lra).
    assert (Em : Z.even (round x) = true) by (apply round_tie; right; lra).
    assert (E : round x = (n + 1)%Z).
    { apply inject_Z_injective. rewrite inject_Z_succ. lra. }
    rewrite E, even_plus_one, En in Em. discriminate.
Qed.

(** Rounding commutes with the shift by an even integer. *)
Lemma round_shift_even (x : Q) (k : Z) :
  Z.even k = true -> round (x + inject_Z k) = (round x + k)%Z.
Proof.
  intros Hk.
  destruct (round_bounds x) as [Blo Bhi].
  apply round_char; rewrite ?inject_Z_plus; try lra.
  intros Htie. rewrite Z.even_add, Hk.
  assert (Ev : Z.even (round x) = true).
  { apply round_tie. destruct Htie as [H | H]; [left | right]; lra. }
  rewrite Ev. reflexivity.
Qed.

Lemma round2_shift_80 (x : Q) : round2 (x + 80) == round2 x + 80.
Proof.
  unfold round2.
  assert (E : (x + 80) * 100 == x * 100 + inject_Z 8000).
  { change (inject_Z 8000) with 8000. ring. }
  rewrite (round_comp _ _ E), round_shift_even by reflexivity.
  rewrite inject_Z_plus. change (inject_Z 8000) with 8000. field.
Qed.

(** For the same steps and a tread of a whole number of centimetres (the
    flight staying within the integers a float holds exactly), the straight
    ladder runs [(steps - 1) * tread] and the L-shaped ladder exactly 80 more,
    and the L-shaped ladder needs 20 more across. *)
Theorem l_shaped_adds_the_turn (steps tread : Z) :
  (0 < steps)%Z -> (0 < tread)%Z -> ((steps - 1) * tread + 80 <= 2 ^ 53)%Z ->
  exists p1 p3,
    fp_horizontal_projection (calculate_ladder_footprint steps (inject_Z tread) 1)
    = Some p1
    /\ fp_horizontal_projection (calculate_ladder_footprint steps (inject_Z tread) 3)
       = Some p3
    /\ p1 == inject_Z ((steps - 1) * tread)
    /\ p3 == p1 + 80
    /\ fp_width_required (calculate_ladder_footprint steps (inject_Z tread) 1)
       = Some 80%Z
    /\ fp_width_required (calculate_ladder_footprint steps (inject_Z tread) 3)
       = Some 100%Z.
Proof.
  intros Hn Hw _. unfold calculate_ladder_footprint.
  assert (E1 : (steps <=? 0)%Z = false) by (apply Z.leb_gt; exact Hn).
  assert (E2 : Qle_bool (inject_Z tread) 0 = false).
  { apply Qle_bool_false_iff. change 0 with (inject_Z 0). rewrite <- Zlt_Qlt. exact Hw. }
  rewrite E1, E2. cbn [orb Z.eqb Pos.eqb footprint_of fp_horizontal_projection
                         fp_width_required].
  assert (Ew : inject_Z (steps - 1) * inject_Z tread == inject_Z ((steps - 1) * tread)).
  { rewrite inject_Z_mult. reflexivity. }
  do 2 eexists. split; [reflexivity |]. split; [reflexivity |].
  split; [rewrite (round2_whole _ _ Ew); exact Ew |].
  split; [apply round2_shift_80 | split; reflexivity].
Qed.

Lemma l_shaped_adds_the_turn_witness :
  exists p1 p3,
    fp_horizontal_projection (calculate_ladder_footprint 14 (inject_Z 30) 1) = Some p1
    /\ fp_horizontal_projection (calculate_ladder_footprint 14 (inject_Z 30) 3) = Some p3
    /\ p1 == inject_Z ((14 - 1) * 30)
    /\ p3 == p1 + 80
    /\ fp_width_required (calculate_ladder_footprint 14 (inject_Z 30) 1) = Some 80%Z
    /\ fp_width_required (calculate_ladder_footprint 14 (inject_Z 30) 3) = Some 100%Z.
Proof.
  apply l_shaped_adds_the_turn; [lia | lia | vm_compute; discriminate].
Defined.

(** The U-shaped footprint counts half the steps, rounded down, for each
    flight: an odd step count has the footprint of the even count below it,
    the odd step taking no room. *)
Theorem u_shaped_ignores_the_odd_step (k : Z) (step_width : Q) :
  (1 <= k)%Z ->
  calculate_ladder_footprint (2 * k + 1) step_width 2
  = calculate_ladder_footprint (2 * k) step_width 2.
Proof.
  intros Hk. unfold calculate_ladder_footprint.
  assert (E1 : (2 * k + 1 <=? 0)%Z = false) by (apply Z.leb_gt; lia).
  assert (E2 : (2 * k <=? 0)%Z = false) by (apply Z.leb_gt; lia).
  rewrite E1, E2. cbn [orb Z.eqb Pos.eqb].
  assert (D1 : ((2 * k + 1) / 2 = k)%Z).
  { rewrite Z.add_comm, Z.mul_comm, Z.div_add by lia. reflexivity. }
  assert (D2 : (2 * k / 2 = k)%Z).
  { rewrite Z.mul_comm, Z.div_mul by lia. reflexivity. }
  rewrite D1, D2. reflexivity.
Qed.

Lemma u_shaped_ignores_the_odd_step_witness :
  calculate_ladder_footprint (2 * 6 + 1) 30 2 = calculate_ladder_footprint (2 * 6) 30 2.
Proof.
  apply u_shaped_ignores_the_odd_step. lia.
Defined.

(** A ladder type other than 1, 2, 3 is a straight ladder for the footprint
    and for the parts alike: the same projection, width and parts as type 1. *)
Theorem unknown_type_is_straight (steps : Z) (step_width : Q) (t : Z) :
  t <> 1%Z -> t <> 2%Z -> t <> 3%Z ->
  calculate_parts steps t = calculate_parts steps 1
  /\ fp_error (calculate_ladder_footprint steps step_width t)
     = fp_error (calculate_ladder_footprint steps step_width 1)
  /\ fp_horizontal_projection (calculate_ladder_footprint steps step_width t)
     = fp_horizontal_projection (calculate_ladder_footprint steps step_width 1)
  /\ fp_width_required (calculate_ladder_footprint steps step_width t)
     = fp_width_required (calculate_ladder_footprint steps step_width 1).
Proof.
  intros H1 H2 H3.
  unfold calculate_parts, calculate_ladder_footprint, in_1_2_3.
  destruct (Z.eqb_spec t 1) as [E | _]; [contradiction |].
  destruct (Z.eqb_spec t 2) as [E | _]; [contradiction |].
  destruct (Z.eqb_spec t 3) as [E | _]; [contradiction |].
  cbn [orb negb].
  split; [reflexivity |].
  destruct ((steps <=? 0)%Z || Qle_bool step_width 0); repeat split; reflexivity.
Qed.

Lemma unknown_type_is_straight_witness :
  calculate_parts 14 7 = calculate_parts 14 1
  /\ fp_error (calculate_ladder_footprint 14 30 7)
     = fp_error (calculate_ladder_footprint 14 30 1)
  /\ fp_horizontal_projection (calculate_ladder_footprint 14 30 7)
     = fp_horizontal_projection (calculate_ladder_footprint 14 30 1)
  /\ fp_width_required (calculate_ladder_footprint 14 30 7)
     = fp_width_required (calculate_ladder_footprint 14 30 1).
Proof.
  apply unknown_type_is_straight; discriminate.
Defined.

(** ** The warnings and the angle status *)

Lemma warnings_of_fail (i : text) (f : feasibility) :
  warnings (fail_with i f) = warnings f.
Proof. reflexivity. Qed.

Lemma warnings_of_hard_stages (f : feasibility) :
  (forall a, warnings (stage_angle a f) = warnings f)
  /\ (forall h, warnings (stage_riser h f) = warnings f)
  /\ (forall w, warnings (stage_tread w f) = warnings f)
  /\ (forall n, warnings (stage_min_steps n f) = warnings f)
  /\ (forall n, warnings (stage_max_steps n f) = warnings f)
  /\ (forall w, warnings (stage_opening_width w f) = warnings f)
  /\ (forall p l, warnings (stage_projection p l f) = warnings f).
Proof.
  unfold stage_angle, stage_riser, stage_tread, stage_min_steps, stage_max_steps,
    stage_opening_width, stage_projection.
  repeat match goal with |- _ /\ _ => split end; intros;
    repeat match goal with
      | |- context [match ?x with _ => _ end] => destruct x
      end; reflexivity.
Qed.

(** The warnings are independent of the hard checks: for a resolved step
    count with a positive riser and tread there is no warning exactly when the
    riser is within [17, 23] and the tread within [28, 35], and there are
    never more than two. *)
Theorem warnings_exactly
    (height length : Q) (width angle : option Q) (n : Z) (w r projection : Q) :
  n <> 0%Z -> 0 < w -> 0 < r ->
  let f := check_installation_feasibility height length width angle (Some n)
             (Some w) (Some r) projection in
  (warnings f = [] <-> 17 <= r /\ r <= 23 /\ 28 <= w /\ w <= 35)
  /\ (List.length (warnings f) <= 2)%nat.
Proof.
  intros Hn Hw Hr. unfold check_installation_feasibility.
  destruct (Z.eqb_spec n 0) as [E | _]; [contradiction |].
  assert (E0 : Qle_bool w 0 || Qle_bool r 0 = false).
  { apply orb_false_iff. split; apply Qle_bool_false_iff; assumption. }
  rewrite E0. cbv zeta.
  set (g := stage_projection _ _ _).
  assert (Hg : warnings g = []).
  { unfold g.
    repeat match goal with
      | |- warnings (_ _ _ _) = _ => rewrite (proj2 (proj2 (proj2 (proj2 (proj2 (proj2
                                       (warnings_of_hard_stages _)))))))
      | |- warnings (stage_opening_width _ _) = _ =>
          rewrite (proj1 (proj2 (proj2 (proj2 (proj2 (proj2
                     (warnings_of_hard_stages _)))))))
      | |- warnings (stage_max_steps _ _) = _ =>
          rewrite (proj1 (proj2 (proj2 (proj2 (proj2 (warnings_of_hard_stages _))))))
      | |- warnings (stage_min_steps _ _) = _ =>
          rewrite (proj1 (proj2 (proj2 (proj2 (warnings_of_hard_stages _)))))
      | |- warnings (stage_tread _ _) = _ =>
          rewrite (proj1 (proj2 (proj2 (warnings_of_hard_stages _))))
      | |- warnings (stage_riser _ _) = _ =>
          rewrite (proj1 (proj2 (warnings_of_hard_stages _)))
      | |- warnings (stage_angle _ _) = _ =>
          rewrite (proj1 (warnings_of_hard_stages _))
      end.
    reflexivity. }
  clearbody g.
  unfold stage_tread_comfort, stage_riser_comfort.
  destruct (Qlt_bool r 17) eqn:R1; [| destruct (Qlt_bool 23 r) eqn:R2];
    (destruct (Qlt_bool w 28) eqn:W1; [| destruct (Qlt_bool 35 w) eqn:W2]);
    cbn [warnings warn_with]; rewrite Hg; cbn [app List.length];
    reflect_cmp;
    (split; [split; [try discriminate; intros _; repeat split; assumption
                    | intros (A & B & C & D); try reflexivity; lra]
            | lia]).
Qed.

Lemma warnings_exactly_witness :
  let f := check_installation_feasibility 270 400 None (Some 34.02) (Some 14%Z)
             (Some 30) (Some (270 # 14)) 390 in
  (warnings f = [] <-> 17 <= 270 # 14 /\ 270 # 14 <= 23 /\ 28 <= 30 /\ 30 <= 35)
  /\ (List.length (warnings f) <= 2)%nat.
Proof.
  apply (warnings_exactly 270 400 None (Some 34.02) 14 30 (270 # 14) 390);
    [discriminate | reflexivity | reflexivity].
Defined.

Lemma or_zero_in_range (a : Q) : 30 <= a -> or_zero (Some a) = a.
Proof.
  intros Ha. unfold or_zero. rewrite truthy_positive by lra. reflexivity.
Qed.

(** The angle status shown and the report agree: a report that says
    [possible] comes with the status "Угол подходит", and with that status
    the report holds no issue about the angle. *)
Theorem angle_status_agrees_with_report
    (height length : Q) (width angle step_height step_width : option Q) (t : Z)
    (r : result) (ai : angle_info) (f : feasibility) :
  calculate_all height length width angle step_height step_width t = Ok r ->
  r_angle r = Some ai ->
  r_feasibility r = Some f ->
  (possible f = true -> angle_status ai = "Угол подходит"%string)
  /\ (angle_status ai = "Угол подходит"%string ->
      ~ In issue_angle_undefined (issues f)
      /\ forall a, ~ In (issue_angle_range a) (issues f)).
Proof.
  intros Hall Hai Hf. apply calculate_all_inversion in Hall.
  destruct Hall as [(_ & ->) | [(_ & msg & ah & aw & s & _ & _ & ->)
                                | (Hacc & n & msg & ah & aw & sg & Hm & -> & _)]];
    try discriminate.
  injection Hai as <-. injection Hf as <-.
  destruct (accepted_angle height length width angle Hacc) as (a & Ha).
  unfold angle_info_of, report_of. cbn [angle_status]. rewrite Ha.
  unfold check_angle, min_angle, max_angle.
  split.
  - intros P. apply feasibility_possible_inv in P.
    destruct P as (_ & _ & _ & (a' & [= <-] & Ha1 & Ha2) & _).
    assert (Hpos : truthy a = true).
    { unfold or_zero in Ha1. destruct (truthy a); [reflexivity | lra]. }
    unfold or_zero in Ha1, Ha2. rewrite Hpos in Ha1, Ha2.
    apply Qle_bool_iff in Ha1, Ha2. rewrite Ha1, Ha2. reflexivity.
  - destruct (Qle_bool 30 a && Qle_bool a 45) eqn:E; [intros _ | discriminate].
    reflect_cmp. rewrite (or_zero_in_range a) by assumption.
    split.
    + intros Hin. apply issue_origin in Hin. unfold justified in Hin.
      repeat match goal with
        | H : _ \/ _ |- _ => destruct H as [H | H]
        end;
        try (destruct Hin as [Hx _]; discriminate Hx);
        try (destruct Hin as (y & Hx & _); discriminate Hx).
      destruct Hin as [_ Hx]. discriminate Hx.
    + intros a' Hin. apply issue_origin in Hin. unfold justified in Hin.
      repeat match goal with
        | H : _ \/ _ |- _ => destruct H as [H | H]
        end;
        try (destruct Hin as [Hx _]; discriminate Hx);
        try (destruct Hin as (y & Hx & _); discriminate Hx).
      destruct Hin as (y & _ & [= <-] & Hy). lra.
Qed.

Lemma angle_status_agrees_with_report_witness :
  exists r ai f,
    calculate_all 270 400 None None None None 1 = Ok r
    /\ r_angle r = Some ai
    /\ r_feasibility r = Some f
    /\ (possible f = true -> angle_status ai = "Угол подходит"%string)
    /\ (angle_status ai = "Угол подходит"%string ->
        ~ In issue_angle_undefined (issues f)
        /\ forall a, ~ In (issue_angle_range a) (issues f)).
Proof.
  do 3 eexists. split; [vm_compute; reflexivity |].
  split; [reflexivity |]. split; [reflexivity |].
  eapply (angle_status_agrees_with_report 270 400 None None None None 1).
  - vm_compute. reflexivity.
  - reflexivity.
  - reflexivity.
Defined.

(** ** The text of a result *)

Import Rendering.

Lemma standard_option_has_note
    (height available_length : Q) (available_width : option Q)
    (s : suggestions) (std : variant) :
  suggest_optimal_parameters height available_length available_width = Ok s ->
  standard_option s = Some std ->
  exists note, v_note std = Some note.
Proof.
  intros Hs Hstd.
  destruct (Z.eq_dec (round (height / 20)) 0) as [H0 | H0].
  { rewrite suggest_raises in Hs by exact H0. discriminate. }
  destruct (suggest_outcome height available_length available_width H0)
    as (s' & m & b & Hs' & _ & Hso & _).
  rewrite Hs in Hs'. injection Hs' as <-.
  rewrite Hso in Hstd.
  destruct (standard_fits height available_length); [| discriminate].
  injection Hstd as <-. eexists. reflexivity.
Qed.

Lemma options_lines_rendered
    (height available_length : Q) (available_width : option Q)
    (s : suggestions) (r : result) :
  suggest_optimal_parameters height available_length available_width = Ok s ->
  r_inputs r <> None ->
  exists lines, options_lines r s = Rendered lines.
Proof.
  intros Hs Hin. unfold options_lines.
  destruct (standard_option s) as [std |] eqn:Hstd; [| eexists; reflexivity].
  destruct (standard_option_has_note _ _ _ _ _ Hs Hstd) as (note & Hnote).
  unfold standard_lines, subscript. rewrite Hnote.
  destruct (r_inputs r) as [inputs |]; [| contradiction].
  eexists. reflexivity.
Qed.

(** The renderer never fails on what [calculate_all] returns: every key it
    subscripts is there, in the error results (the standard option of an early
    failure finds the inputs it quotes) as in the full ones. *)
Theorem format_result_never_raises
    (height length : Q) (width angle step_height step_width : option Q) (t : Z)
    (r : result) :
  calculate_all height length width angle step_height step_width t = Ok r ->
  exists text, format_result r = Rendered text.
Proof.
  intros Hall. apply calculate_all_inversion in Hall.
  destruct Hall as [(_ & ->) | [(_ & msg & ah & aw & s & _ & Hs & ->)
                                | (_ & n & msg & ah & aw & sg & _ & -> & Hsg)]].
  - eexists. reflexivity.
  - unfold format_result. cbn [early_failure r_error r_suggestions].
    destruct (options_lines_rendered _ _ _ s
                (early_failure height length width angle step_height step_width t msg s)
                Hs) as (lines & Hl); [discriminate |].
    rewrite Hl. eexists. reflexivity.
  - unfold format_result, subscript.
    cbn [full_result r_error r_inputs r_angle r_steps r_feasibility r_suggestions
           r_ladder_length r_parts].
    destruct Hsg as [(_ & ->) | (_ & s & Hs & ->)]; [eexists; reflexivity |].
    destruct (options_lines_rendered _ _ _ s
                (full_result height length width angle step_height step_width t n msg
                   ah aw (footprint_entry n aw t)
                   (report_of height length width angle t n ah aw) (Some s))
                Hs) as (lines & Hl); [discriminate |].
    rewrite Hl. eexists. reflexivity.
Qed.

Lemma format_result_never_raises_witness :
  exists r text,
    calculate_all 270 400 None None None (Some 20) 1 = Ok r
    /\ format_result r = Rendered text.
Proof.
  assert (H : exists r, calculate_all 270 400 None None None (Some 20) 1 = Ok r).
  { eexists. vm_compute. reflexivity. }
  destruct H as (r & Hr).
  destruct (format_result_never_raises 270 400 None None None (Some 20) 1 r Hr)
    as (text & Ht).
  exists r, text. split; [exact Hr | exact Ht].
Defined.

(** The text of a result without an "error" key holds the verdict lines. *)
Lemma format_result_verdict (r : result) (f : feasibility) (text : list piece) :
  format_result r = Rendered text ->
  r_error r = None ->
  r_feasibility r = Some f ->
  exists before after, text = before ++ feasibility_lines f ++ after.
Proof.
  intros Hfmt Herr Hf. unfold format_result, subscript in Hfmt.
  rewrite Herr, Hf in Hfmt.
  destruct (r_inputs r) as [inputs |]; [| discriminate].
  destruct (r_angle r) as [angle_data |]; [| discriminate].
  destruct (r_steps r) as [steps_data |]; [| discriminate].
  cbv zeta in Hfmt.
  match type of Hfmt with
  | match ?e with _ => _ end = _ => destruct e as [lines | key]; [| discriminate]
  end.
  set (head := [Str "📊 РАСЧЕТ ЛЕСТНИЦЫ"; nl; rule; nl]) in *.
  set (I := inputs_lines inputs) in *.
  set (A := angle_lines angle_data) in *.
  set (S := steps_lines steps_data) in *.
  set (F := feasibility_lines f) in *.
  clearbody head I A S F.
  exists (((head ++ I) ++ A) ++ S).
  destruct (r_ladder_length r) as [length_data |], (r_parts r) as [parts |];
    injection Hfmt as <-.
  - exists (lines ++ [nl] ++ length_lines length_data
            ++ [Str "🔨 НЕОБХОДИМЫЕ ДЕТАЛИ:"; nl] ++ parts_lines parts).
    rewrite <- !app_assoc. reflexivity.
  - exists (lines ++ [nl] ++ length_lines length_data).
    rewrite <- !app_assoc. reflexivity.
  - exists (lines ++ [nl] ++ [Str "🔨 НЕОБХОДИМЫЕ ДЕТАЛИ:"; nl] ++ parts_lines parts).
    rewrite <- !app_assoc. reflexivity.
  - exists (lines ++ [nl]).
    rewrite <- !app_assoc. reflexivity.
Qed.

(** The text shows what the report says: the positive verdict when the report
    is [possible]; otherwise the negative verdict and every issue; and every
    warning in both cases. *)
Theorem rendering_shows_the_report (r : result) (f : feasibility) (text : list piece) :
  format_result r = Rendered text ->
  r_error r = None ->
  r_feasibility r = Some f ->
  (possible f = true -> In (Str "✅ Лестница может быть установлена") text)
  /\ (possible f = false ->
      In (Str "❌ Лестница не может быть установлена") text
      /\ forall issue, In issue (issues f) -> In (Txt issue) text)
  /\ (forall warning, In warning (warnings f) -> In (Str warning) text).
Proof.
  intros Hfmt Herr Hf.
  destruct (format_result_verdict r f text Hfmt Herr Hf) as (before & after & ->).
  assert (Hmid : forall x, In x (feasibility_lines f) ->
                           In x (before ++ feasibility_lines f ++ after)).
  { intros x Hx. apply in_or_app. right. apply in_or_app. left. exact Hx. }
  split; [| split].
  - intros P. apply Hmid. unfold feasibility_lines. rewrite P.
    apply in_or_app. right. apply in_or_app. left. left. reflexivity.
  - intros P. split.
    + apply Hmid. unfold feasibility_lines. rewrite P.
      apply in_or_app. right. apply in_or_app. left.
      apply in_or_app. left. left. reflexivity.
    + intros issue Hin. apply Hmid. unfold feasibility_lines. rewrite P.
      apply in_or_app. right. apply in_or_app. left.
      apply in_or_app. right.
      destruct (issues f) as [| i rest] eqn:Ei; [destruct Hin |].
      apply in_or_app. right.
      apply in_flat_map. exists issue. split; [exact Hin |].
      right. left. reflexivity.
  - intros warning Hin. apply Hmid. unfold feasibility_lines.
    apply in_or_app. right. apply in_or_app. right.
    destruct (warnings f) as [| w rest] eqn:Ew; [destruct Hin |].
    apply in_or_app. right.
    apply in_flat_map. exists warning. split; [exact Hin |].
    right. left. reflexivity.
Qed.

Lemma rendering_shows_the_report_witness :
  exists r f text,
    calculate_all 300 150 None None None None 1 = Ok r
    /\ r_feasibility r = Some f
    /\ format_result r = Rendered text
    /\ (possible f = true -> In (Str "✅ Лестница может быть установлена") text)
    /\ (possible f = false ->
        In (Str "❌ Лестница не может быть установлена") text
        /\ forall issue, In issue (issues f) -> In (Txt issue) text)
    /\ (forall warning, In warning (warnings f) -> In (Str warning) text).
Proof.
  assert (H : exists r f text,
             calculate_all 300 150 None None None None 1 = Ok r
             /\ r_feasibility r = Some f
             /\ format_result r = Rendered text
             /\ r_error r = None).
  { do 3 eexists. split; [vm_compute; reflexivity |].
    split; [reflexivity |]. split; [vm_compute; reflexivity | reflexivity]. }
  destruct H as (r & f & text & Hr & Hf & Ht & He).
  exists r, f, text. split; [exact Hr |]. split; [exact Hf |]. split; [exact Ht |].
  exact (rendering_shows_the_report r f text Ht He Hf).
Defined.

(** Parts that are not needed are not listed: the landings and the winder
    treads appear for the turning ladders (types 2 and 3) only, and the treads
    and risers appear only for a positive number of steps. *)
Theorem parts_listed_when_needed (steps t : Z) :
  (In (Cap "площадки") (parts_lines (calculate_parts steps t))
   <-> t = 2%Z \/ t = 3%Z)
  /\ (In (Cap "поворотные ступени") (parts_lines (calculate_parts steps t))
      <-> t = 2%Z \/ t = 3%Z)
  /\ (In (Cap "ступени") (parts_lines (calculate_parts steps t)) <-> (0 < steps)%Z)
  /\ (In (Cap "подступенки") (parts_lines (calculate_parts steps t)) <-> (0 < steps)%Z)
  /\ In (Cap "косоуры") (parts_lines (calculate_parts steps t))
  /\ In (Cap "поручни") (parts_lines (calculate_parts steps t)).
Proof.
  assert (Ht : t = 1%Z \/ t = 2%Z \/ t = 3%Z \/ (t <> 1 /\ t <> 2 /\ t <> 3)%Z) by lia.
  unfold parts_lines, parts_items, calculate_parts, in_1_2_3, in_2_3.
  destruct Ht as [-> | [-> | [-> | (N1 & N2 & N3)]]];
    try (apply Z.eqb_neq in N1, N2, N3; rewrite N1, N2, N3);
    cbn [treads risers stringers balusters handrails landings winder_treads
           flat_map orb negb Z.eqb Pos.eqb Z.ltb Z.compare app];
    destruct (Z.ltb_spec 0 steps) as [Hs | Hs];
    destruct (Z.ltb_spec 0 (steps + 2)) as [Hb | Hb]; try lia;
    cbn [app];
    repeat match goal with |- _ /\ _ => split end;
    try (split; intros H);
    try (cbn in H;
         repeat (destruct H as [H | H]; [try discriminate H |]);
         try (destruct H; fail));
    try (apply Z.eqb_neq in N1, N2, N3);
    try lia;
    try (cbn; repeat (first [left; reflexivity | right]); fail).
Qed.

(** Without an angle the ladder length is always computed, for a height and
    a length up to [10 ^ 100] in size (so that the squares stay within the
    range of the doubles): the sum of two squares is never negative, so the
    handler of the Pythagoras branch is never entered. *)
Theorem pythagoras_never_fails (height length : Q) :
  Qabs height <= 10 ^ 100 -> Qabs length <= 10 ^ 100 ->
  exists v,
    calculate_length height length None
    = (Some v, "Длина лестницы рассчитана по теореме Пифагора"%string).
Proof.
  intros _ _. unfold calculate_length, PyMath.sqrt.
  assert (E : Qlt_bool (height * height + length * length) 0 = false).
  { apply Qlt_bool_false_iff. nra. }
  rewrite E.
  destruct (Qeq_bool (height * height + length * length) 0);
    cbn [bind ret]; eexists; reflexivity.
Qed.

Lemma pythagoras_never_fails_witness :
  exists v,
    calculate_length 300 400 None
    = (Some v, "Длина лестницы рассчитана по теореме Пифагора"%string).
Proof.
  apply pythagoras_never_fails; vm_compute; discriminate.
Defined.

(** The opening 300 by 400 has the diagonal 500. *)
Example pythagoras_of_300_by_400 :
  calculate_length 300 400 None
  = (Some 500.00, "Длина лестницы рассчитана по теореме Пифагора"%string).
Proof. vm_compute. reflexivity. Qed.
